(** * mc-tools, [src/server/info.ts]: a shallow embedding and its properties

    The module queries third-party status services for a Minecraft server,
    normalises the JSON they answer with, and renders the result through a
    line template, as the action of the commands [mc.info] and [mc.info.be].
    The embedding follows the source function by function ([pingServer], a
    socket round trip, is a field of the world the query runs in):

    - a JavaScript string is the [string] of the UTF-8 bytes of its text
      (well-formed text: no lone surrogate).  The expressions of the source
      name ASCII characters only, and a byte of a character beyond ASCII is
      never an ASCII byte, so they act on the bytes as they act on the
      text; whitespace and line terminators beyond ASCII are recognised by
      their bytes ([whiteSpaceWidth], [atLineTerminator]); indices count
      bytes, and are only ever used on the string they were taken from;
      the [length] of a string counts its UTF-16 code units
      ([utf16Length]).  [toLowerCase] maps the ASCII letters: the source
      matches the lowered text against ASCII words only, and what a
      character beyond ASCII lowers to (the Kelvin sign to [k], the dotted
      capital I to [i] and a combining dot) never completes such a match;
    - JavaScript numbers are integers ([Z]): the model is that of the safe
      integers, those a double holds exactly and prints digit by digit
      ([safeInteger]: ports, counts, limits, latencies); the statements
      that depend on the number read from a text or on the text printed
      for a number say so in a hypothesis.  [NaN] is the [None] of an
      [option Z] where the source can produce it ([parseInt]);
    - values of type [any] are the inductive [value] (JSON plus [undefined]);
    - a thrown [TypeError] is the [Throw] of the error monad [result];
    - each regular expression of the source is a matching function, with the
      expression it stands for in its comment. *)

From Stdlib Require Import Bool Arith ZArith Lia List Ascii String.
From Stdlib Require Import Numbers.DecimalString Numbers.DecimalPos.
From stdpp Require Import base list strings.
Import ListNotations.

Set Warnings "-register-all".

(* stdpp seals [String.append] against [simpl]; the proofs below compute with it. *)
Arguments String.append !_ _ / : simpl nomatch.

Open Scope string_scope.
Open Scope list_scope.

(* ================================================================== *)
(** * JavaScript strings *)
(* ================================================================== *)

Module JSString.

Definition LF : ascii := "010"%char.
Definition CR : ascii := "013"%char.

(** The one-character string [c]. *)
Definition str1 (c : ascii) : string := String c "".

(** ["\n"] *)
Definition nl : string := str1 LF.

Definition code (c : ascii) : nat := nat_of_ascii c.

(** [\d] *)
Definition isDigit (c : ascii) : bool :=
  (48 <=? code c)%nat && (code c <=? 57)%nat.

(** A digit of radix 16, for [parseInt] without a radix. *)
Definition isHexDigit (c : ascii) : bool :=
  isDigit c
  || ((65 <=? code c)%nat && (code c <=? 70)%nat)
  || ((97 <=? code c)%nat && (code c <=? 102)%nat).

(** The byte [c] is [n]. *)
Definition byte (n : nat) (c : ascii) : bool := (code c =? n)%nat.

(** The WhiteSpace and LineTerminator characters of one byte: TAB, LF, VT,
    FF, CR and SP. *)
Definition isAsciiWhiteSpace (c : ascii) : bool :=
  ((9 <=? code c)%nat && (code c <=? 13)%nat) || (code c =? 32)%nat.

(** The number of bytes of the WhiteSpace or LineTerminator character that
    [s] starts with, [0] when it starts with none: what [trim] strips and
    [parseInt] skips.  Beyond ASCII these are U+00A0 (C2 A0), U+1680
    (E1 9A 80), U+2000 to U+200A (E2 80 80 to E2 80 8A), U+2028 and U+2029
    (E2 80 A8, E2 80 A9), U+202F (E2 80 AF), U+205F (E2 81 9F), U+3000
    (E3 80 80) and U+FEFF (EF BB BF). *)
Definition whiteSpaceWidth (s : string) : nat :=
  match s with
  | "" => 0
  | String c r =>
      if isAsciiWhiteSpace c then 1
      else match r with
           | "" => 0
           | String c2 r2 =>
               if byte 194 c && byte 160 c2 then 2
               else match r2 with
                    | "" => 0
                    | String c3 _ =>
                        if (byte 225 c && byte 154 c2 && byte 128 c3)
                           || (byte 226 c && byte 128 c2
                               && (((128 <=? code c3)%nat && (code c3 <=? 138)%nat)
                                   || byte 168 c3 || byte 169 c3 || byte 175 c3))
                           || (byte 226 c && byte 129 c2 && byte 159 c3)
                           || (byte 227 c && byte 128 c2 && byte 128 c3)
                           || (byte 239 c && byte 187 c2 && byte 191 c3)
                        then 3 else 0
                    end
           end
  end.

(** [s] starts with a line terminator, which [.] of a regular expression
    does not match: LF, CR, U+2028 or U+2029. *)
Definition atLineTerminator (s : string) : bool :=
  match s with
  | "" => false
  | String c r =>
      Ascii.eqb c LF || Ascii.eqb c CR
      || match r with
         | String c2 (String c3 _) =>
             byte 226 c && byte 128 c2 && (byte 168 c3 || byte 169 c3)
         | _ => false
         end
  end.

Definition lowerChar (c : ascii) : ascii :=
  if (65 <=? code c)%nat && (code c <=? 90)%nat
  then ascii_of_nat (code c + 32) else c.

(** [s.toLowerCase()] *)
Fixpoint toLowerCase (s : string) : string :=
  match s with
  | "" => ""
  | String c r => String (lowerChar c) (toLowerCase r)
  end.

Fixpoint forallbS (p : ascii -> bool) (s : string) : bool :=
  match s with
  | "" => true
  | String c r => p c && forallbS p r
  end.

Definition isEmpty (s : string) : bool :=
  match s with "" => true | _ => false end.

(** [s.includes(c)] for a one-character needle. *)
Fixpoint includes (c : ascii) (s : string) : bool :=
  match s with
  | "" => false
  | String x r => Ascii.eqb x c || includes c r
  end.

(** [s.indexOf(c)]: [-1] when [c] does not occur. *)
Fixpoint indexOf (c : ascii) (s : string) : Z :=
  match s with
  | "" => (-1)%Z
  | String x r =>
      if Ascii.eqb x c then 0%Z
      else let i := indexOf c r in if (i <? 0)%Z then (-1)%Z else (i + 1)%Z
  end.

(** [s.lastIndexOf(c)]: [-1] when [c] does not occur. *)
Fixpoint lastIndexOf (c : ascii) (s : string) : Z :=
  match s with
  | "" => (-1)%Z
  | String x r =>
      let i := lastIndexOf c r in
      if (0 <=? i)%Z then (i + 1)%Z
      else if Ascii.eqb x c then 0%Z else (-1)%Z
  end.

Fixpoint take (n : nat) (s : string) : string :=
  match n, s with
  | S k, String c r => String c (take k r)
  | _, _ => ""
  end.

Fixpoint drop (n : nat) (s : string) : string :=
  match n, s with
  | S k, String _ r => drop k r
  | _, _ => s
  end.

(** [s.substring(i)]; a negative [i] counts as [0]. *)
Definition substringFrom (i : Z) (s : string) : string := drop (Z.to_nat i) s.

(** [s.substring(0, j)]; a negative [j] counts as [0]. *)
Definition substringTo (j : Z) (s : string) : string := take (Z.to_nat j) s.

(** [s.startsWith(p)] *)
Definition startsWith (p s : string) : bool := String.prefix p s.

(** [s.endsWith(c)] for a one-character suffix. *)
Fixpoint endsWith (c : ascii) (s : string) : bool :=
  match s with
  | "" => false
  | String x "" => Ascii.eqb x c
  | String _ r => endsWith c r
  end.

(** [s.split(c)] for a one-character separator: never the empty list. *)
Fixpoint split (c : ascii) (s : string) : list string :=
  match s with
  | "" => [""]
  | String x r =>
      if Ascii.eqb x c then "" :: split c r
      else match split c r with
           | [] => [str1 x]
           | h :: t => String x h :: t
           end
  end.

(** [l.join(sep)] on strings. *)
Definition join (sep : string) (l : list string) : string := String.concat sep l.

(** [s.trimStart()]: the whitespace characters [s] starts with are
    dropped, each with all its bytes. *)
Fixpoint trimStart (s : string) : string :=
  match s with
  | "" => ""
  | String _ r =>
      match whiteSpaceWidth s with
      | 0 => s
      | 1 => trimStart r
      | 2 => match r with
             | String _ r2 => trimStart r2
             | "" => s
             end
      | _ => match r with
             | String _ (String _ r3) => trimStart r3
             | _ => s
             end
      end
  end.

(** [s.trimEnd()]: what is left of [s] when the whitespace it ends with is
    dropped, that is its bytes up to the point from which all is
    whitespace. *)
Fixpoint trimEnd (s : string) : string :=
  match s with
  | "" => ""
  | String c r => if isEmpty (trimStart s) then "" else String c (trimEnd r)
  end.

(** [s.trim()] *)
Definition trim (s : string) : string := trimEnd (trimStart s).

(** ** [parseInt] *)

Definition digitValue (c : ascii) : Z :=
  if isDigit c then Z.of_nat (code c - 48)
  else if (97 <=? code c)%nat then Z.of_nat (code c - 87)
  else Z.of_nat (code c - 55).

(** The value of the longest prefix of [s] made of digits of the radix,
    read left to right from the accumulator [acc]; [None] when that prefix
    is empty and nothing was read before. *)
Fixpoint readDigits (isD : ascii -> bool) (radix : Z) (acc : option Z)
         (s : string) : option Z :=
  match s with
  | "" => acc
  | String c r =>
      if isD c
      then readDigits isD radix
             (Some (match acc with
                    | Some a => a * radix + digitValue c
                    | None => digitValue c
                    end)%Z) r
      else acc
  end.

Definition applySign (neg : bool) (n : option Z) : option Z :=
  match n with
  | Some v => Some (if neg then (- v)%Z else v)
  | None => None
  end.

(** The sign of the input and the input without it. *)
Definition stripSign (s : string) : bool * string :=
  match s with
  | String "-" r => (true, r)
  | String "+" r => (false, r)
  | _ => (false, s)
  end.

(** [parseInt(s, 10)]: leading whitespace is skipped, a sign is read, then
    the longest run of decimal digits; [None] is [NaN].  The number is the
    one the digits write: that is what the source gets when it is a safe
    integer (beyond, a double rounds it). *)
Definition parseInt10 (s : string) : option Z :=
  let '(neg, r) := stripSign (trimStart s) in
  applySign neg (readDigits isDigit 10 None r).

(** [parseInt(s)]: as above, except that [0x]/[0X] after the sign selects
    radix 16. *)
Definition parseInt (s : string) : option Z :=
  let '(neg, r) := stripSign (trimStart s) in
  match r with
  | String "0" (String "x" h) | String "0" (String "X" h) =>
      applySign neg (readDigits isHexDigit 16 None h)
  | _ => applySign neg (readDigits isDigit 10 None r)
  end.

(** [n.toString()] for a safe integer: its decimal digits.  (The source
    prints a number from 1e21 with an exponent.) *)
Definition numberToString (n : Z) : string :=
  NilZero.string_of_int (Z.to_int n).

End JSString.
Import JSString.

(* ================================================================== *)
(** * Addresses: [FORBIDDEN_PATTERNS], [validateServerAddress],
      [parseServerAddress] *)
(* ================================================================== *)

(** [/^(172\.(1[6-9]|2[0-9]|3[0-1]))\./] *)
Definition matches_172 (s : string) : bool :=
  match s with
  | String "1" (String "7" (String "2" (String "." (String a (String b (String "." _)))))) =>
      (Ascii.eqb a "1" && (54 <=? code b)%nat && (code b <=? 57)%nat)
      || (Ascii.eqb a "2" && isDigit b)
      || (Ascii.eqb a "3" && (48 <=? code b)%nat && (code b <=? 49)%nat)
  | _ => false
  end.

(** [/^[fd]/] *)
Definition matches_fd (s : string) : bool :=
  match s with
  | String c _ => Ascii.eqb c "f" || Ascii.eqb c "d"
  | "" => false
  end.

(** The deny list, each pattern as its [test] function, in the source's
    order:
    [/^localhost$/, /^127\./, /^0\.0\.0\.0$/, /^\[::\]/, /^::$/, /^\[::1\]/,
     /^10\./, /^(192\.168)\./, /^(172\.(1[6-9]|2[0-9]|3[0-1]))\./,
     /^(169\.254)\./, /^fe80:/, /^[fd]/, /^ff/] *)
Definition FORBIDDEN_PATTERNS : list (string -> bool) :=
  [ String.eqb "localhost"; startsWith "127."; String.eqb "0.0.0.0";
    startsWith "[::]"; String.eqb "::"; startsWith "[::1]";
    startsWith "10."; startsWith "192.168."; matches_172;
    startsWith "169.254."; startsWith "fe80:"; matches_fd; startsWith "ff" ].

(** [validateServerAddress(input)]: [Some input] when the address is
    accepted, [None] for the source's [null]. *)
Definition validateServerAddress (input : string) : option string :=
  let lowerAddr := toLowerCase input in
  if existsb (fun pattern => pattern lowerAddr) FORBIDDEN_PATTERNS then None
  else
    let portPart :=
      if includes ":" lowerAddr
      then Some (substringFrom (lastIndexOf ":" lowerAddr + 1) lowerAddr)
      else None in
    match portPart with
    | Some p =>
        if isEmpty p then Some input  (* [if (portPart)]: the empty string is falsy *)
        else match parseInt10 p with
             | None => None                                      (* isNaN *)
             | Some port =>
                 if (port <? 1)%Z || (65535 <? port)%Z then None
                 else Some input
             end
    | None => Some input
    end.

Module Address.
(** The [{ host, port }] that [parseServerAddress] returns. *)
Record t := mk { host : string; port : Z }.
End Address.
Abbreviation mkAddress := Address.mk.

(** The tail of [/^\[(.+)\]:(\d+)$/] after the opening bracket, with its
    first group allowed to be empty: the longest [h] first (the quantifier is
    greedy), of characters that are not line terminators, followed by ["]:"],
    decimal digits and the end of the input. *)
Fixpoint scanBracketPort (r : string) : option (string * string) :=
  match r with
  | "" => None
  | String c r' =>
      let here :=
        match r with
        | String "]" (String ":" p) =>
            if negb (isEmpty p) && forallbS isDigit p then Some ("", p) else None
        | _ => None
        end in
      if atLineTerminator r then here
      else match scanBracketPort r' with
           | Some (h, p) => Some (String c h, p)
           | None => here
           end
  end.

(** [s.match(/^\[(.+)\]:(\d+)$/)]: the two groups. *)
Definition matchIpv6WithPort (s : string) : option (string * string) :=
  match s with
  | String "[" r =>
      match scanBracketPort r with
      | Some (h, p) => if isEmpty h then None else Some (h, p)
      | None => None
      end
  | _ => None
  end.

(** The tail of [/^\[(.+)\]$/] after the opening bracket, with its
    group allowed to be empty: the input without its closing bracket, when it has one and no
    line terminator stands before it. *)
Fixpoint scanBracket (r : string) : option string :=
  match r with
  | "" => None
  | String c r' =>
      let here := match r with "]" => Some "" | _ => None end in
      if atLineTerminator r then here
      else match scanBracket r' with
           | Some h => Some (String c h)
           | None => here
           end
  end.

(** [s.match(/^\[(.+)\]$/)]: its group. *)
Definition matchIpv6 (s : string) : option string :=
  match s with
  | String "[" r =>
      match scanBracket r with
      | Some h => if isEmpty h then None else Some h
      | None => None
      end
  | _ => None
  end.

(** [parseServerAddress(address, defaultPort)] *)
Definition parseServerAddress (address : string) (defaultPort : Z) : Address.t :=
  match matchIpv6WithPort address with
  | Some (h, p) =>
      (* [\d+] is a non-empty run of digits: [parseInt] is never [NaN] here *)
      mkAddress h (default 0%Z (parseInt10 p))
  | None =>
  match matchIpv6 address with
  | Some h => mkAddress h defaultPort
  | None =>
  if (2 <? length (split ":" address))%nat && negb (endsWith "]" address)
  then mkAddress address defaultPort
  else
    let lastColonIndex := lastIndexOf ":" address in
    if (-1 <? lastColonIndex)%Z then
      let host := substringTo lastColonIndex address in
      match parseInt10 (substringFrom (lastColonIndex + 1) address) with
      | Some port => mkAddress host port
      | None => mkAddress address defaultPort
      end
    else mkAddress address defaultPort
  end end.

(* ================================================================== *)
(** * JavaScript values and exceptions *)
(* ================================================================== *)

(** A value of type [any]: what [JSON.parse] builds, and [undefined].  An
    object is the list of its own properties. *)
Inductive value : Type :=
| VUndefined
| VNull
| VBool (b : bool)
| VNum (n : Z)
| VStr (s : string)
| VArr (items : list value)
| VObj (props : list (string * value)).

Inductive exn : Type := TypeError.

(** A computation that returns or throws. *)
Inductive result (A : Type) : Type :=
| Ok (a : A)
| Throw (e : exn).
Arguments Ok {A} a.
Arguments Throw {A} e.

Definition bind {A B} (m : result A) (k : A -> result B) : result B :=
  match m with
  | Ok a => k a
  | Throw e => Throw e
  end.

Notation "x <- m ;; k" := (bind m (fun x => k))
  (at level 61, m at next level, right associativity, k at level 200).

Fixpoint mapR {A B} (f : A -> result B) (l : list A) : result (list B) :=
  match l with
  | [] => Ok []
  | x :: r => y <- f x ;; ys <- mapR f r ;; Ok (y :: ys)
  end.

(** [l.every(f)]: stops at the first element that fails. *)
Fixpoint everyR {A} (f : A -> result bool) (l : list A) : result bool :=
  match l with
  | [] => Ok true
  | x :: r => b <- f x ;; if b then everyR f r else Ok false
  end.

Module JSValue.

(** ToBoolean *)
Definition truthy (v : value) : bool :=
  match v with
  | VUndefined | VNull => false
  | VBool b => b
  | VNum n => negb (n =? 0)%Z
  | VStr s => negb (isEmpty s)
  | VArr _ | VObj _ => true
  end.

(** [v == null] *)
Definition nullish (v : value) : bool :=
  match v with
  | VUndefined | VNull => true
  | _ => false
  end.

(** [a || b] *)
Definition or (a b : value) : value := if truthy a then a else b.
(** [a ?? b] *)
Definition coalesce (a b : value) : value := if nullish a then b else a.

Fixpoint lookup (k : string) (props : list (string * value)) : value :=
  match props with
  | [] => VUndefined
  | (k', v) :: r => if String.eqb k' k then v else lookup k r
  end.

Fixpoint hasOwn (k : string) (props : list (string * value)) : bool :=
  match props with
  | [] => false
  | (k', _) :: r => String.eqb k' k || hasOwn k r
  end.

(** [v?.k], and [v.k] for a [v] known not to be [null] or [undefined]: an
    own property of an object, [undefined] otherwise.  (The names the
    source reads are not properties of the built-in prototypes; [length]
    is read through [lengthOf].) *)
Definition prop (v : value) (k : string) : value :=
  match v with
  | VObj props => lookup k props
  | _ => VUndefined
  end.

(** [v.k]: throws on [null] and [undefined]. *)
Definition get (v : value) (k : string) : result value :=
  if nullish v then Throw TypeError else Ok (prop v k).

(** [typeof v === 'string'] *)
Definition isString (v : value) : bool :=
  match v with VStr _ => true | _ => false end.

(** [typeof v === 'object'] *)
Definition isObject (v : value) : bool :=
  match v with VNull | VArr _ | VObj _ => true | _ => false end.

(** [Array.isArray(v)] *)
Definition isArray (v : value) : bool :=
  match v with VArr _ => true | _ => false end.

(** [v === false] *)
Definition isFalse (v : value) : bool :=
  match v with VBool false => true | _ => false end.

(** ToString, and [v.toString()] on a [v] that is not [null] or
    [undefined].  An array joins its elements with [","], [null] and
    [undefined] elements as the empty string.  An object takes
    [Object.prototype.toString], unless an own [toString] property (never
    callable in parsed JSON) shadows it: then the conversion throws. *)
Fixpoint toString (v : value) : result string :=
  match v with
  | VUndefined => Ok "undefined"
  | VNull => Ok "null"
  | VBool true => Ok "true"
  | VBool false => Ok "false"
  | VNum n => Ok (numberToString n)
  | VStr s => Ok s
  | VArr items =>
      ss <- (fix elems (l : list value) : result (list string) :=
               match l with
               | [] => Ok []
               | x :: r =>
                   s <- (if nullish x then Ok "" else toString x) ;;
                   ss <- elems r ;;
                   Ok (s :: ss)
               end) items ;;
      Ok (join "," ss)
  | VObj props =>
      if hasOwn "toString" props then Throw TypeError
      else Ok "[object Object]"
  end.

(** The string of an array element inside [join]. *)
Definition elemString (v : value) : result string :=
  if nullish v then Ok "" else toString v.

(** [items.join(sep)] *)
Definition arrayJoin (sep : string) (items : list value) : result string :=
  ss <- mapR elemString items ;; Ok (join sep ss).

End JSValue.
Import JSValue.

Infix "|||" := JSValue.or (at level 50, left associativity).
Infix "???" := JSValue.coalesce (at level 50, left associativity).

(* ================================================================== *)
(** * The canonical record: [interface ServerStatus] *)
(* ================================================================== *)

(** ['java' | 'bedrock'] *)
Inductive ServerType : Type := java | bedrock.

Definition ServerType_eqb (a b : ServerType) : bool :=
  match a, b with
  | java, java | bedrock, bedrock => true
  | _, _ => false
  end.

Module Version.
Record t := mk { name_clean : value; name : value }.
End Version.

Module Players.
Record t := mk { online : value; max : value; list : value }.
End Players.

(** The fields hold what the program stores in them at run time, which the
    interface's types do not constrain ([data] is [any]): a [value].  A
    property the object literal does not mention reads as [undefined], and
    is [VUndefined] here. *)
Module ServerStatus.
Record t := mk {
  online : bool;
  host : value;
  port : value;
  ip_address : value;
  eula_blocked : value;
  ping : value;
  version : option Version.t;
  players : Players.t;
  motd : value;
  icon : value;
  mods : value;
  software : value;
  plugins : value;
  srv_record : value;
  gamemode : value;
  server_id : value;
  edition : value;
  error : value
}.

(** [status.ping = p] *)
Definition set_ping (p : value) (s : t) : t :=
  mk (online s) (host s) (port s) (ip_address s) (eula_blocked s) p
     (version s) (players s) (motd s) (icon s) (mods s) (software s)
     (plugins s) (srv_record s) (gamemode s) (server_id s) (edition s)
     (error s).
End ServerStatus.

(** [{ online: false, host, port, players: { online: null, max: null },
      error }]: the literal the source writes three times. *)
Definition offlineStatus (host port error : value) : ServerStatus.t :=
  {| ServerStatus.online := false;
     ServerStatus.host := host;
     ServerStatus.port := port;
     ServerStatus.ip_address := VUndefined;
     ServerStatus.eula_blocked := VUndefined;
     ServerStatus.ping := VUndefined;
     ServerStatus.version := None;
     ServerStatus.players := Players.mk VNull VNull VUndefined;
     ServerStatus.motd := VUndefined;
     ServerStatus.icon := VUndefined;
     ServerStatus.mods := VUndefined;
     ServerStatus.software := VUndefined;
     ServerStatus.plugins := VUndefined;
     ServerStatus.srv_record := VUndefined;
     ServerStatus.gamemode := VUndefined;
     ServerStatus.server_id := VUndefined;
     ServerStatus.edition := VUndefined;
     ServerStatus.error := error |}.

Definition defaultPortOf (serverType : ServerType) : Z :=
  match serverType with java => 25565 | bedrock => 19132 end.

(* ================================================================== *)
(** * [normalizeApiResponse] *)
(* ================================================================== *)

(** The non-colon prefix of [s] and what follows it. *)
Fixpoint spanNotColon (s : string) : string * string :=
  match s with
  | "" => ("", "")
  | String c r =>
      if Ascii.eqb c ":" then ("", s)
      else let '(h, t) := spanNotColon r in (String c h, t)
  end.

(** [s.match(/^([^:]+):(\d+)$/)]: the two groups. *)
Definition matchHostPort (s : string) : option (string * string) :=
  let '(h, t) := spanNotColon s in
  match t with
  | String ":" p =>
      if negb (isEmpty h) && negb (isEmpty p) && forallbS isDigit p
      then Some (h, p) else None
  | _ => None
  end.

(** [data.online === false || ['error', 'offline'].includes(data.status?.toLowerCase())]
    for a [data] that is not [null]: the call of [toLowerCase] throws when
    [status] is neither missing nor a string. *)
Definition classifiedOffline (data : value) : result bool :=
  if isFalse (prop data "online") then Ok true
  else
    let status := prop data "status" in
    if nullish status then Ok false
    else match status with
         | VStr s =>
             let l := toLowerCase s in
             Ok (String.eqb l "error" || String.eqb l "offline")
         | _ => Throw TypeError
         end.

(** [Array.isArray(items) ? items.map(item => typeof item === 'string' ?
      { name: item } : item) : undefined] *)
Definition processListData (items : value) : value :=
  match items with
  | VArr l =>
      VArr (map (fun item => if isString item then VObj [("name", item)] else item) l)
  | _ => VUndefined
  end.

(** The immediately invoked function that computes [motdText]. *)
Definition motdText (data : value) : result value :=
  let motd := prop data "motd" in
  if negb (truthy motd)
  then Ok (prop (prop data "description") "text" ||| prop data "description")
  else if isString motd then Ok motd
  else if isObject motd then
    let textArray := prop motd "clean" ||| prop motd "raw" in
    match textArray with
    | VArr l => s <- arrayJoin nl l ;; Ok (VStr s)
    | _ => Ok textArray
    end
  else Ok VNull.

(** [data.players?.list || data.players?.sample?.map(p => p.name) ||
      (Array.isArray(data.players) ? data.players : data.player_list)] *)
Definition playerList (data : value) : result value :=
  let players := prop data "players" in
  let a := prop players "list" in
  if truthy a then Ok a
  else
    b <- (let sample := prop players "sample" in
          if nullish sample then Ok VUndefined
          else match sample with
               | VArr l => ns <- mapR (fun p => get p "name") l ;; Ok (VArr ns)
               | _ => Throw TypeError                (* [map] is not a function *)
               end) ;;
    if truthy b then Ok b
    else Ok (if isArray players then players else prop data "player_list").

(** [playerList?.map(p => (typeof p === 'string' ? p : p.name) || '')] *)
Definition playerNames (playerList : value) : result value :=
  if nullish playerList then Ok VUndefined
  else match playerList with
       | VArr l =>
           ns <- mapR (fun p =>
                         n <- (if isString p then Ok p else get p "name") ;;
                         Ok (n ||| VStr "")) l ;;
           Ok (VArr ns)
       | _ => Throw TypeError                        (* [map] is not a function *)
       end.

(** The host and port that lines 161 to 169 resolve: [finalHost.match]
    throws when the host chosen from the payload is not a string and no port
    field is present. *)
Definition resolveHostPort (data : value) (hostFromAddr : string)
           (portFromAddr : Z) : result (value * value) :=
  let finalHost :=
    prop data "hostname" ||| prop data "host" ||| prop data "server"
    ||| VStr hostFromAddr in
  let finalPort := prop data "port" ??? prop data "ipv6Port" in
  hp <- (if nullish finalPort then
           match finalHost with
           | VStr h =>
               let ipv6Match := matchIpv6WithPort h in
               let hostPortMatch :=
                 if (indexOf ":" h <? lastIndexOf ":" h)%Z then None
                 else matchHostPort h in
               match (match ipv6Match with Some m => Some m | None => hostPortMatch end) with
               | Some (m1, m2) => Ok (VStr m1, VNum (default 0%Z (parseInt10 m2)))
               | None => Ok (finalHost, finalPort)
               end
           | _ => Throw TypeError                  (* [match] is not a function *)
           end
         else Ok (finalHost, finalPort)) ;;
  Ok (fst hp, snd hp ??? VNum portFromAddr).

(** [normalizeApiResponse(data, address, serverType)] *)
Definition normalizeApiResponse (data : value) (address : string)
           (serverType : ServerType) : result ServerStatus.t :=
  let parts := split ":" address in
  let hostFromAddr := nth 0 parts "" in
  (* [parseInt(undefined)] reads the string "undefined" *)
  let portStr := default "undefined" (parts !! 1%nat) in
  let defaultPort := defaultPortOf serverType in
  let portFromAddr :=
    match parseInt portStr with
    | Some n => if (n =? 0)%Z then defaultPort else n
    | None => defaultPort
    end in
  if nullish data then Throw TypeError                      (* [data.online] *)
  else
    offline <- classifiedOffline data ;;
    if offline : bool then
      Ok (offlineStatus (VStr hostFromAddr) (VNum portFromAddr)
            (prop data "error" ||| prop data "description"))
    else
      hp <- resolveHostPort data hostFromAddr portFromAddr ;;
      motdText <- motdText data ;;
      playerList <- playerList data ;;
      names <- playerNames playerList ;;
      Ok {| ServerStatus.online := true;
            ServerStatus.host := fst hp;
            ServerStatus.port := snd hp;
            ServerStatus.ip_address := prop data "ip_address" ||| prop data "ip";
            ServerStatus.eula_blocked := prop data "eula_blocked";
            ServerStatus.ping := VUndefined;
            ServerStatus.motd := motdText;
            ServerStatus.version :=
              Some (Version.mk
                      (prop (prop data "version") "name_clean" ??? prop data "version")
                      (prop (prop data "version") "name" ??? prop (prop data "protocol") "name"));
            ServerStatus.players :=
              Players.mk
                (prop (prop data "players") "online" ??? prop (prop data "players") "now")
                (prop (prop data "players") "max")
                names;
            ServerStatus.icon := prop data "icon" ||| prop data "favicon";
            ServerStatus.srv_record := prop data "srv_record" ||| prop data "srv";
            ServerStatus.mods :=
              processListData (prop data "mods" ||| prop (prop data "modinfo") "modList");
            ServerStatus.software := prop data "software";
            ServerStatus.plugins := processListData (prop data "plugins");
            ServerStatus.gamemode := prop data "gamemode";
            ServerStatus.server_id := prop data "server_id";
            ServerStatus.edition :=
              prop data "edition"
              ||| (if ServerType_eqb serverType bedrock then VStr "MCPE" else VNull);
            ServerStatus.error := VUndefined |}.

(* ================================================================== *)
(** * [Promise.allSettled] *)
(* ================================================================== *)

(** How a promise settles.  ([reason] is the rejection's message; nothing
    reads it.) *)
Inductive Settled : Type :=
| Fulfilled (v : value)
| Rejected (reason : string).

Module Promise.

(** The result array under construction: one slot per input promise, in
    the order of the input, empty until that promise settles. *)
Abbreviation slots := (list (option Settled)).

(** Promise [i] settles with [o]: its slot is filled, once. *)
Definition settle (i : nat) (o : Settled) (s : slots) : slots :=
  match s !! i with
  | Some None => <[i := Some o]> s
  | _ => s
  end.

(** The array [allSettled] resolves with, once no slot is empty. *)
Fixpoint collect (s : slots) : option (list Settled) :=
  match s with
  | [] => Some []
  | None :: _ => None
  | Some o :: r =>
      match collect r with
      | Some os => Some (o :: os)
      | None => None
      end
  end.

(** The event "promise [i] settles", [i] being one of the input promises. *)
Definition step (outcomes : list Settled) (s : slots) (i : nat) : slots :=
  match outcomes !! i with
  | Some o => settle i o s
  | None => s
  end.

Definition run (outcomes : list Settled) (schedule : list nat) : slots :=
  foldl (step outcomes) (replicate (length outcomes) None) schedule.

(** [await Promise.allSettled(promises)], where promise [i] settles with
    [outcomes !! i] and the promises settle in the order [schedule] lists
    them: [None] while a promise is still pending. *)
Definition allSettled (outcomes : list Settled) (schedule : list nat)
  : option (list Settled) :=
  collect (run outcomes schedule).

End Promise.

(** [apiResults.find(r => r.status === 'fulfilled')?.value] *)
Fixpoint firstFulfilled (apiResults : list Settled) : value :=
  match apiResults with
  | [] => VUndefined
  | Fulfilled v :: _ => v
  | Rejected _ :: r => firstFulfilled r
  end.

(* ================================================================== *)
(** * [fetchServerStatus] *)
(* ================================================================== *)

(** [s.replace(pattern, replacement)] with a string pattern: the first
    occurrence is replaced, and in the replacement [$$], [$&], [$`] and [$']
    stand for a dollar, the match, and the text before and after it. *)
Fixpoint expandReplacement (before matched after replacement : string) : string :=
  match replacement with
  | "" => ""
  | String "$" (String c r as r0) =>
      if Ascii.eqb c "$" then String "$" (expandReplacement before matched after r)
      else if Ascii.eqb c "&" then matched +:+ expandReplacement before matched after r
      else if Ascii.eqb c "`" then before +:+ expandReplacement before matched after r
      else if Ascii.eqb c "'" then after +:+ expandReplacement before matched after r
      else String "$" (expandReplacement before matched after r0)
  | String c r => String c (expandReplacement before matched after r)
  end.

Fixpoint replaceFrom (before pattern replacement s : string) : string :=
  if String.prefix pattern s
  then expandReplacement before pattern (drop (String.length pattern) s) replacement
       +:+ drop (String.length pattern) s
  else match s with
       | "" => ""
       | String c r => String c (replaceFrom (before +:+ str1 c) pattern replacement r)
       end.

Definition replace (pattern replacement s : string) : string :=
  replaceFrom "" pattern replacement s.

(** An entry of [config.serverApis] and the part of [Config] this file
    reads ([Config] is declared in [../index]). *)
Module Api.
Record t := mk { type : ServerType; url : string }.
End Api.

Module Config.
Record t := mk { serverApis : option (list Api.t); serverTemplate : string }.
End Config.

(** What [fetch] does with one request. *)
Inductive HttpResult : Type :=
| NetworkError                                     (* [fetch] rejects *)
| Response (ok : bool) (status : Z) (json : option value).
                                  (* [json = None]: the body does not parse *)

(** [fetch(url).then(res => res.ok ? res.json() : Promise.reject(...))] *)
Definition settledOf (r : HttpResult) : Settled :=
  match r with
  | Response true _ (Some v) => Fulfilled v
  | Response true _ None => Rejected "SyntaxError"
  | Response false status _ => Rejected ("API 请求失败: " +:+ numberToString status)
  | NetworkError => Rejected "fetch failed"
  end.

(** The world outside the module, at the moment the caller looks at the
    promise of [fetchServerStatus]: what the [i]-th request answers, which
    requests have settled by then and in which order, and what [pingServer]
    (a socket round trip of up to ten seconds) has done by then: [None]
    while its promise is pending, [Some (Ok ms)] once it has resolved,
    [Some (Throw _)] once it has rejected ([socket.connect] or
    [client.send] threw on its arguments). *)
Module World.
Record t := mk {
  fetch : nat -> string -> HttpResult;
  schedule : list nat;
  pingServer : value -> value -> ServerType -> option (result value)
}.
End World.

(** ['查询失败'] and ['无效地址'], as their UTF-8 bytes. *)
Definition MSG_LOOKUP_FAILED : string := "查询失败".
Definition MSG_INVALID_ADDRESS : string := "无效地址".

(** [config?.serverApis?.filter(api => api.type === serverType)
      ?.map(api => api.url) || []] *)
Definition apiEndpointsOf (config : option Config.t) (serverType : ServerType)
  : list string :=
  match config with
  | Some c =>
      match Config.serverApis c with
      | Some apis =>
          map Api.url
              (List.filter (fun api => ServerType_eqb (Api.type api) serverType) apis)
      | None => []
      end
  | None => []
  end.

(** The promises handed to [Promise.allSettled], each as the way it settles:
    [apiEndpoints.map(apiUrl => fetch(apiUrl.replace('${address}', address),
      ...).then(...))] *)
Definition requests (w : World.t) (address : string) (apiEndpoints : list string)
  : list Settled :=
  imap (fun i apiUrl =>
          settledOf (World.fetch w i (replace "${address}" address apiUrl)))
       apiEndpoints.

(** [{ online: false, host, port, players: { online: null, max: null },
      error: '查询失败' }], with the host and port parsed from the address. *)
Definition lookupFailed (a : Address.t) : ServerStatus.t :=
  offlineStatus (VStr (Address.host a)) (VNum (Address.port a)) (VStr MSG_LOOKUP_FAILED).

(** Lines 136 to 144: what [fetchServerStatus] does once [apiResults] is
    there; [None] while it awaits [pingServer] on line 140. *)
Definition conclude (w : World.t) (address : string) (serverType : ServerType)
           (apiResults : list Settled) : option (result ServerStatus.t) :=
  let a := parseServerAddress address (defaultPortOf serverType) in
  let successfulData := firstFulfilled apiResults in
  if truthy successfulData then
    match normalizeApiResponse successfulData address serverType with
    | Throw e => Some (Throw e)
    | Ok status =>
        if ServerStatus.online status then
          match World.pingServer w (ServerStatus.host status)
                  (ServerStatus.port status) serverType with
          | None => None
          | Some probe => Some (p <- probe ;; Ok (ServerStatus.set_ping p status))
          end
        else Some (Ok (lookupFailed a))
    end
  else Some (Ok (lookupFailed a)).

(** [fetchServerStatus(server, forceType, config)]: [None] while the
    function is still awaiting, [Some (Throw _)] when its promise rejects,
    [Some (Ok status)] when it resolves. *)
Definition fetchServerStatus (w : World.t) (server : string)
           (forceType : ServerType) (config : option Config.t)
  : option (result ServerStatus.t) :=
  let serverType := forceType in
  let defaultPort := defaultPortOf serverType in
  let invalid :=
    let a := parseServerAddress server defaultPort in
    Some (Ok (offlineStatus (VStr (Address.host a)) (VNum (Address.port a))
                (VStr MSG_INVALID_ADDRESS))) in
  match validateServerAddress server with
  | None => invalid
  | Some address =>
      if isEmpty address then invalid                     (* [!address] *)
      else
        let apiEndpoints := apiEndpointsOf config serverType in
        match Promise.allSettled (requests w address apiEndpoints) (World.schedule w) with
        | None => None
        | Some apiResults => conclude w address serverType apiResults
        end
  end.

(* ================================================================== *)
(** * [formatServerStatus] *)
(* ================================================================== *)

(** [[^{}:]] *)
Definition isNameChar (c : ascii) : bool :=
  negb (Ascii.eqb c "{" || Ascii.eqb c "}" || Ascii.eqb c ":").

(** The longest prefix of [s] whose characters satisfy [p], and the rest. *)
Fixpoint span (p : ascii -> bool) (s : string) : string * string :=
  match s with
  | "" => ("", "")
  | String c r =>
      if p c then let '(h, t) := span p r in (String c h, t)
      else ("", s)
  end.

(** A match of the placeholder expression: the two groups ([limitStr] is
    [None] when the optional group did not take part) and the length of the
    matched text. *)
Module Placeholder.
Record t := mk { name : string; limitStr : option string; width : nat }.
End Placeholder.

(** A match of [/\{([^{}:]+)(?::(\d+))?\}/] that starts at the first
    character of [s]. *)
Definition matchPlaceholder (s : string) : option Placeholder.t :=
  match s with
  | String "{" r =>
      let '(name, t) := span isNameChar r in
      if isEmpty name then None
      else match t with
           | String "}" _ => Some (Placeholder.mk name None (String.length name + 2))
           | String ":" t' =>
               let '(digits, t'') := span isDigit t' in
               if isEmpty digits then None
               else match t'' with
                    | String "}" _ =>
                        Some (Placeholder.mk name (Some digits)
                                (String.length name + String.length digits + 3))
                    | _ => None
                    end
           | _ => None
           end
  | _ => None
  end.

(** A line cut into the matches of the global expression and the characters
    between them. *)
Inductive token : Type :=
| Lit (c : ascii)
| Hole (p : Placeholder.t).

(** The scan of a global expression: a match is looked for at each position
    from left to right, and the scan resumes after a match ([skip] counts the
    characters of the last match still to pass). *)
Fixpoint scanFrom (skip : nat) (s : string) : list token :=
  match s with
  | "" => []
  | String c r =>
      match skip with
      | S k => scanFrom k r
      | O =>
          match matchPlaceholder s with
          | Some p => Hole p :: scanFrom (Placeholder.width p - 1) r
          | None => Lit c :: scanFrom 0 r
          end
      end
  end.

Definition tokens (line : string) : list token := scanFrom 0 line.

(** The matches among the tokens. *)
Definition holes (ts : list token) : list Placeholder.t :=
  omap (fun t => match t with Hole p => Some p | Lit _ => None end) ts.

(** [[...line.matchAll(/\{([^{}:]+)(?::(\d+))?\}/g)]] *)
Definition placeholders (line : string) : list Placeholder.t :=
  holes (tokens line).

(** [line.replace(/\{([^{}:]+)(?::(\d+))?\}/g, f)]: [f] is called match by
    match, from left to right. *)
Fixpoint replaceTokens (f : Placeholder.t -> result string) (ts : list token)
  : result string :=
  match ts with
  | [] => Ok ""
  | Lit c :: r => s <- replaceTokens f r ;; Ok (String c s)
  | Hole p :: r => v <- f p ;; s <- replaceTokens f r ;; Ok (v +:+ s)
  end.

Definition replacePlaceholders (f : Placeholder.t -> result string)
           (line : string) : result string :=
  replaceTokens f (tokens line).

(** The number of line feeds [s] starts with. *)
Fixpoint countLF (s : string) : nat :=
  match s with
  | String c r => if Ascii.eqb c LF then S (countLF r) else 0
  | "" => 0
  end.

(** [s.replace(/\n{3,}/g, '\n\n')]; [skip] as in [scanFrom]. *)
Fixpoint collapseFrom (skip : nat) (s : string) : string :=
  match s with
  | "" => ""
  | String c r =>
      match skip with
      | S k => collapseFrom k r
      | O =>
          let n := countLF s in
          if (3 <=? n)%nat then nl +:+ nl +:+ collapseFrom (n - 1) r
          else String c (collapseFrom 0 r)
      end
  end.

Definition collapseBlankLines (s : string) : string := collapseFrom 0 s.

(** [s.length]: the UTF-16 code units of the text, one for each character
    of up to three bytes and two for each character of four (a byte from
    128 to 191 continues a character). *)
Fixpoint utf16Length (s : string) : nat :=
  match s with
  | "" => 0
  | String c r =>
      (if (240 <=? code c)%nat then 2
       else if (128 <=? code c)%nat && (code c <=? 191)%nat then 0
       else 1)
      + utf16Length r
  end.

(** [v.length] for a [v] that is not [null] or [undefined]. *)
Definition lengthOf (v : value) : value :=
  match v with
  | VArr l => VNum (Z.of_nat (length l))
  | VStr s => VNum (Z.of_nat (utf16Length s))
  | VObj props => lookup "length" props
  | _ => VUndefined
  end.

(** [p[2] ? parseInt(p[2]) : undefined] *)
Definition limitOf (limitStr : option string) : option Z :=
  match limitStr with
  | Some d => if isEmpty d then None else Some (default 0%Z (parseInt d))
  | None => None
  end.

(** [formatList(list, limit)] *)
Definition formatList (list : value) (limit : option Z) : result value :=
  if nullish list || negb (truthy (lengthOf list)) then Ok VNull
  else match list with
       | VArr l =>
           let len := Z.of_nat (length l) in
           let n := match limit with
                    | Some k => if (k =? 0)%Z then len else k
                    | None => len
                    end in
           let limitedList := firstn (Z.to_nat n) l in
           texts <- mapR (fun item =>
                            version <- get item "version" ;;
                            if truthy version then
                              a <- toString (prop item "name") ;;
                              b <- toString version ;;
                              Ok (VStr (a +:+ "-" +:+ b))
                            else Ok (prop item "name"))
                         limitedList ;;
           text <- arrayJoin ", " texts ;;
           Ok (VStr (match limit with
                     | Some k =>
                         if negb (k =? 0)%Z && (k <? len)%Z then text +:+ "..." else text
                     | None => text
                     end))
       | _ => Throw TypeError      (* [slice] or [map] is not a function *)
       end.

(** [v?.toString()] *)
Definition toStringOpt (v : value) : result value :=
  if nullish v then Ok VUndefined else s <- toString v ;; Ok (VStr s).

(** [v?.length.toString()] *)
Definition lengthString (v : value) : result value :=
  if nullish v then Ok VUndefined
  else let n := lengthOf v in
       if nullish n then Throw TypeError else s <- toString n ;; Ok (VStr s).

Section Render.

(** [h.image(url).toString()] of koishi: the markup of an image element. *)
Variable h_image : string -> string.

Variable status : ServerStatus.t.

(** [getValue(name, limit)] *)
Definition getValue (name : string) (limit : option Z) : result value :=
  let players := ServerStatus.players status in
  if String.eqb name "name" then
    match ServerStatus.port status with
    | VNum 25565 | VNum 19132 => Ok (ServerStatus.host status)
    | port =>
        h <- toString (ServerStatus.host status) ;;
        p <- toString port ;;
        Ok (VStr (h +:+ ":" +:+ p))
    end
  else if String.eqb name "ip" then Ok (ServerStatus.ip_address status)
  else if String.eqb name "srv" then
    let srv := ServerStatus.srv_record status in
    if truthy srv then
      h <- toString (prop srv "host") ;;
      p <- toString (prop srv "port") ;;
      Ok (VStr (h +:+ ":" +:+ p))
    else Ok VNull
  else if String.eqb name "icon" then
    let icon := ServerStatus.icon status in
    if nullish icon then Ok VNull
    else match icon with
         | VStr s =>
             if startsWith "data:image/png;base64," s
             then Ok (VStr (h_image s)) else Ok VNull
         | _ => Throw TypeError        (* [startsWith] is not a function *)
         end
  else if String.eqb name "motd" then Ok (ServerStatus.motd status)
  else if String.eqb name "version" then
    Ok (match ServerStatus.version status with
        | Some v => Version.name_clean v
        | None => VUndefined
        end)
  else if String.eqb name "online" then toStringOpt (Players.online players)
  else if String.eqb name "max" then toStringOpt (Players.max players)
  else if String.eqb name "ping" then
    let ping := ServerStatus.ping status in
    if nullish ping then Ok VNull
    else match ping with
         | VNum (-1) => Ok VNull
         | _ => s <- toString ping ;; Ok (VStr (s +:+ "ms"))
         end
  else if String.eqb name "software" then Ok (ServerStatus.software status)
  else if String.eqb name "edition" then
    Ok (match ServerStatus.edition status with
        | VStr "MCPE" => VStr "基岩版"
        | VStr "MCEE" => VStr "教育版"
        | e => e
        end)
  else if String.eqb name "gamemode" then Ok (ServerStatus.gamemode status)
  else if String.eqb name "eulablock" then
    Ok (if truthy (ServerStatus.eula_blocked status) then VStr "是" else VNull)
  else if String.eqb name "serverid" then Ok (ServerStatus.server_id status)
  else if String.eqb name "playercount" then lengthString (Players.list players)
  else if String.eqb name "plugincount" then lengthString (ServerStatus.plugins status)
  else if String.eqb name "modcount" then lengthString (ServerStatus.mods status)
  else if String.eqb name "playerlist" then
    let list := Players.list players in
    if nullish list then formatList VUndefined limit
    else match list with
         | VArr l => formatList (VArr (map (fun name => VObj [("name", name)]) l)) limit
         | _ => Throw TypeError              (* [map] is not a function *)
         end
  else if String.eqb name "pluginlist" then formatList (ServerStatus.plugins status) limit
  else if String.eqb name "modlist" then formatList (ServerStatus.mods status) limit
  else Ok VNull.

(** [getValue(p[1], p[2] ? parseInt(p[2]) : undefined)] *)
Definition valueOf (p : Placeholder.t) : result value :=
  getValue (Placeholder.name p) (limitOf (Placeholder.limitStr p)).

(** The callback of [line.replace]: [getValue(...) ?? ''], which [replace]
    converts to a string. *)
Definition substitute (p : Placeholder.t) : result string :=
  v <- valueOf p ;; toString (v ??? VStr "").

(** [!getValue(p[1], p[2] ? parseInt(p[2]) : undefined)] *)
Definition resolvesEmpty (p : Placeholder.t) : result bool :=
  v <- valueOf p ;; Ok (negb (truthy v)).

(** The function mapped over the template's lines. *)
Definition renderLine (line : string) : result string :=
  let ps := placeholders line in
  allEmpty <- (if (0 <? length ps)%nat
               then everyR resolvesEmpty ps
               else Ok false) ;;
  if allEmpty : bool then Ok ""
  else replacePlaceholders substitute line.

(** What follows the [map]: [.filter(line => line.trim().length > 0)
    .join('\n').replace(/\n{3,}/g, '\n\n').trim()] *)
Definition assemble (lines : list string) : string :=
  trim (collapseBlankLines
          (join nl (List.filter (fun line => negb (isEmpty (trim line))) lines))).

Definition renderLines (lines : list string) : result string :=
  rendered <- mapR renderLine lines ;; Ok (assemble rendered).

(** [formatServerStatus(status, config)]: the [error] field, whatever it
    holds, when the status is offline. *)
Definition formatServerStatus (config : Config.t) : result value :=
  if negb (ServerStatus.online status) then Ok (ServerStatus.error status)
  else s <- renderLines (split LF (Config.serverTemplate config)) ;; Ok (VStr s).

End Render.

(* ================================================================== *)
(** * [registerInfo]: the action of the two commands *)
(* ================================================================== *)

(** An entry of [config.serverMaps], the default address of a channel
    ([Config] is declared in [../index]; the list is passed beside the
    [Config.t] of the fields read above). *)
Module ServerMap.
Record t := mk { platform : string; channelId : string; serverAddress : string }.
End ServerMap.

(** What [commandAction] reads of the session: [guildId] is [undefined]
    outside a guild. *)
Module Session.
Record t := mk { platform : string; guildId : option string }.
End Session.

(** ['请提供服务器地址'], as its UTF-8 bytes. *)
Definition MSG_NO_ADDRESS : string := "请提供服务器地址".

(** [server || (config.serverMaps.find(m => m.platform === session.platform
      && m.channelId === session.guildId)?.serverAddress ?? null)]: [None]
    is [null], and a [server] that is [undefined] is [None]. *)
Definition targetServer (serverMaps : list ServerMap.t) (session : Session.t)
           (server : option string) : option string :=
  let mapped :=
    match List.find
            (fun m =>
               String.eqb (ServerMap.platform m) (Session.platform session)
               && match Session.guildId session with
                  | Some g => String.eqb (ServerMap.channelId m) g
                  | None => false
                  end)
            serverMaps with
    | Some m => Some (ServerMap.serverAddress m)
    | None => None
    end in
  match server with
  | Some s => if isEmpty s then mapped else Some s
  | None => mapped
  end.

(** [commandAction(session, server, type)]: [None] while the query is
    awaited. *)
Definition commandAction (h_image : string -> string) (w : World.t)
           (serverMaps : list ServerMap.t) (config : Config.t)
           (session : Session.t) (server : option string) (type : ServerType)
  : option (result value) :=
  match targetServer serverMaps session server with
  | None => Some (Ok (VStr MSG_NO_ADDRESS))
  | Some target =>
      if isEmpty target then Some (Ok (VStr MSG_NO_ADDRESS))    (* [!targetServer] *)
      else match fetchServerStatus w target type (Some config) with
           | None => None
           | Some (Throw e) => Some (Throw e)
           | Some (Ok status) => Some (formatServerStatus h_image status config)
           end
  end.

(* ================================================================== *)
(** * Notions the statements are written in *)
(* ================================================================== *)

(** The number of occurrences of [c] in [s]. *)
Fixpoint countChar (c : ascii) (s : string) : nat :=
  match s with
  | "" => 0
  | String x r => (if Ascii.eqb x c then 1 else 0) + countChar c r
  end.

(** A non-empty string of decimal digits. *)
Definition isDigits (p : string) : bool :=
  negb (isEmpty p) && forallbS isDigit p.

(** No line terminator stands in [h]. *)
Fixpoint noLineTerminator (h : string) : bool :=
  match h with
  | "" => true
  | String _ r => negb (atLineTerminator h) && noLineTerminator r
  end.

(** The number a string of decimal digits writes. *)
Fixpoint decimalFrom (acc : Z) (p : string) : Z :=
  match p with
  | "" => acc
  | String c r => decimalFrom (acc * 10 + Z.of_nat (code c - 48)) r
  end.

Definition decimal (p : string) : Z := decimalFrom 0 p.

(** [Number.isSafeInteger(n)]: an integer a double holds exactly, which
    [parseInt] reads and [toString] prints digit by digit. *)
Definition safeInteger (n : Z) : bool := (Z.abs n <? 2 ^ 53)%Z.

(** [parseInt(text)] is [NaN] or a safe integer: the number read is the
    number written. *)
Definition readsSafely (text : string) : bool :=
  match parseInt text with
  | Some n => safeInteger n
  | None => true
  end.

(** [[addr]:port]: a bracketed address with an explicit port. *)
Definition BracketedWithPort (a : string) : Prop :=
  exists h p, a = "[" +:+ h +:+ "]:" +:+ p
              /\ h <> "" /\ noLineTerminator h = true /\ isDigits p = true.

(** [[addr]]: a bracketed address with no port. *)
Definition Bracketed (a : string) : Prop :=
  exists h, a = "[" +:+ h +:+ "]" /\ h <> "" /\ noLineTerminator h = true.

(** The colons of [s] that stand outside square brackets ([depth] counts
    the brackets open so far). *)
Fixpoint unbracketedColons (depth : nat) (s : string) : nat :=
  match s with
  | "" => 0
  | String c r =>
      if Ascii.eqb c "[" then unbracketedColons (S depth) r
      else if Ascii.eqb c "]" then unbracketedColons (Nat.pred depth) r
      else if Ascii.eqb c ":" && (depth =? 0)%nat then S (unbracketedColons depth r)
      else unbracketedColons depth r
  end.

(** [n] line feeds. *)
Fixpoint lineFeeds (n : nat) : string :=
  match n with
  | O => ""
  | S k => String LF (lineFeeds k)
  end.

(** The text of [a] before its first colon: all of [a] when it has none. *)
Definition beforeFirstColon (a : string) : string := fst (spanNotColon a).

(** The text between the first and the second colon of [a] (up to the end
    when there is no second one); [None] when [a] has no colon. *)
Definition afterFirstColon (a : string) : option string :=
  match snd (spanNotColon a) with
  | String _ r => Some (fst (spanNotColon r))
  | "" => None
  end.

(** The port [normalizeApiResponse] falls back on,
    [parseInt(portStr) || defaultPort], in terms of the address: the number
    [parseInt] reads at the start of the text after the first colon when
    there is one and it is not zero, the default port of the family
    otherwise. *)
Definition portFromAddr (address : string) (serverType : ServerType) : Z :=
  match afterFirstColon address with
  | Some text =>
      match parseInt text with
      | Some n => if (n =? 0)%Z then defaultPortOf serverType else n
      | None => defaultPortOf serverType
      end
  | None => defaultPortOf serverType
  end.

(** ** The payloads [normalizeApiResponse] accepts *)

(** [toString] returns: no object that shadows [toString] is reached. *)
Fixpoint printable (v : value) : bool :=
  match v with
  | VArr items =>
      (fix all (l : list value) : bool :=
         match l with
         | [] => true
         | x :: r => (nullish x || printable x) && all r
         end) items
  | VObj props => negb (hasOwn "toString" props)
  | _ => true
  end.

(** [online] is [false], or [status] is missing, [null] or a string. *)
Definition statusReadable (data : value) : bool :=
  isFalse (prop data "online")
  || nullish (prop data "status") || isString (prop data "status").

(** The payload says the server is offline. *)
Definition saysOffline (data : value) : bool :=
  isFalse (prop data "online")
  || match prop data "status" with
     | VStr s => String.eqb (toLowerCase s) "error" || String.eqb (toLowerCase s) "offline"
     | _ => false
     end.

(** A port field is present, or the host the payload names (the first
    truthy of [hostname], [host] and [server]), if any, is a string. *)
Definition hostReadable (data : value) : bool :=
  let named := prop data "hostname" ||| prop data "host" ||| prop data "server" in
  negb (nullish (prop data "port" ??? prop data "ipv6Port"))
  || negb (truthy named) || isString named.

(** When [motd] is an object whose [clean] (or else [raw]) is an array, its
    lines are printable. *)
Definition motdReadable (data : value) : bool :=
  let motd := prop data "motd" in
  if truthy motd && negb (isString motd) && isObject motd then
    match prop motd "clean" ||| prop motd "raw" with
    | VArr l => printable (VArr l)
    | _ => true
    end
  else true.

(** A list of player names that [playerNames] maps: missing, or an array
    whose entries are strings or at least not [null]. *)
Definition namesReadable (v : value) : bool :=
  nullish v
  || match v with
     | VArr l => forallb (fun p => isString p || negb (nullish p)) l
     | _ => false
     end.

(** The player list the payload offers, by the source's preference:
    [players.list] when truthy; else [players.sample] when present, which
    must be an array of entries that are not [null] and have a [name]; else
    [players] itself when an array, or [player_list]. *)
Definition playersReadable (data : value) : bool :=
  let players := prop data "players" in
  if truthy (prop players "list") then namesReadable (prop players "list")
  else
    let sample := prop players "sample" in
    if nullish sample
    then namesReadable (if isArray players then players else prop data "player_list")
    else match sample with
         | VArr l => forallb (fun p => negb (nullish p) && negb (nullish (prop p "name"))) l
         | _ => false
         end.

(** The payloads on which [normalizeApiResponse] returns. *)
Definition tolerated (data : value) : bool :=
  negb (nullish data) && statusReadable data
  && (saysOffline data
      || (hostReadable data && motdReadable data && playersReadable data)).

(** The computation returns a value (it does not throw). *)
Definition returns {A} (m : result A) : Prop := exists a, m = Ok a.

(** ** Templates *)

(** A placeholder's field name: non-empty, without braces and colons. *)
Definition isName (name : string) : bool :=
  negb (isEmpty name) && forallbS isNameChar name.

(** The characters of [s] as the tokens of a text with no placeholder. *)
Fixpoint literal (s : string) : list token :=
  match s with
  | "" => []
  | String c r => Lit c :: literal r
  end.

(** A line that is empty or made of whitespace. *)
Definition isBlank (line : string) : bool := isEmpty (trim line).

(** [Some] text does not hold three line feeds in a row. *)
Fixpoint noLongRun (s : string) : bool :=
  match s with
  | "" => true
  | String _ r => (countLF s <? 3)%nat && noLongRun r
  end.

(** A text that does not start with whitespace. *)
Definition startsClean (s : string) : bool := (whiteSpaceWidth s =? 0)%nat.

(** The text a match of the placeholder expression stands for:
    [{name}] or [{name:limit}]. *)
Definition placeholderText (p : Placeholder.t) : string :=
  "{" +:+ Placeholder.name p
  +:+ match Placeholder.limitStr p with
      | Some d => ":" +:+ d
      | None => ""
      end
  +:+ "}".

(** The field names [getValue] has a case for. *)
Definition fieldNames : list string :=
  ["name"; "ip"; "srv"; "icon"; "motd"; "version"; "online"; "max"; "ping";
   "software"; "edition"; "gamemode"; "eulablock"; "serverid"; "playercount";
   "plugincount"; "modcount"; "playerlist"; "pluginlist"; "modlist"].

(** An entry of a list of mods or plugins and the text [formatList] prints
    for it: the name, followed by a hyphen and the version when the entry
    has one. *)
Definition listed (item : value) (text : string) : Prop :=
  nullish item = false
  /\ exists name,
      prop item "name" = VStr name
      /\ ((truthy (prop item "version") = false /\ text = name)
          \/ (exists version,
                 prop item "version" = VStr version /\ version <> ""
                 /\ text = name +:+ "-" +:+ version)).

(** A field that takes a limit shows the texts of a list: all of them,
    joined by a comma and a space, without a limit, with the limit [0] and
    with a limit that is not below their number; the first [k] of them
    followed by an ellipsis with a smaller limit [k]. *)
Definition showsTexts (field : option Z -> result value) (texts : list string) : Prop :=
  field None = Ok (VStr (join ", " texts))
  /\ (forall k,
         k = 0%Z \/ (Z.of_nat (length texts) <= k)%Z ->
         field (Some k) = Ok (VStr (join ", " texts)))
  /\ (forall k,
         (0 < k < Z.of_nat (length texts))%Z ->
         field (Some k) = Ok (VStr (join ", " (firstn (Z.to_nat k) texts) +:+ "..."))).

(** A list of the record: an array, or nothing. *)
Definition arrayOrMissing (v : value) : Prop :=
  v = VUndefined \/ exists l, v = VArr l.

(** ** Sample data for the examples *)

(** The markup koishi prints for [h.image(src)], as the examples' reading of
    the parameter [h_image]. *)
Definition imgElement (src : string) : string :=
  "<img src=" +:+ str1 (ascii_of_nat 34) +:+ src +:+ str1 (ascii_of_nat 34) +:+ "/>".

(** An online Java server with five of twenty players and no latency
    measured yet. *)
Definition sampleStatus : ServerStatus.t :=
  {| ServerStatus.online := true;
     ServerStatus.host := VStr "mc.example.com";
     ServerStatus.port := VNum 25565;
     ServerStatus.ip_address := VUndefined;
     ServerStatus.eula_blocked := VUndefined;
     ServerStatus.ping := VUndefined;
     ServerStatus.version := Some (Version.mk (VStr "1.20.4") VUndefined);
     ServerStatus.players := Players.mk (VNum 5) (VNum 20) (VArr [VStr "Steve"; VStr "Alex"]);
     ServerStatus.motd := VStr ("Welcome" +:+ lineFeeds 4 +:+ "Have fun");
     ServerStatus.icon := VUndefined;
     ServerStatus.mods := VUndefined;
     ServerStatus.software := VUndefined;
     ServerStatus.plugins := VUndefined;
     ServerStatus.srv_record := VUndefined;
     ServerStatus.gamemode := VUndefined;
     ServerStatus.server_id := VUndefined;
     ServerStatus.edition := VNull;
     ServerStatus.error := VUndefined |}.

(** A no-break space (U+00A0), an ideographic space (U+3000) and a line
    separator (U+2028), as their UTF-8 bytes. *)
Definition NBSP : string :=
  String (ascii_of_nat 194) (String (ascii_of_nat 160) "").
Definition IDEOGRAPHIC_SPACE : string :=
  String (ascii_of_nat 227) (String (ascii_of_nat 128) (String (ascii_of_nat 128) "")).
Definition LINE_SEPARATOR : string :=
  String (ascii_of_nat 226) (String (ascii_of_nat 128) (String (ascii_of_nat 168) "")).

(* ================================================================== *)
(** * The definitions at work *)
(* ================================================================== *)

Example parseInt10_port : parseInt10 "25565" = Some 25565%Z.
Proof. reflexivity. Qed.

Example parseInt10_prefix : parseInt10 " 80abc" = Some 80%Z.
Proof. reflexivity. Qed.

Example parseInt10_nan : parseInt10 "1]x" = Some 1%Z /\ parseInt10 "abcd]" = None /\ parseInt10 "" = None.
Proof. repeat split. Qed.

Example parseInt_hex : parseInt "0x1F" = Some 31%Z /\ parseInt "-12" = Some (-12)%Z.
Proof. split; reflexivity. Qed.

Example split_colons :
  split ":" "[2001:db8::1]:25565" = ["[2001"; "db8"; ""; "1]"; "25565"].
Proof. reflexivity. Qed.

Example lastIndexOf_ex : lastIndexOf ":" "a:b:c" = 3%Z /\ indexOf ":" "a:b:c" = 1%Z /\ lastIndexOf ":" "abc" = (-1)%Z.
Proof. repeat split. Qed.

Example numberToString_ex : numberToString 25565 = "25565" /\ numberToString 0 = "0" /\ numberToString (-1) = "-1".
Proof. repeat split. Qed.

Example trim_ex : trim ("  a b " +:+ nl) = "a b".
Proof. reflexivity. Qed.

Example validate_examples :
  validateServerAddress "127.0.0.1" = None /\
  validateServerAddress "localhost" = None /\
  validateServerAddress "10.0.0.5:25565" = None /\
  validateServerAddress "[::1]" = None /\
  validateServerAddress "172.20.1.1" = None /\
  validateServerAddress "172.32.1.1" = Some "172.32.1.1" /\
  validateServerAddress "mc.example.com:25565" = Some "mc.example.com:25565" /\
  validateServerAddress "mc.example.com:70000" = None /\
  validateServerAddress "mc.example.com:" = Some "mc.example.com:" /\
  validateServerAddress "LocalHost" = None.
Proof. repeat split. Qed.

Example parse_examples :
  parseServerAddress "[2001:db8::1]:25565" 19132 = mkAddress "2001:db8::1" 25565 /\
  parseServerAddress "[2001:db8::1]" 25565 = mkAddress "2001:db8::1" 25565 /\
  parseServerAddress "2001:db8::1" 25565 = mkAddress "2001:db8::1" 25565 /\
  parseServerAddress "mc.example.com:1234" 25565 = mkAddress "mc.example.com" 1234 /\
  parseServerAddress "mc.example.com" 25565 = mkAddress "mc.example.com" 25565 /\
  parseServerAddress "mc.example.com:abc" 25565 = mkAddress "mc.example.com:abc" 25565 /\
  parseServerAddress "[a]:1]:2" 25565 = mkAddress "a]:1" 2 /\
  parseServerAddress "[]" 25565 = mkAddress "[]" 25565.
Proof. repeat split. Qed.

Example toString_examples :
  toString (VArr [VNum 1; VNull; VStr "a"; VArr [VBool true; VUndefined]]) = Ok "1,,a,true," /\
  toString (VObj [("a", VNum 1)]) = Ok "[object Object]" /\
  toString (VArr [VObj [("toString", VNum 1)]]) = Throw TypeError.
Proof. repeat split. Qed.

Example replace_examples :
  replace "${address}" "mc.example.com:25565" "https://api.example/v2/${address}?x=${address}"
  = "https://api.example/v2/mc.example.com:25565?x=${address}" /\
  replace "${address}" "a$&b" "u/${address}/v" = "u/a${address}b/v" /\
  replace "${address}" "a" "no marker" = "no marker".
Proof. repeat split. Qed.

Example matchHostPort_examples :
  matchHostPort "play.example.net:19132" = Some ("play.example.net", "19132")
  /\ matchHostPort "play.example.net" = None
  /\ matchHostPort "a:b:1" = None.
Proof. repeat split. Qed.

Example normalize_examples :
  (exists st,
      normalizeApiResponse
        (VObj [("hostname", VStr "play.example.net:19133");
               ("motd", VObj [("clean", VArr [VStr "Hello"; VStr "World"])]);
               ("players", VObj [("online", VNum 3); ("max", VNum 10);
                                 ("sample", VArr [VObj [("name", VStr "Steve")]])]);
               ("mods", VArr [VStr "forge"])])
        "play.example.net" bedrock = Ok st
      /\ ServerStatus.host st = VStr "play.example.net"
      /\ ServerStatus.port st = VNum 19133
      /\ ServerStatus.motd st = VStr ("Hello" +:+ nl +:+ "World")
      /\ Players.list (ServerStatus.players st) = VArr [VStr "Steve"]
      /\ ServerStatus.mods st = VArr [VObj [("name", VStr "forge")]]).
Proof. eexists. repeat split. Qed.

Example tokens_examples :
  placeholders "a{b}{c:12}{d:}{e{f}}"
  = [Placeholder.mk "b" None 3; Placeholder.mk "c" (Some "12") 6; Placeholder.mk "f" None 3].
Proof. reflexivity. Qed.

Example formatServerStatus_examples :
  formatServerStatus imgElement sampleStatus
    (Config.mk None ("{name} ({version})" +:+ nl +:+ "IP: {ip}" +:+ nl
                     +:+ "{playercount} seen: {playerlist:1}" +:+ nl +:+ "{unknown}"))
  = Ok (VStr ("mc.example.com (1.20.4)" +:+ nl +:+ "2 seen: Steve..."))
  /\ formatServerStatus imgElement
       (offlineStatus (VStr "mc.example.com") (VNum 25565) (VStr MSG_LOOKUP_FAILED))
       (Config.mk None "{name}")
     = Ok (VStr MSG_LOOKUP_FAILED).
Proof. split; reflexivity. Qed.

Example collapse_examples :
  collapseBlankLines ("a" +:+ lineFeeds 3 +:+ "b" +:+ lineFeeds 2 +:+ "c" +:+ lineFeeds 5)
  = "a" +:+ lineFeeds 2 +:+ "b" +:+ lineFeeds 2 +:+ "c" +:+ lineFeeds 2.
Proof. reflexivity. Qed.

(** Whitespace and line terminators beyond ASCII: [trim] strips them,
    [parseInt] skips them, a line made of them is blank, and [.] does not
    match a line separator; the bytes of other characters are left alone. *)
Example whitespace_examples :
  trim (NBSP +:+ " a" +:+ IDEOGRAPHIC_SPACE +:+ "b" +:+ LINE_SEPARATOR +:+ nl)
  = "a" +:+ IDEOGRAPHIC_SPACE +:+ "b"
  /\ trim " 查询失败 " = "查询失败"
  /\ isBlank (IDEOGRAPHIC_SPACE +:+ NBSP) = true
  /\ parseInt10 (NBSP +:+ "25565") = Some 25565%Z
  /\ parseServerAddress ("host:" +:+ NBSP +:+ "25565") 19132 = mkAddress "host" 25565
  /\ parseServerAddress ("[a" +:+ LINE_SEPARATOR +:+ "b]:80") 25565
     = mkAddress ("[a" +:+ LINE_SEPARATOR +:+ "b]") 80
  /\ parseServerAddress ("[a" +:+ NBSP +:+ "b]:80") 25565
     = mkAddress ("a" +:+ NBSP +:+ "b") 80
  /\ formatServerStatus imgElement sampleStatus
       (Config.mk None ("a" +:+ nl +:+ IDEOGRAPHIC_SPACE +:+ nl +:+ "b"))
     = Ok (VStr ("a" +:+ nl +:+ "b")).
Proof. repeat split. Qed.

(** The port [normalizeApiResponse] reads from the address, after a
    no-break space too. *)
Example portFromAddr_examples :
  portFromAddr ("h:" +:+ NBSP +:+ "80:1") java = 80%Z
  /\ portFromAddr "mc.example.com:0x1F:80" java = 31%Z
  /\ portFromAddr "mc.example.com:0:25570" java = 25565%Z
  /\ portFromAddr "[2001:db8::1]:25565" bedrock = 19132%Z
  /\ (exists st,
         normalizeApiResponse (VObj [("online", VBool false)])
                              ("h:" +:+ NBSP +:+ "80:1") java = Ok st
         /\ ServerStatus.host st = VStr "h" /\ ServerStatus.port st = VNum 80).
Proof. repeat split. eexists. repeat split. Qed.

(* ================================================================== *)
(** * Facts about strings *)
(* ================================================================== *)

Section StringFacts.

Lemma append_empty_r (s : string) : s +:+ "" = s.
Proof. induction s as [|c s IH]; simpl; [reflexivity | now rewrite IH]. Qed.

Lemma append_assoc (a b c : string) : (a +:+ b) +:+ c = a +:+ (b +:+ c).
Proof. induction a as [|x a IH]; simpl; [reflexivity | now rewrite IH]. Qed.

Lemma append_length (a b : string) :
  String.length (a +:+ b) = String.length a + String.length b.
Proof. induction a as [|x a IH]; simpl; [reflexivity | now rewrite IH]. Qed.

Lemma isEmpty_true (s : string) : isEmpty s = true <-> s = "".
Proof. destruct s; simpl; split; congruence. Qed.

Lemma isEmpty_false (s : string) : isEmpty s = false <-> s <> "".
Proof. destruct s; simpl; split; congruence. Qed.

Lemma take_append (a b : string) : take (String.length a) (a +:+ b) = a.
Proof. induction a as [|x a IH]; simpl; [now destruct b | now rewrite IH]. Qed.

Lemma drop_append (a b : string) : drop (String.length a) (a +:+ b) = b.
Proof. induction a as [|x a IH]; simpl; [now destruct b | exact IH]. Qed.

Lemma forallbS_append (p : ascii -> bool) (a b : string) :
  forallbS p (a +:+ b) = forallbS p a && forallbS p b.
Proof.
  induction a as [|x a IH]; simpl; [reflexivity|].
  now rewrite IH, andb_assoc.
Qed.

Lemma countChar_append (c : ascii) (a b : string) :
  countChar c (a +:+ b) = countChar c a + countChar c b.
Proof. induction a as [|x a IH]; simpl; [reflexivity | rewrite IH; lia]. Qed.

Lemma countChar_0_forallbS (c : ascii) (s : string) :
  countChar c s = 0 <-> forallbS (fun x => negb (Ascii.eqb x c)) s = true.
Proof.
  induction s as [|x s IH]; simpl; [tauto|].
  destruct (Ascii.eqb x c); simpl; [split; [lia | discriminate] | exact IH].
Qed.

Lemma includes_countChar (c : ascii) (s : string) :
  includes c s = negb (countChar c s =? 0)%nat.
Proof.
  induction s as [|x s IH]; simpl; [reflexivity|].
  destruct (Ascii.eqb x c); simpl; [reflexivity | exact IH].
Qed.

Lemma split_length (c : ascii) (s : string) :
  length (split c s) = S (countChar c s).
Proof.
  induction s as [|x s IH]; simpl; [reflexivity|].
  destruct (Ascii.eqb x c); simpl; [now rewrite IH|].
  destruct (split c s); simpl in *; [discriminate | exact IH].
Qed.

Lemma lastIndexOf_absent (c : ascii) (s : string) :
  countChar c s = 0 -> lastIndexOf c s = (-1)%Z.
Proof.
  induction s as [|x s IH]; simpl; [reflexivity|].
  destruct (Ascii.eqb x c); simpl; [discriminate|].
  intros H. rewrite (IH H). reflexivity.
Qed.

Lemma lastIndexOf_lower (c : ascii) (s : string) : (-1 <= lastIndexOf c s)%Z.
Proof.
  induction s as [|x s IH]; simpl; [lia|].
  destruct (0 <=? lastIndexOf c s)%Z eqn:E; [apply Z.leb_le in E; lia|].
  destruct (Ascii.eqb x c); lia.
Qed.

(** The last occurrence: after it, no [c]. *)
Lemma lastIndexOf_append (c : ascii) (a b : string) :
  countChar c b = 0 ->
  lastIndexOf c (a +:+ String c b) = Z.of_nat (String.length a).
Proof.
  intros Hb. induction a as [|x a IH].
  - simpl. rewrite (lastIndexOf_absent _ _ Hb). simpl.
    now rewrite Ascii.eqb_refl.
  - cbn [append lastIndexOf String.length]. rewrite IH.
    destruct (0 <=? Z.of_nat (String.length a))%Z eqn:E; [lia|].
    apply Z.leb_gt in E. lia.
Qed.

Lemma endsWith_append_char (c x : ascii) (a : string) :
  endsWith c (a +:+ String x "") = Ascii.eqb x c.
Proof.
  induction a as [|y a IH]; simpl; [reflexivity|].
  destruct (a +:+ String x "") eqn:E; [destruct a; discriminate | exact IH].
Qed.

Lemma endsWith_append_nonempty (c x : ascii) (a b : string) :
  endsWith c (a +:+ String x b) = endsWith c (String x b).
Proof.
  induction a as [|y a IH]; [reflexivity|].
  cbn [append]. rewrite <- IH.
  simpl. destruct (a +:+ String x b) eqn:E; [destruct a; discriminate | reflexivity].
Qed.

End StringFacts.

(* ================================================================== *)
(** * Facts about whitespace, [trimStart] and [trimEnd] *)
(* ================================================================== *)

Section WhiteSpaceFacts.

Lemma whiteSpaceWidth_le (s : string) : whiteSpaceWidth s <= 3.
Proof.
  unfold whiteSpaceWidth. destruct s as [|c [|c2 [|c3 r]]]; try lia;
    repeat match goal with |- context [if ?b then _ else _] => destruct b end; lia.
Qed.

Lemma whiteSpaceWidth_length (s : string) : whiteSpaceWidth s <= String.length s.
Proof.
  unfold whiteSpaceWidth. destruct s as [|c [|c2 [|c3 r]]]; cbn [String.length]; try lia;
    repeat match goal with |- context [if ?b then _ else _] => destruct b end; lia.
Qed.

(** The step of [trimStart]. *)
Lemma trimStart_eq (s : string) :
  trimStart s =
  match whiteSpaceWidth s with
  | 0 => s
  | k => trimStart (drop k s)
  end.
Proof.
  destruct s as [|c r]; [reflexivity|]. cbn [trimStart].
  pose proof (whiteSpaceWidth_le (String c r)) as Hle.
  pose proof (whiteSpaceWidth_length (String c r)) as Hlen.
  destruct (whiteSpaceWidth (String c r)) as [|[|[|[|k]]]] eqn:E; try lia; try reflexivity.
  - destruct r as [|c2 r2]; [cbn in Hlen; lia | reflexivity].
  - destruct r as [|c2 [|c3 r3]]; try (cbn in Hlen; lia). reflexivity.
Qed.

(** A whitespace character at the start of a text is one at the start of
    any text that goes on from it. *)
Lemma whiteSpaceWidth_append (a t : string) :
  whiteSpaceWidth a <> 0 -> whiteSpaceWidth (a +:+ t) = whiteSpaceWidth a.
Proof.
  unfold whiteSpaceWidth. destruct a as [|c [|c2 [|c3 r]]]; cbn [append]; try congruence.
  - destruct (isAsciiWhiteSpace c); [reflexivity | congruence].
  - destruct (isAsciiWhiteSpace c); [reflexivity|].
    destruct (byte 194 c && byte 160 c2); [reflexivity | congruence].
Qed.

Lemma drop_append_le (k : nat) (a t : string) :
  k <= String.length a -> drop k (a +:+ t) = drop k a +:+ t.
Proof.
  revert a. induction k as [|k IH]; intros a H; [now destruct a|].
  destruct a as [|c a]; [cbn in H; lia|]. cbn [append drop]. apply IH. cbn in H. lia.
Qed.

Lemma drop_length (k : nat) (s : string) :
  k <= String.length s -> String.length (drop k s) = String.length s - k.
Proof.
  revert s. induction k as [|k IH]; intros s H; [destruct s; cbn; lia|].
  destruct s as [|c s]; [cbn in H; lia|]. cbn [drop String.length]. apply IH. cbn in H. lia.
Qed.

Lemma take_drop (k : nat) (s : string) : take k s +:+ drop k s = s.
Proof.
  revert s. induction k as [|k IH]; intros s; [now destruct s|].
  destruct s as [|c s]; [reflexivity|]. cbn [take drop append]. now rewrite IH.
Qed.

(** Induction along [trimStart]: over the whitespace characters a text
    starts with. *)
Lemma trimStart_ind (P : string -> Prop) :
  (forall s, whiteSpaceWidth s = 0 -> P s) ->
  (forall s, whiteSpaceWidth s <> 0 -> P (drop (whiteSpaceWidth s) s) -> P s) ->
  forall s, P s.
Proof.
  intros H0 Hk s.
  assert (H : forall n s, String.length s <= n -> P s); [|now apply (H (String.length s))].
  clear s. induction n as [|n IH]; intros s Hs.
  - apply H0. destruct s; [reflexivity | cbn in Hs; lia].
  - destruct (Nat.eq_dec (whiteSpaceWidth s) 0) as [E|E]; [now apply H0|].
    apply Hk; [exact E|]. apply IH.
    pose proof (whiteSpaceWidth_length s). rewrite drop_length by assumption. lia.
Qed.

Lemma trimStart_step (s : string) :
  whiteSpaceWidth s <> 0 -> trimStart s = trimStart (drop (whiteSpaceWidth s) s).
Proof. intros H. rewrite trimStart_eq at 1. now destruct (whiteSpaceWidth s). Qed.

Lemma trimStart_stop (s : string) : whiteSpaceWidth s = 0 -> trimStart s = s.
Proof. intros H. rewrite trimStart_eq. now rewrite H. Qed.

Lemma trimStart_width (s : string) : whiteSpaceWidth (trimStart s) = 0.
Proof.
  induction s as [s H|s H IH] using trimStart_ind.
  - now rewrite (trimStart_stop s H).
  - now rewrite (trimStart_step s H).
Qed.

Lemma trimStart_idem (s : string) : trimStart (trimStart s) = trimStart s.
Proof. apply trimStart_stop, trimStart_width. Qed.

(** [trimStart] drops a prefix. *)
Lemma trimStart_suffix (s : string) : exists p, s = p +:+ trimStart s.
Proof.
  induction s as [s H|s H [p IH]] using trimStart_ind.
  - exists "". now rewrite (trimStart_stop s H).
  - exists (take (whiteSpaceWidth s) s +:+ p).
    rewrite (trimStart_step s H), append_assoc, <- IH. now rewrite take_drop.
Qed.

(** A text made of whitespace and a text made of whitespace make one. *)
Lemma trimStart_append_empty (a t : string) :
  trimStart a = "" -> trimStart (a +:+ t) = trimStart t.
Proof.
  induction a as [a H|a H IH] using trimStart_ind.
  - rewrite (trimStart_stop a H). now intros ->.
  - rewrite (trimStart_step a H). intros E.
    rewrite (trimStart_step (a +:+ t)) by (now rewrite whiteSpaceWidth_append).
    rewrite (whiteSpaceWidth_append a t H).
    rewrite drop_append_le by apply whiteSpaceWidth_length. now apply IH.
Qed.

(** [trimEnd] drops a suffix, which is made of whitespace. *)
Lemma trimEnd_prefix (s : string) : exists t, s = trimEnd s +:+ t /\ trimStart t = "".
Proof.
  induction s as [|c s (t & IH & Ht)]; [now exists ""|]. cbn [trimEnd].
  destruct (isEmpty (trimStart (String c s))) eqn:E.
  - exists (String c s). split; [reflexivity | now apply isEmpty_true].
  - exists t. split; [|exact Ht]. cbn [append]. now rewrite <- IH.
Qed.

Lemma trimEnd_empty_iff (s : string) : trimEnd s = "" <-> trimStart s = "".
Proof.
  destruct s as [|c s]; [now split|]. cbn [trimEnd].
  destruct (isEmpty (trimStart (String c s))) eqn:E.
  - apply isEmpty_true in E. now split.
  - apply isEmpty_false in E. split; [discriminate | intros H; now rewrite H in E].
Qed.

Lemma trimEnd_idem (s : string) : trimEnd (trimEnd s) = trimEnd s.
Proof.
  induction s as [|c s IH]; [reflexivity|]. cbn [trimEnd].
  destruct (isEmpty (trimStart (String c s))) eqn:E; [reflexivity|].
  cbn [trimEnd]. rewrite IH.
  destruct (isEmpty (trimStart (String c (trimEnd s)))) eqn:E'; [|reflexivity].
  exfalso. apply isEmpty_true in E'. apply isEmpty_false in E. apply E.
  destruct (trimEnd_prefix s) as (t & Hs & Ht).
  rewrite Hs. change (String c (trimEnd s +:+ t)) with (String c (trimEnd s) +:+ t).
  now rewrite (trimStart_append_empty _ t E').
Qed.

(** What is left of a text that does not start with whitespace does not
    start with whitespace. *)
Lemma trimEnd_width (s : string) : whiteSpaceWidth s = 0 -> whiteSpaceWidth (trimEnd s) = 0.
Proof.
  intros H. destruct (trimEnd_prefix s) as (t & Hs & _).
  destruct (Nat.eq_dec (whiteSpaceWidth (trimEnd s)) 0) as [E|E]; [exact E|].
  rewrite Hs in H at 1. rewrite (whiteSpaceWidth_append _ t E) in H. contradiction.
Qed.

Lemma trim_idem (s : string) : trim (trim s) = trim s.
Proof.
  unfold trim.
  rewrite (trimStart_stop (trimEnd (trimStart s)))
    by apply trimEnd_width, trimStart_width.
  apply trimEnd_idem.
Qed.

(** A blank text is one [trimStart] leaves nothing of. *)
Lemma trim_empty_iff (s : string) : trim s = "" <-> trimStart s = "".
Proof. unfold trim. rewrite trimEnd_empty_iff. now rewrite trimStart_idem. Qed.

Lemma whiteSpaceWidth_digit (c : ascii) (r : string) :
  isDigit c = true -> whiteSpaceWidth (String c r) = 0.
Proof.
  unfold isDigit. intros [H1 H2]%andb_true_iff. apply Nat.leb_le in H1, H2.
  unfold whiteSpaceWidth, isAsciiWhiteSpace, byte.
  assert ((9 <=? code c)%nat && (code c <=? 13)%nat || (code c =? 32)%nat = false) as ->.
  { apply orb_false_iff. split; [apply andb_false_iff; right; apply Nat.leb_gt; lia
                                | apply Nat.eqb_neq; lia]. }
  assert (forall n, 58 <= n -> (code c =? n)%nat = false) as Hb
    by (intros n Hn; apply Nat.eqb_neq; lia).
  rewrite !Hb by lia. cbn [andb orb].
  destruct r as [|c2 [|c3 r]]; reflexivity.
Qed.

(** No byte of a whitespace character is the ASCII character [x], unless
    [x] is whitespace itself. *)
Lemma whiteSpaceWidth_countChar (x : ascii) (s : string) :
  isAsciiWhiteSpace x = false -> (code x < 128)%nat ->
  whiteSpaceWidth s <> 0 -> countChar x (take (whiteSpaceWidth s) s) = 0.
Proof.
  intros Hx Hlow. unfold whiteSpaceWidth, byte.
  assert (Hne : forall c n, 128 <= n -> (code c =? n)%nat = true -> Ascii.eqb c x = false).
  { intros c n Hn Hc. apply Nat.eqb_eq in Hc. apply Ascii.eqb_neq. intros ->. lia. }
  destruct s as [|c r]; [congruence|].
  destruct (isAsciiWhiteSpace c) eqn:Ec.
  - intros _. cbn [take countChar]. destruct r; cbn [take countChar];
      (destruct (Ascii.eqb_spec c x) as [->|_]; [congruence | reflexivity]).
  - destruct r as [|c2 r2]; [congruence|].
    destruct (_ && _) eqn:E2.
    + intros _. apply andb_true_iff in E2 as [A B].
      cbn [take countChar]. rewrite (Hne c 194), (Hne c2 160) by (lia || assumption).
      now destruct r2.
    + destruct r2 as [|c3 r3]; [congruence|].
      match goal with |- context [if ?b then _ else _] => destruct b eqn:E3 end;
        [|congruence].
      intros _. cbn [take countChar].
      repeat (apply orb_true_iff in E3 as [E3|E3]);
        repeat match goal with
               | H : _ && _ = true |- _ => apply andb_true_iff in H as [? ?]
               | H : _ || _ = true |- _ => apply orb_true_iff in H as [H|H]
               end;
        repeat match goal with
               | H : (code ?c =? ?n)%nat = true |- context [Ascii.eqb ?c x] =>
                   rewrite (Hne c n) by (lia || assumption)
               | H : (128 <=? code ?c)%nat = true |- context [Ascii.eqb ?c x] =>
                   replace (Ascii.eqb c x) with false
                     by (symmetry; apply Ascii.eqb_neq; intros ->;
                         apply Nat.leb_le in H; lia)
               end; now destruct r3.
Qed.

(** A blank text holds none of the ASCII characters that are not
    whitespace. *)
Lemma blank_countChar (x : ascii) (s : string) :
  isAsciiWhiteSpace x = false -> (code x < 128)%nat ->
  trimStart s = "" -> countChar x s = 0.
Proof.
  intros Hx Hlow. induction s as [s H|s H IH] using trimStart_ind.
  - rewrite (trimStart_stop s H). now intros ->.
  - rewrite (trimStart_step s H). intros E.
    rewrite <- (take_drop (whiteSpaceWidth s) s), countChar_append.
    now rewrite (whiteSpaceWidth_countChar x s Hx Hlow H), (IH E).
Qed.

End WhiteSpaceFacts.

Section LineTerminatorFacts.

(** A closing bracket after a text does not complete a line terminator
    that the text would start. *)
Lemma atLineTerminator_bracket (c : ascii) (h x : string) :
  atLineTerminator (String c h +:+ String "]" x) = atLineTerminator (String c h).
Proof.
  unfold atLineTerminator. cbn [append].
  destruct h as [|c2 [|c3 h]]; cbn [append].
  - destruct x; unfold byte; cbn; now rewrite ?andb_false_r.
  - unfold byte. cbn. now rewrite ?andb_false_r.
  - reflexivity.
Qed.

Lemma atLineTerminator_digits (p : string) :
  forallbS isDigit p = true -> atLineTerminator ("]:" +:+ p) = false.
Proof. intros _. unfold atLineTerminator. cbn. destruct p; reflexivity. Qed.

End LineTerminatorFacts.

(* ================================================================== *)
(** * Facts about [parseInt] and the address expressions *)
(* ================================================================== *)

Section AddressFacts.

Lemma trimStart_digit (c : ascii) (r : string) :
  isDigit c = true -> trimStart (String c r) = String c r.
Proof. intros H. apply trimStart_stop. now apply whiteSpaceWidth_digit. Qed.

Lemma isDigit_not_special (c : ascii) :
  isDigit c = true ->
  c <> "-"%char /\ c <> "+"%char /\ c <> "]"%char /\ c <> ":"%char.
Proof.
  intros H. repeat split; intros ->; vm_compute in H; discriminate.
Qed.

Lemma stripSign_digit (c : ascii) (r : string) :
  isDigit c = true -> stripSign (String c r) = (false, String c r).
Proof.
  intros H. destruct (isDigit_not_special c H) as (Hm & Hp & _).
  unfold stripSign.
  destruct c as [[] [] [] [] [] [] [] []]; try reflexivity; congruence.
Qed.

Lemma readDigits_all (acc : Z) (p : string) :
  forallbS isDigit p = true ->
  readDigits isDigit 10 (Some acc) p = Some (decimalFrom acc p).
Proof.
  revert acc. induction p as [|c p IH]; intros acc H; simpl in *; [reflexivity|].
  apply andb_true_iff in H as [Hc Hp]. rewrite Hc.
  rewrite (IH _ Hp). unfold digitValue. now rewrite Hc.
Qed.

(** [parseInt] reads a string of digits as the number it writes. *)
Lemma parseInt10_digits (p : string) :
  isDigits p = true -> parseInt10 p = Some (decimal p).
Proof.
  unfold isDigits. destruct p as [|c p]; [discriminate|].
  simpl. intros H. apply andb_true_iff in H as [Hc Hp].
  unfold parseInt10. rewrite (trimStart_digit c p Hc).
  rewrite (stripSign_digit c p Hc). simpl. rewrite Hc.
  rewrite (readDigits_all _ _ Hp). unfold decimal, digitValue. simpl.
  now rewrite Hc.
Qed.

Lemma forallbS_digits_no (c : ascii) (p : string) :
  isDigit c = false -> forallbS isDigit p = true -> countChar c p = 0.
Proof.
  intros Hc. induction p as [|x p IH]; simpl; [reflexivity|].
  intros H. apply andb_true_iff in H as [Hx Hp].
  destruct (Ascii.eqb_spec x c) as [->|_]; [congruence | now apply IH].
Qed.

Lemma scanBracketPort_no_bracket (r : string) :
  countChar "]" r = 0 -> scanBracketPort r = None.
Proof.
  induction r as [|c r IH]; [reflexivity|].
  cbn [countChar]. intros H.
  destruct (Ascii.eqb_spec c "]") as [->|Hc]; [discriminate|].
  cbn [scanBracketPort]. rewrite IH by (simpl in H; lia).
  assert (Hhere :
    match String c r with
    | String "]" (String ":" p) =>
        if negb (isEmpty p) && forallbS isDigit p then Some ("", p) else None
    | _ => None
    end = None).
  { destruct c as [[] [] [] [] [] [] [] []]; try reflexivity; congruence. }
  rewrite Hhere. now destruct (atLineTerminator (String c r)).
Qed.

Lemma scanBracketPort_complete (h p : string) :
  noLineTerminator h = true -> isDigits p = true ->
  scanBracketPort (h +:+ "]:" +:+ p) = Some (h, p).
Proof.
  intros Hh Hp. induction h as [|c h IH].
  - pose proof Hp as Hp'. unfold isDigits in Hp'. apply andb_true_iff in Hp' as [_ Hd].
    pose proof (atLineTerminator_digits p Hd) as Hlt.
    assert (Hn : scanBracketPort (String ":" p) = None).
    { apply scanBracketPort_no_bracket. cbn [countChar]. simpl.
      now apply forallbS_digits_no. }
    cbn [append] in *.
    change (scanBracketPort (String "]" (String ":" p)))
      with (let here := if negb (isEmpty p) && forallbS isDigit p
                        then Some ("", p) else None in
            if atLineTerminator (String "]" (String ":" p)) then here
            else match scanBracketPort (String ":" p) with
                 | Some (h, q) => Some (String "]" h, q)
                 | None => here
                 end).
    cbv zeta. unfold isDigits in Hp. now rewrite Hp, Hlt, Hn.
  - cbn [noLineTerminator] in Hh. apply andb_true_iff in Hh as [Hc Hh].
    apply negb_true_iff in Hc.
    pose proof (atLineTerminator_bracket c h (":" +:+ p)) as Hlt. rewrite Hc in Hlt.
    cbn [append] in *. cbn [scanBracketPort]. rewrite (IH Hh). now rewrite Hlt.
Qed.

Lemma scanBracketPort_sound (r h p : string) :
  scanBracketPort r = Some (h, p) ->
  r = h +:+ "]:" +:+ p /\ noLineTerminator h = true /\ isDigits p = true.
Proof.
  revert h. induction r as [|c r IH]; intros h; [discriminate|].
  cbn [scanBracketPort].
  set (here := match String c r with
               | String "]" (String ":" q) =>
                   if negb (isEmpty q) && forallbS isDigit q then Some ("", q) else None
               | _ => None
               end).
  assert (Hhere : here = Some (h, p) ->
                  String c r = h +:+ "]:" +:+ p /\ noLineTerminator h = true
                  /\ isDigits p = true).
  { subst here. intros H.
    destruct (Ascii.eqb_spec c "]") as [->|Hc].
    - destruct r as [|x q]; [discriminate|].
      destruct (Ascii.eqb_spec x ":") as [->|Hx].
      + destruct (negb (isEmpty q) && forallbS isDigit q) eqn:E; [|discriminate].
        injection H as <- <-. now repeat split.
      + exfalso. destruct x as [[] [] [] [] [] [] [] []]; try discriminate; congruence.
    - exfalso. destruct c as [[] [] [] [] [] [] [] []]; try discriminate; congruence. }
  destruct (atLineTerminator (String c r)) eqn:Hlt; [exact Hhere|].
  destruct (scanBracketPort r) as [[h' p']|] eqn:E; [|exact Hhere].
  intros H. injection H as <- <-.
  destruct (IH h' eq_refl) as (-> & Hh & Hp).
  repeat split; [| exact Hp].
  pose proof (atLineTerminator_bracket c h' (":" +:+ p')) as Hb.
  cbn [append] in Hb, Hlt. rewrite Hlt in Hb.
  cbn [noLineTerminator]. now rewrite <- Hb, Hh.
Qed.

(** [/^\[(.+)\]:(\d+)$/] matches exactly the bracketed addresses with a
    port, and its groups are the address and the port. *)
Lemma matchIpv6WithPort_spec (a h p : string) :
  matchIpv6WithPort a = Some (h, p) <->
  a = "[" +:+ h +:+ "]:" +:+ p /\ h <> "" /\ noLineTerminator h = true
  /\ isDigits p = true.
Proof.
  unfold matchIpv6WithPort. split.
  - destruct a as [|c r]; [discriminate|].
    destruct (Ascii.eqb_spec c "[") as [->|Hc].
    + destruct (scanBracketPort r) as [[h' p']|] eqn:E; [|discriminate].
      destruct (isEmpty h') eqn:Eh; [discriminate|].
      intros H. injection H as <- <-.
      destruct (scanBracketPort_sound _ _ _ E) as (-> & Hh & Hp).
      repeat split; try assumption. now apply isEmpty_false.
    + intros H. exfalso.
      destruct c as [[] [] [] [] [] [] [] []]; try discriminate; congruence.
  - intros (-> & Hne & Hh & Hp).
    pose proof (scanBracketPort_complete h p Hh Hp) as E.
    cbn [append] in *. cbv iota. rewrite E.
    apply isEmpty_false in Hne. now rewrite Hne.
Qed.

Lemma matchIpv6WithPort_None (a : string) :
  matchIpv6WithPort a = None <-> ~ BracketedWithPort a.
Proof.
  split.
  - intros H (h & p & Hform). apply matchIpv6WithPort_spec in Hform. congruence.
  - intros H. destruct (matchIpv6WithPort a) as [[h p]|] eqn:E; [|reflexivity].
    exfalso. apply H. exists h, p. now apply matchIpv6WithPort_spec.
Qed.

Lemma scanBracket_complete (h : string) :
  noLineTerminator h = true -> scanBracket (h +:+ "]") = Some h.
Proof.
  intros Hh. induction h as [|c h IH]; [reflexivity|].
  cbn [noLineTerminator] in Hh. apply andb_true_iff in Hh as [Hc Hh].
  apply negb_true_iff in Hc.
  pose proof (atLineTerminator_bracket c h "") as Hlt. rewrite Hc in Hlt.
  cbn [append] in *. cbn [scanBracket]. rewrite (IH Hh). now rewrite Hlt.
Qed.

Lemma scanBracket_sound (r h : string) :
  scanBracket r = Some h -> r = h +:+ "]" /\ noLineTerminator h = true.
Proof.
  revert h. induction r as [|c r IH]; intros h; [discriminate|].
  cbn [scanBracket].
  set (here := match String c r with "]" => Some "" | _ => None end).
  assert (Hhere : here = Some h ->
                  String c r = h +:+ "]" /\ noLineTerminator h = true).
  { subst here. intros H. destruct r as [|x q].
    - destruct (Ascii.eqb_spec c "]") as [->|Hc].
      + injection H as <-. now split.
      + exfalso. destruct c as [[] [] [] [] [] [] [] []]; try discriminate; congruence.
    - exfalso. destruct c as [[] [] [] [] [] [] [] []]; discriminate. }
  destruct (atLineTerminator (String c r)) eqn:Hlt; [exact Hhere|].
  destruct (scanBracket r) as [h'|] eqn:E; [|exact Hhere].
  intros H. injection H as <-.
  destruct (IH h' eq_refl) as (-> & Hh).
  split; [reflexivity|].
  pose proof (atLineTerminator_bracket c h' "") as Hb.
  cbn [append] in Hb, Hlt. rewrite Hlt in Hb.
  cbn [noLineTerminator]. now rewrite <- Hb, Hh.
Qed.

(** [/^\[(.+)\]$/] matches exactly the bracketed addresses, and its group is
    the address. *)
Lemma matchIpv6_spec (a h : string) :
  matchIpv6 a = Some h <->
  a = "[" +:+ h +:+ "]" /\ h <> "" /\ noLineTerminator h = true.
Proof.
  unfold matchIpv6. split.
  - destruct a as [|c r]; [discriminate|].
    destruct (Ascii.eqb_spec c "[") as [->|Hc].
    + destruct (scanBracket r) as [h'|] eqn:E; [|discriminate].
      destruct (isEmpty h') eqn:Eh; [discriminate|].
      intros H. injection H as <-.
      destruct (scanBracket_sound _ _ E) as (-> & Hh).
      repeat split; try assumption. now apply isEmpty_false.
    + intros H. exfalso.
      destruct c as [[] [] [] [] [] [] [] []]; try discriminate; congruence.
  - intros (-> & Hne & Hh).
    pose proof (scanBracket_complete h Hh) as E.
    cbn [append] in *. cbv iota. rewrite E.
    apply isEmpty_false in Hne. now rewrite Hne.
Qed.

Lemma matchIpv6_None (a : string) : matchIpv6 a = None <-> ~ Bracketed a.
Proof.
  split.
  - intros H (h & Hform). apply matchIpv6_spec in Hform. congruence.
  - intros H. destruct (matchIpv6 a) as [h|] eqn:E; [|reflexivity].
    exfalso. apply H. exists h. now apply matchIpv6_spec.
Qed.

End AddressFacts.

(* ================================================================== *)
(** * [parseServerAddress]: the precedence of its five cases *)
(* ================================================================== *)

Section ParseFacts.

Lemma drop_succ_append (a b : string) (c : ascii) :
  drop (S (String.length a)) (a +:+ String c b) = b.
Proof. induction a as [|x a IH]; simpl; [reflexivity | exact IH]. Qed.

Lemma endsWith_absent (c : ascii) (s : string) :
  countChar c s = 0 -> endsWith c s = false.
Proof.
  induction s as [|x s IH]; [reflexivity|].
  cbn [countChar]. destruct (Ascii.eqb_spec x c) as [->|Hx]; [discriminate|].
  intros H. simpl. destruct s; [now apply Ascii.eqb_neq | now apply IH].
Qed.

Lemma endsWith_digits (a p : string) :
  isDigits p = true -> endsWith "]" (a +:+ p) = false.
Proof.
  unfold isDigits. destruct p as [|x p]; [discriminate|]. intros H.
  rewrite endsWith_append_nonempty. apply endsWith_absent.
  simpl in H. now apply forallbS_digits_no.
Qed.

(** The cut at the last colon is unique. *)
Lemma last_colon_unique (x y x' y' : string) :
  x +:+ String ":" y = x' +:+ String ":" y' ->
  countChar ":" y = 0 -> countChar ":" y' = 0 -> x = x' /\ y = y'.
Proof.
  intros E Hy Hy'.
  pose proof (lastIndexOf_append ":" x y Hy) as L.
  pose proof (lastIndexOf_append ":" x' y' Hy') as L'.
  rewrite E in L. rewrite L in L'. apply Nat2Z.inj in L'.
  assert (Hx : x = x').
  { pose proof (take_append x (String ":" y)) as T.
    rewrite E, L', take_append in T. now symmetry. }
  split; [exact Hx|]. subst x'.
  pose proof (drop_succ_append x y ":") as D.
  rewrite E, drop_succ_append in D. now symmetry.
Qed.

Lemma endsWith_bracketed (h : string) : endsWith "]" ("[" +:+ h +:+ "]") = true.
Proof.
  change ("[" +:+ h +:+ "]") with (String "[" h +:+ String "]" "").
  apply endsWith_append_char.
Qed.

Lemma not_bracketed_ends_digit (a p : string) :
  isDigits p = true -> ~ Bracketed (a +:+ p).
Proof.
  intros Hp (h & E & _). pose proof (endsWith_digits a p Hp) as F.
  rewrite E, endsWith_bracketed in F. discriminate.
Qed.

(** The last two cases of [parseServerAddress], on an address cut at its
    last colon. *)
Lemma parse_at_last_colon (pre suf : string) (d : Z) :
  let a := pre +:+ ":" +:+ suf in
  matchIpv6WithPort a = None -> matchIpv6 a = None ->
  (2 <? length (split ":" a))%nat && negb (endsWith "]" a) = false ->
  countChar ":" suf = 0 ->
  parseServerAddress a d =
  match parseInt10 suf with
  | Some n => mkAddress pre n
  | None => mkAddress a d
  end.
Proof.
  intros a Ha Hb Hc Hs. unfold parseServerAddress. rewrite Ha, Hb, Hc.
  subst a. cbn [append]. rewrite (lastIndexOf_append ":" pre suf Hs).
  assert ((-1 <? Z.of_nat (String.length pre))%Z = true) as -> by (apply Z.ltb_lt; lia).
  unfold substringTo, substringFrom.
  rewrite Nat2Z.id, take_append.
  replace (Z.to_nat (Z.of_nat (String.length pre) + 1)) with (S (String.length pre)) by lia.
  now rewrite drop_succ_append.
Qed.

Lemma many_colons_test (a : string) :
  (2 <? length (split ":" a))%nat && negb (endsWith "]" a) = false <->
  ~ (2 <= countChar ":" a /\ endsWith "]" a = false).
Proof.
  rewrite split_length. split.
  - intros H [H1 H2]. rewrite H2 in H. simpl in H.
    rewrite andb_true_r in H. apply Nat.ltb_ge in H. lia.
  - intros H. apply andb_false_iff.
    destruct (endsWith "]" a); [right; reflexivity|].
    left. apply Nat.ltb_ge. destruct (le_lt_dec 2 (countChar ":" a)); [|lia].
    exfalso. apply H. now split.
Qed.

End ParseFacts.

(** C5, amended.  [parseServerAddress] applies its cases in this order: (a)
    a bracketed address with a port, [[addr]:port] ([addr] not empty and
    without a line terminator, [port] a string of digits), gives [addr] as
    host and, when the digits write a safe integer, that integer as port;
    (b) a bracketed address, [[addr]], gives [addr] and the default port;
    (c) an address of neither form with two or more colons, inside brackets
    or not, that does not end in a closing bracket is the host as a whole,
    with the default port; (d) any other address is cut at its last colon
    when [parseInt] reads a number from what follows it (after whitespace
    and a sign, and up to the first character that is no digit): the host
    is what precedes the colon and the port that number, when it is a safe
    integer; (e) and it is the host as a whole, with the default port, when
    it has no colon or [parseInt] reads none.  Hence a [host:port] whose
    host has no colon and is not itself bracketed, and whose port is a
    string of digits, gives that host and, when the digits write a safe
    integer (in the range of ports or not), that port;
    ["[2001:db8::1]:25565"] gives ["2001:db8::1"] and [25565]; and the bare
    ["2001:db8::1"] is the host as a whole. *)
Theorem parseServerAddress_precedence :
  (forall h p d,
      h <> "" -> noLineTerminator h = true -> isDigits p = true ->
      Address.host (parseServerAddress ("[" +:+ h +:+ "]:" +:+ p) d) = h
      /\ (safeInteger (decimal p) = true ->
          parseServerAddress ("[" +:+ h +:+ "]:" +:+ p) d = mkAddress h (decimal p)))
  /\ (forall h d,
         h <> "" -> noLineTerminator h = true ->
         parseServerAddress ("[" +:+ h +:+ "]") d = mkAddress h d)
  /\ (forall a d,
         ~ BracketedWithPort a -> ~ Bracketed a ->
         2 <= countChar ":" a -> endsWith "]" a = false ->
         parseServerAddress a d = mkAddress a d)
  /\ (forall pre suf n d,
         ~ BracketedWithPort (pre +:+ ":" +:+ suf) ->
         ~ Bracketed (pre +:+ ":" +:+ suf) ->
         ~ (2 <= countChar ":" (pre +:+ ":" +:+ suf)
            /\ endsWith "]" (pre +:+ ":" +:+ suf) = false) ->
         countChar ":" suf = 0 -> parseInt10 suf = Some n ->
         Address.host (parseServerAddress (pre +:+ ":" +:+ suf) d) = pre
         /\ (safeInteger n = true ->
             parseServerAddress (pre +:+ ":" +:+ suf) d = mkAddress pre n))
  /\ (forall a d,
         ~ BracketedWithPort a -> ~ Bracketed a ->
         ~ (2 <= countChar ":" a /\ endsWith "]" a = false) ->
         (countChar ":" a = 0
          \/ exists pre suf, a = pre +:+ ":" +:+ suf /\ countChar ":" suf = 0
                             /\ parseInt10 suf = None) ->
         parseServerAddress a d = mkAddress a d)
  /\ (forall host p d,
         countChar ":" host = 0 -> ~ Bracketed host -> isDigits p = true ->
         Address.host (parseServerAddress (host +:+ ":" +:+ p) d) = host
         /\ (safeInteger (decimal p) = true ->
             parseServerAddress (host +:+ ":" +:+ p) d = mkAddress host (decimal p)))
  /\ (forall d, parseServerAddress "[2001:db8::1]:25565" d = mkAddress "2001:db8::1" 25565)
  /\ (forall d, parseServerAddress "2001:db8::1" d = mkAddress "2001:db8::1" d).
Proof.
  repeat match goal with |- _ /\ _ => split end.
  - (* a *)
    intros h p d Hne Hh Hp. unfold parseServerAddress.
    assert (E : matchIpv6WithPort ("[" +:+ h +:+ "]:" +:+ p) = Some (h, p))
      by now apply matchIpv6WithPort_spec.
    rewrite E, (parseInt10_digits p Hp). split; [reflexivity | intros _; reflexivity].
  - (* b *)
    intros h d Hne Hh. unfold parseServerAddress.
    assert (Ea : matchIpv6WithPort ("[" +:+ h +:+ "]") = None).
    { apply matchIpv6WithPort_None. intros (h' & p' & E & _ & _ & Hp').
      pose proof (endsWith_digits ("[" +:+ h' +:+ "]:") p' Hp') as F.
      rewrite !append_assoc in F. cbn [append] in F, E. rewrite <- E in F.
      pose proof (endsWith_bracketed h) as G. cbn [append] in G.
      congruence. }
    assert (Eb : matchIpv6 ("[" +:+ h +:+ "]") = Some h)
      by now apply matchIpv6_spec.
    now rewrite Ea, Eb.
  - (* c *)
    intros a d Ha Hb Hn He. unfold parseServerAddress.
    apply matchIpv6WithPort_None in Ha. apply matchIpv6_None in Hb.
    rewrite Ha, Hb, split_length, He.
    assert ((2 <? S (countChar ":" a))%nat = true) as -> by (apply Nat.ltb_lt; lia).
    reflexivity.
  - (* d *)
    intros pre suf n d Ha Hb Hc Hs Hn.
    apply matchIpv6WithPort_None in Ha. apply matchIpv6_None in Hb.
    apply many_colons_test in Hc.
    rewrite (parse_at_last_colon pre suf d Ha Hb Hc Hs), Hn.
    split; [reflexivity | intros _; reflexivity].
  - (* e *)
    intros a d Ha Hb Hc Hcases.
    apply matchIpv6WithPort_None in Ha. apply matchIpv6_None in Hb.
    apply many_colons_test in Hc.
    destruct Hcases as [H0 | (pre & suf & -> & Hs & Hn)].
    + unfold parseServerAddress. rewrite Ha, Hb, Hc.
      rewrite (lastIndexOf_absent ":" a H0). reflexivity.
    + rewrite (parse_at_last_colon pre suf d Ha Hb Hc Hs), Hn. reflexivity.
  - (* host:port *)
    intros host p d Hh Hnb Hp.
    assert (Hs : countChar ":" p = 0).
    { unfold isDigits in Hp. apply andb_true_iff in Hp as [_ Hp].
      now apply forallbS_digits_no. }
    assert (Ha : matchIpv6WithPort (host +:+ ":" +:+ p) = None).
    { apply matchIpv6WithPort_None. intros (h' & p' & E & Hne & Hlt & Hp').
      assert (Hs' : countChar ":" p' = 0).
      { unfold isDigits in Hp'. apply andb_true_iff in Hp' as [_ Hp'].
        now apply forallbS_digits_no. }
      assert (E' : host +:+ String ":" p = ("[" +:+ h' +:+ "]") +:+ String ":" p').
      { rewrite !append_assoc. exact E. }
      destruct (last_colon_unique _ _ _ _ E' Hs Hs') as [-> _].
      apply Hnb. now exists h'. }
    assert (Hb : matchIpv6 (host +:+ ":" +:+ p) = None).
    { apply matchIpv6_None.
      change (host +:+ ":" +:+ p) with (host +:+ (":" +:+ p)).
      rewrite <- append_assoc. now apply not_bracketed_ends_digit. }
    assert (Hc : (2 <? length (split ":" (host +:+ ":" +:+ p)))%nat
                 && negb (endsWith "]" (host +:+ ":" +:+ p)) = false).
    { rewrite split_length, countChar_append. cbn [append countChar].
      rewrite Hh, Hs. reflexivity. }
    rewrite (parse_at_last_colon host p d Ha Hb Hc Hs), (parseInt10_digits p Hp).
    split; [reflexivity | intros _; reflexivity].
  - intros d. reflexivity.
  - intros d. reflexivity.
Qed.

(** The precedence at work: a bracketed literal with a port, a bare literal
    (case c), and a host name with a port (case d, through the corollary). *)
Lemma parseServerAddress_precedence_witness :
  parseServerAddress "[::1]:19132" 25565 = mkAddress "::1" 19132
  /\ parseServerAddress "fe80::1:2" 25565 = mkAddress "fe80::1:2" 25565
  /\ parseServerAddress "mc.example.com:25566" 25565 = mkAddress "mc.example.com" 25566.
Proof.
  destruct parseServerAddress_precedence as (Ha & _ & Hc & _ & _ & Hhp & _).
  split; [| split].
  - exact (proj2 (Ha "::1" "19132" 25565%Z ltac:(discriminate) eq_refl eq_refl) eq_refl).
  - apply (Hc "fe80::1:2" 25565%Z).
    + apply matchIpv6WithPort_None. reflexivity.
    + apply matchIpv6_None. reflexivity.
    + simpl. lia.
    + reflexivity.
  - apply (Hhp "mc.example.com" "25566" 25565%Z).
    + reflexivity.
    + apply matchIpv6_None. reflexivity.
    + reflexivity.
    + reflexivity.
Defined.

(** C5 as stated fails in two places.  The single-colon string
    ["[lobby]:25566"] is a bracketed address with a port: the host returned
    is ["lobby"], not the text before the colon.  And ["x[::1]:25566"], of
    neither bracketed form, has one colon outside brackets and a suffix that
    is an integer, yet it is not cut at its last colon: case (c) counts the
    colons inside the brackets too. *)
Lemma parseServerAddress_not_as_stated :
  (countChar ":" "[lobby]:25566" = 1
   /\ parseServerAddress "[lobby]:25566" 25565 = mkAddress "lobby" 25566
   /\ parseServerAddress "[lobby]:25566" 25565 <> mkAddress "[lobby]" 25566)
  /\ (unbracketedColons 0 "x[::1]:25566" = 1
      /\ matchIpv6WithPort "x[::1]:25566" = None
      /\ matchIpv6 "x[::1]:25566" = None
      /\ parseInt10 "25566" = Some 25566%Z
      /\ parseServerAddress "x[::1]:25566" 25565 = mkAddress "x[::1]:25566" 25565
      /\ parseServerAddress "x[::1]:25566" 25565 <> mkAddress "x[::1]" 25566).
Proof. repeat split; discriminate. Qed.

(* ================================================================== *)
(** * [validateServerAddress] *)
(* ================================================================== *)

(** C2.  The deny list holds [/^[fd]/], which matches every address that
    starts with [f] or [d]: [validateServerAddress] rejects the public host
    name [demo.example.com], which no other pattern of the list matches, and
    any other input whose lower-case form starts with one of the two
    letters, whatever follows. *)
Theorem validateServerAddress_rejects_f_d :
  validateServerAddress "demo.example.com" = None
  /\ List.filter (fun pattern => pattern "demo.example.com") FORBIDDEN_PATTERNS
     = [matches_fd]
  /\ validateServerAddress "fun.example.com:25565" = None
  /\ (forall input,
         matches_fd (toLowerCase input) = true ->
         validateServerAddress input = None).
Proof.
  split; [reflexivity | split; [reflexivity | split; [reflexivity|]]].
  intros input H. unfold validateServerAddress, FORBIDDEN_PATTERNS.
  cbn [existsb]. rewrite H. now rewrite !orb_true_r.
Qed.

(* ================================================================== *)
(** * [normalizeApiResponse] on a payload classified offline *)
(* ================================================================== *)

Section OfflineFacts.

(** [address.split(':')] starts with the text before the first colon, and
    goes on with the split of what follows that colon. *)
Lemma split_colon_head (a : string) :
  split ":" a =
  beforeFirstColon a ::
    match snd (spanNotColon a) with
    | String _ r => split ":" r
    | "" => []
    end.
Proof.
  unfold beforeFirstColon. induction a as [|c a IH]; [reflexivity|].
  cbn [split spanNotColon]. destruct (Ascii.eqb c ":"); [reflexivity|].
  rewrite IH. destruct (spanNotColon a) as [h t]. reflexivity.
Qed.

Lemma split_colon_first (a : string) :
  nth 0 (split ":" a) "" = beforeFirstColon a.
Proof. now rewrite split_colon_head. Qed.

Lemma split_colon_second (a : string) :
  split ":" a !! 1%nat = afterFirstColon a.
Proof.
  rewrite split_colon_head. unfold afterFirstColon.
  destruct (snd (spanNotColon a)) as [|c r]; [reflexivity|].
  now rewrite split_colon_head.
Qed.

(** Only an object is classified offline, and an object is truthy. *)
Lemma classifiedOffline_truthy (data : value) :
  classifiedOffline data = Ok true -> truthy data = true.
Proof. destruct data; try discriminate; reflexivity. Qed.

Lemma classifiedOffline_not_nullish (data : value) :
  classifiedOffline data = Ok true -> nullish data = false.
Proof. destruct data; try discriminate; reflexivity. Qed.

(** The record of a payload classified offline. *)
Lemma normalize_offline (data : value) (address : string) (serverType : ServerType) :
  classifiedOffline data = Ok true ->
  normalizeApiResponse data address serverType =
  Ok (offlineStatus (VStr (beforeFirstColon address))
        (VNum (portFromAddr address serverType))
        (prop data "error" ||| prop data "description")).
Proof.
  intros Ho. pose proof (classifiedOffline_not_nullish data Ho) as Hn.
  unfold normalizeApiResponse. rewrite Hn, Ho. cbn [bind].
  rewrite split_colon_first, split_colon_second. unfold portFromAddr.
  destruct (afterFirstColon address) as [text|]; reflexivity.
Qed.

End OfflineFacts.

(** C10, amended.  For a payload classified offline, the record's host is
    the text of the fallback address before its first colon; and when
    [parseInt] reads the text between the first and the second colon
    exactly (it reads nothing, or a safe integer), the record's port is the
    number [parseInt] reads at the start of that text (after whitespace and
    a sign, in radix 16 after [0x]) when it reads one and it is not zero,
    the default port of the family otherwise ([portFromAddr]). *)
Theorem normalize_offline_host_port
        (data : value) (address : string) (serverType : ServerType) :
  classifiedOffline data = Ok true ->
  exists st,
    normalizeApiResponse data address serverType = Ok st
    /\ ServerStatus.online st = false
    /\ ServerStatus.host st = VStr (beforeFirstColon address)
    /\ ((forall text, afterFirstColon address = Some text -> readsSafely text = true) ->
        ServerStatus.port st = VNum (portFromAddr address serverType)).
Proof.
  intros Ho. eexists. split; [now apply normalize_offline|].
  repeat split.
Qed.

(** A bracketed literal as fallback address: the host is ["[2001"] and the
    port the default one, here of the Bedrock family. *)
Lemma normalize_offline_host_port_witness :
  exists st,
    normalizeApiResponse (VObj [("status", VStr "Offline")])
                         "[2001:db8::1]:25565" bedrock = Ok st
    /\ ServerStatus.online st = false
    /\ ServerStatus.host st = VStr "[2001"
    /\ ServerStatus.port st = VNum 19132.
Proof.
  destruct (normalize_offline_host_port (VObj [("status", VStr "Offline")])
              "[2001:db8::1]:25565" bedrock eq_refl) as (st & E & Ho & Hh & Hp).
  exists st. repeat split; [exact E | exact Ho | exact Hh |].
  apply Hp. intros text H. vm_compute in H. injection H as <-. reflexivity.
Defined.

(** C10 as stated fails on a port text that is numeric and zero.  The
    address ["mc.example.com:0:25570"] passes [validateServerAddress], so
    [fetchServerStatus] hands it to [normalizeApiResponse]; the text
    between its first and second colons is ["0"], [parseInt] reads [0] from
    it, and the record's port is the default [25565], not [0]. *)
Lemma normalize_offline_port_zero :
  validateServerAddress "mc.example.com:0:25570" = Some "mc.example.com:0:25570"
  /\ afterFirstColon "mc.example.com:0:25570" = Some "0"
  /\ parseInt "0" = Some 0%Z
  /\ (exists st,
         normalizeApiResponse (VObj [("online", VBool false)])
                              "mc.example.com:0:25570" java
         = Ok st
         /\ ServerStatus.port st = VNum 25565
         /\ ServerStatus.port st <> VNum 0).
Proof. repeat split. eexists. repeat split. discriminate. Qed.

(** C6, amended.  For a payload classified offline, the record has
    [players.online = null], [players.max = null], and as [error] the
    payload's [error] when that is truthy, its [description] otherwise: so
    [error] is truthy exactly when one of the two is, and it is absent when
    the payload supplies neither. *)
Theorem normalize_offline_players_error
        (data : value) (address : string) (serverType : ServerType) :
  classifiedOffline data = Ok true ->
  exists st,
    normalizeApiResponse data address serverType = Ok st
    /\ ServerStatus.online st = false
    /\ Players.online (ServerStatus.players st) = VNull
    /\ Players.max (ServerStatus.players st) = VNull
    /\ ServerStatus.error st = prop data "error" ||| prop data "description"
    /\ (truthy (ServerStatus.error st) = true <->
        truthy (prop data "error") = true \/ truthy (prop data "description") = true)
    /\ (prop data "error" = VUndefined -> prop data "description" = VUndefined ->
        ServerStatus.error st = VUndefined).
Proof.
  intros Ho. eexists. split; [now apply normalize_offline|].
  cbn [offlineStatus ServerStatus.online ServerStatus.players ServerStatus.error
       Players.online Players.max].
  repeat split.
  - unfold JSValue.or. destruct (truthy (prop data "error")) eqn:E; auto.
  - unfold JSValue.or. intros [H|H]; [now rewrite H|].
    now destruct (truthy (prop data "error")) eqn:E.
  - intros -> ->. reflexivity.
Qed.

(** A provider that reports an error text. *)
Lemma normalize_offline_players_error_witness :
  exists st,
    normalizeApiResponse (VObj [("online", VBool false); ("error", VStr "Connection refused")])
                         "mc.example.com" java = Ok st
    /\ Players.online (ServerStatus.players st) = VNull
    /\ Players.max (ServerStatus.players st) = VNull
    /\ ServerStatus.error st = VStr "Connection refused".
Proof.
  destruct (normalize_offline_players_error
              (VObj [("online", VBool false); ("error", VStr "Connection refused")])
              "mc.example.com" java eq_refl)
    as (st & E & _ & Ho & Hm & He & _).
  exists st. repeat split; assumption.
Defined.

(** C6 as stated fails on a payload with neither an [error] nor a
    [description]: the [error] of the record is absent, not a non-empty
    string. *)
Lemma normalize_offline_error_absent :
  exists st,
    normalizeApiResponse (VObj [("online", VBool false)]) "mc.example.com" java = Ok st
    /\ ServerStatus.error st = VUndefined
    /\ truthy (ServerStatus.error st) = false.
Proof. eexists. repeat split. Qed.

(* ================================================================== *)
(** * [normalizeApiResponse]: the [edition] field *)
(* ================================================================== *)

(** C7, amended.  The record is online exactly when the payload is not
    classified offline, and [edition] is absent exactly in the record of a
    payload classified offline.  In the record of a payload classified online it is
    the payload's [edition] when that is truthy, whatever the family; when
    it is not, it is ["MCPE"] for the Bedrock family and an explicit [null],
    never absent, for the Java family. *)
Theorem normalize_edition
        (data : value) (address : string) (serverType : ServerType)
        (st : ServerStatus.t) :
  normalizeApiResponse data address serverType = Ok st ->
  classifiedOffline data = Ok (negb (ServerStatus.online st))
  /\ (ServerStatus.online st = false -> ServerStatus.edition st = VUndefined)
  /\ (ServerStatus.online st = true ->
      ServerStatus.edition st <> VUndefined
      /\ (truthy (prop data "edition") = true ->
          ServerStatus.edition st = prop data "edition")
      /\ (truthy (prop data "edition") = false -> serverType = bedrock ->
          ServerStatus.edition st = VStr "MCPE")
      /\ (truthy (prop data "edition") = false -> serverType = java ->
          ServerStatus.edition st = VNull)).
Proof.
  unfold normalizeApiResponse.
  destruct (nullish data); [discriminate|].
  destruct (classifiedOffline data) as [[|]|]; cbn [bind]; [| |discriminate].
  - intros H. injection H as <-. split; [reflexivity|]. split; [reflexivity | discriminate].
  - destruct (resolveHostPort _ _ _) as [hp|]; cbn [bind]; [|discriminate].
    destruct (motdText data) as [m|]; cbn [bind]; [|discriminate].
    destruct (playerList data) as [pl|]; cbn [bind]; [|discriminate].
    destruct (playerNames pl) as [ns|]; cbn [bind]; [|discriminate].
    intros H. injection H as <-. cbn [ServerStatus.online ServerStatus.edition].
    split; [reflexivity|]. split; [discriminate|]. intros _. unfold JSValue.or.
    destruct (truthy (prop data "edition")) eqn:E.
    + repeat split; try discriminate.
      intros F. rewrite F in E. discriminate.
    + destruct serverType; repeat split; try discriminate.
Qed.

(** Both families on a payload with no [edition]. *)
Lemma normalize_edition_witness :
  (exists st, normalizeApiResponse (VObj [("players", VObj [("online", VNum 3)])])
                                   "play.example.net" bedrock = Ok st
              /\ ServerStatus.edition st = VStr "MCPE")
  /\ (exists st, normalizeApiResponse (VObj [("players", VObj [("online", VNum 3)])])
                                      "play.example.net" java = Ok st
                 /\ ServerStatus.edition st = VNull).
Proof.
  split; eexists; (split; [reflexivity|]).
  - apply (normalize_edition (VObj [("players", VObj [("online", VNum 3)])])
             "play.example.net" bedrock _ eq_refl); reflexivity.
  - apply (normalize_edition (VObj [("players", VObj [("online", VNum 3)])])
             "play.example.net" java _ eq_refl); reflexivity.
Defined.

(** C7 as stated fails under the Java family: with no [edition] in the
    payload the field is an explicit [null], and an [edition] the payload
    supplies is kept. *)
Lemma normalize_edition_java_not_absent :
  (exists st, normalizeApiResponse (VObj []) "mc.example.com" java = Ok st
              /\ ServerStatus.edition st = VNull
              /\ ServerStatus.edition st <> VUndefined)
  /\ (exists st, normalizeApiResponse (VObj [("edition", VStr "MCPE")])
                                      "mc.example.com" java = Ok st
                 /\ ServerStatus.edition st = VStr "MCPE").
Proof. split; eexists; repeat split; discriminate. Qed.

(* ================================================================== *)
(** * [normalizeApiResponse]: when it returns and when it throws *)
(* ================================================================== *)

Section TotalityFacts.

Lemma returns_Ok {A} (a : A) : returns (Ok a).
Proof. now exists a. Qed.

Lemma not_returns_Throw {A} (e : exn) : ~ returns (@Throw A e).
Proof. intros [a H]. discriminate. Qed.

Lemma returns_bind {A B} (m : result A) (k : A -> result B) :
  returns (bind m k) <-> exists a, m = Ok a /\ returns (k a).
Proof.
  destruct m as [a|e]; cbn [bind].
  - split; [intros H; now exists a | intros (a' & E & H); now injection E as ->].
  - split; [intros H; now apply not_returns_Throw in H | intros (a & E & _); discriminate].
Qed.

Lemma returns_mapR {A B} (f : A -> result B) (g : A -> bool) (l : list A) :
  (forall x, returns (f x) <-> g x = true) ->
  returns (mapR f l) <-> forallb g l = true.
Proof.
  intros Hfg. induction l as [|x l IH]; cbn [mapR forallb].
  - split; [reflexivity | intros _; apply returns_Ok].
  - rewrite returns_bind, andb_true_iff, <- IH, <- Hfg. split.
    + intros (y & E & H). apply returns_bind in H as (ys & E' & _).
      split; [now exists y | now exists ys].
    + intros [[y E] [ys E']]. exists y. split; [exact E|].
      rewrite E'. apply returns_Ok.
Qed.

Lemma value_nested_ind (P : value -> Prop) :
  P VUndefined -> P VNull -> (forall b, P (VBool b)) -> (forall n, P (VNum n)) ->
  (forall s, P (VStr s)) -> (forall l, Forall P l -> P (VArr l)) ->
  (forall props, P (VObj props)) -> forall v, P v.
Proof.
  intros Hu Hn Hb Hz Hs Ha Ho. fix IH 1.
  intros [| |b|n|s|l|props];
    [exact Hu | exact Hn | apply Hb | apply Hz | apply Hs | | apply Ho].
  apply Ha. induction l as [|x l IHl]; constructor; [apply IH | exact IHl].
Qed.

Lemma printable_array (l : list value) :
  printable (VArr l) = forallb (fun x => nullish x || printable x) l.
Proof. induction l as [|x l IH]; [reflexivity|]. cbn in *. now rewrite IH. Qed.

Lemma toString_array (l : list value) : toString (VArr l) = arrayJoin "," l.
Proof.
  unfold arrayJoin. cbn [toString]. f_equal.
  induction l as [|x l IH]; [reflexivity|].
  cbn [mapR]. unfold elemString at 1. now rewrite IH.
Qed.

Lemma returns_arrayJoin (sep : string) (l : list value) :
  Forall (fun v => returns (toString v) <-> printable v = true) l ->
  returns (arrayJoin sep l) <-> printable (VArr l) = true.
Proof.
  intros H. rewrite printable_array. unfold arrayJoin.
  rewrite returns_bind. split.
  - intros (ss & E & _). induction H as [|x l Hx Hl IH] in ss, E |- *; [reflexivity|].
    cbn [mapR forallb] in *. unfold elemString at 1 in E.
    destruct (nullish x) eqn:Nx; cbn [bind orb] in E |- *.
    + destruct (mapR elemString l) as [ss'|] eqn:E'; [|discriminate]. now apply (IH ss').
    + destruct (toString x) as [s|] eqn:Ex; cbn [bind] in E; [|discriminate].
      destruct (mapR elemString l) as [ss'|] eqn:E'; [|discriminate].
      rewrite (proj1 Hx (returns_Ok s)). now apply (IH ss').
  - intros F. assert (R : returns (mapR elemString l)).
    { induction H as [|x l Hx Hl IH]; [apply returns_Ok|].
      cbn [mapR forallb] in *. apply andb_true_iff in F as [Fx Fl].
      apply returns_bind. unfold elemString at 1.
      destruct (nullish x) eqn:Nx; cbn [orb] in Fx.
      - exists "". split; [reflexivity|]. apply returns_bind.
        destruct (IH Fl) as [ss E]. exists ss. split; [exact E | apply returns_Ok].
      - destruct (proj2 Hx Fx) as [s Es]. exists s. split; [exact Es|].
        apply returns_bind. destruct (IH Fl) as [ss E]. exists ss.
        split; [exact E | apply returns_Ok]. }
    destruct R as [ss E]. exists ss. split; [exact E | apply returns_Ok].
Qed.

(** [toString] returns exactly on the printable values. *)
Lemma returns_toString (v : value) : returns (toString v) <-> printable v = true.
Proof.
  induction v as [| |b|n|s|l IH|props] using value_nested_ind;
    try (split; [reflexivity | intros _; cbn; try destruct b; apply returns_Ok]).
  - rewrite toString_array. now apply returns_arrayJoin.
  - cbn. destruct (hasOwn "toString" props); cbn.
    + split; [intros H; now apply not_returns_Throw in H | discriminate].
    + split; [reflexivity | intros _; apply returns_Ok].
Qed.

Lemma classifiedOffline_spec (data : value) :
  classifiedOffline data =
  if statusReadable data then Ok (saysOffline data) else Throw TypeError.
Proof.
  unfold classifiedOffline, statusReadable, saysOffline.
  destruct (isFalse (prop data "online")); [reflexivity|]. cbn [orb].
  destruct (prop data "status"); reflexivity.
Qed.

Lemma returns_resolveHostPort (data : value) (h : string) (p : Z) :
  returns (resolveHostPort data h p) <-> hostReadable data = true.
Proof.
  unfold resolveHostPort, hostReadable.
  set (named := prop data "hostname" ||| prop data "host" ||| prop data "server").
  set (port := prop data "port" ??? prop data "ipv6Port").
  rewrite returns_bind.
  destruct (nullish port) eqn:Np; cbn [negb orb].
  - unfold JSValue.or at 1. fold named.
    destruct (truthy named) eqn:Tn; cbn [negb orb].
    + destruct named; cbn [isString];
        try (split; [intros (a & E & _); discriminate | discriminate]).
      split; [reflexivity|]. intros _.
      match goal with
      | |- exists a, match ?m with Some _ => _ | None => _ end = _ /\ _ =>
          destruct m as [[m1 m2]|]
      end; eexists; (split; [reflexivity | apply returns_Ok]).
    + split; [reflexivity|]. intros _.
      match goal with
      | |- exists a, match ?m with Some _ => _ | None => _ end = _ /\ _ =>
          destruct m as [[m1 m2]|]
      end; eexists; (split; [reflexivity | apply returns_Ok]).
  - split; [reflexivity|]. intros _. eexists. split; [reflexivity | apply returns_Ok].
Qed.

Lemma returns_motdText (data : value) :
  returns (motdText data) <-> motdReadable data = true.
Proof.
  unfold motdText, motdReadable.
  destruct (truthy (prop data "motd")); cbn [negb andb];
    [| split; [reflexivity | intros _; apply returns_Ok]].
  destruct (isString (prop data "motd")); cbn [negb andb];
    [split; [reflexivity | intros _; apply returns_Ok]|].
  destruct (isObject (prop data "motd"));
    [| split; [reflexivity | intros _; apply returns_Ok]].
  destruct (prop (prop data "motd") "clean" ||| prop (prop data "motd") "raw") as [| |b|n|s|l|props];
    try (split; [reflexivity | intros _; apply returns_Ok]).
  rewrite returns_bind, <- (returns_arrayJoin nl).
  - split; [intros (s & E & _); now exists s | intros (s & E)].
    exists s. split; [exact E | apply returns_Ok].
  - apply Forall_forall. intros v _. apply returns_toString.
Qed.

Lemma returns_playerNames (v : value) :
  returns (playerNames v) <-> namesReadable v = true.
Proof.
  unfold playerNames, namesReadable.
  destruct (nullish v) eqn:N; [split; [reflexivity | intros _; apply returns_Ok]|].
  cbn [orb].
  destruct v as [| |b|n|s|l|props];
    try (split; [intros H; now apply not_returns_Throw in H | discriminate]).
  rewrite returns_bind, <- (returns_mapR
    (fun p => n <- (if isString p then Ok p else get p "name") ;; Ok (n ||| VStr ""))).
  - split; [intros (ns & E & _); now exists ns | intros (ns & E)].
    exists ns. split; [exact E | apply returns_Ok].
  - intros p. unfold get. destruct (isString p); cbn [orb bind];
      [split; [reflexivity | intros _; apply returns_Ok]|].
    destruct (nullish p); cbn [bind negb];
      [split; [intros H; now apply not_returns_Throw in H | discriminate]
      | split; [reflexivity | intros _; apply returns_Ok]].
Qed.

Lemma returns_sample_names (l : list value) :
  (exists ns, mapR (fun p => get p "name") l = Ok ns
              /\ returns (playerNames (VArr ns)))
  <-> forallb (fun p => negb (nullish p) && negb (nullish (prop p "name"))) l = true.
Proof.
  setoid_rewrite returns_playerNames. unfold namesReadable. cbn [nullish orb].
  induction l as [|p l IH]; cbn [mapR forallb].
  - split; [reflexivity | intros _; now exists []].
  - unfold get at 1. destruct (nullish p) eqn:Np; cbn [bind negb andb].
    + split; [intros (ns & E & _); discriminate | discriminate].
    + rewrite andb_true_iff, <- IH. split.
      * intros (ns & E & F).
        destruct (mapR (fun p0 => get p0 "name") l) as [ns'|]; [|discriminate].
        cbn [bind] in E. injection E as <-. cbn [forallb] in F.
        apply andb_true_iff in F as [F1 F2]. split.
        -- destruct (prop p "name"); cbn in F1 |- *; congruence.
        -- now exists ns'.
      * intros [F1 (ns' & E & F2)].
        exists (prop p "name" :: ns'). rewrite E. split; [reflexivity|].
        cbn [forallb]. rewrite F2, andb_true_r.
        destruct (prop p "name"); cbn in F1 |- *; congruence.
Qed.

Lemma returns_players (data : value) :
  (exists pl, playerList data = Ok pl /\ returns (playerNames pl))
  <-> playersReadable data = true.
Proof.
  unfold playerList, playersReadable.
  set (players := prop data "players").
  destruct (truthy (prop players "list")) eqn:Ta.
  - rewrite <- returns_playerNames. split.
    + intros (pl & E & H). now injection E as <-.
    + intros H. eexists. split; [reflexivity | exact H].
  - destruct (nullish (prop players "sample")) eqn:Ns; cbn [bind truthy].
    + rewrite <- returns_playerNames. split.
      * intros (pl & E & H). now injection E as <-.
      * intros H. eexists. split; [reflexivity | exact H].
    + destruct (prop players "sample") as [| |b|n|s|l|props];
        try discriminate;
        try (cbn [bind]; split; [intros (pl & E & _); discriminate | discriminate]).
      rewrite <- returns_sample_names. split.
      * intros (pl & E & H).
        destruct (mapR (fun p => get p "name") l) as [ns|]; [|discriminate].
        cbn [bind truthy] in E. injection E as <-. now exists ns.
      * intros (ns & E & H). rewrite E. cbn [bind truthy].
        eexists. split; [reflexivity | exact H].
Qed.

End TotalityFacts.

(** C3, amended.  [normalizeApiResponse] terminates on every payload, and
    returns a record exactly on the payloads [tolerated] describes: those
    that are not [null], whose [status] is missing, [null] or a string
    unless [online] is [false], and that either say the server is offline
    or have a string as the host they name unless a port field is present,
    printable lines in an object-shaped MOTD, and a player list whose
    entries are strings or at least not [null] (for [players.sample]:
    entries that are not [null] and have a [name]).  On every other payload
    it throws a [TypeError]. *)
Theorem normalize_returns_iff
        (data : value) (address : string) (serverType : ServerType) :
  ((exists st, normalizeApiResponse data address serverType = Ok st)
   <-> tolerated data = true)
  /\ (tolerated data = false ->
      normalizeApiResponse data address serverType = Throw TypeError).
Proof.
  assert (H : returns (normalizeApiResponse data address serverType)
              <-> tolerated data = true).
  { unfold normalizeApiResponse, tolerated.
    set (h := nth 0 (split ":" address) "").
    set (p := match parseInt _ with Some _ => _ | None => _ end).
    destruct (nullish data); cbn [negb andb].
    { split; [intros F; now apply not_returns_Throw in F | discriminate]. }
    rewrite classifiedOffline_spec.
    destruct (statusReadable data); cbn [bind andb].
    2:{ split; [intros F; now apply not_returns_Throw in F | discriminate]. }
    destruct (saysOffline data); cbn [orb].
    { split; [reflexivity | intros _; apply returns_Ok]. }
    rewrite !andb_true_iff, <- (returns_resolveHostPort data h p),
      <- returns_motdText, <- returns_players.
    rewrite returns_bind. split.
    - intros (hp & Eh & F). apply returns_bind in F as (m & Em & F).
      apply returns_bind in F as (pl & Ep & F).
      apply returns_bind in F as (ns & En & _).
      repeat split; [now exists hp | now exists m |].
      exists pl. split; [exact Ep | now exists ns].
    - intros [[[hp Eh] [m Em]] (pl & Ep & [ns En])].
      exists hp. split; [exact Eh|]. rewrite Em, Ep. cbn [bind]. rewrite En.
      apply returns_Ok. }
  split; [exact H|]. intros F.
  destruct (normalizeApiResponse data address serverType) as [st|[]] eqn:E;
    [|reflexivity].
  rewrite (proj1 H (returns_Ok st)) in F. discriminate.
Qed.

(** C3 as stated fails on each shape it names: a numeric [status], a host
    name that is not a string, and a [null] entry in the player list all
    make [normalizeApiResponse] throw. *)
Lemma normalize_throws :
  normalizeApiResponse (VObj [("status", VNum 200)]) "mc.example.com" java
  = Throw TypeError
  /\ normalizeApiResponse (VObj [("hostname", VNum 5)]) "mc.example.com" java
     = Throw TypeError
  /\ normalizeApiResponse (VObj [("players", VObj [("list", VArr [VStr "Steve"; VNull])])])
                          "mc.example.com" java
     = Throw TypeError.
Proof. repeat split. Qed.

(* ================================================================== *)
(** * [Promise.allSettled] and the choice of the provider *)
(* ================================================================== *)

Section PromiseFacts.

Variable outcomes : list Settled.

#[local] Abbreviation step := (Promise.step outcomes).

Lemma settle_length (i : nat) (o : Settled) (s : Promise.slots) :
  length (Promise.settle i o s) = length s.
Proof.
  unfold Promise.settle. destruct (s !! i) as [[?|]|]; [reflexivity | | reflexivity].
  apply length_insert.
Qed.

Lemma step_length (s : Promise.slots) (i : nat) : length (step s i) = length s.
Proof.
  unfold Promise.step. destruct (outcomes !! i); [apply settle_length | reflexivity].
Qed.

(** A slot that is filled keeps its result; an empty one is filled by the
    first event of its promise. *)
Lemma foldl_step_lookup (schedule : list nat) (s : Promise.slots) (i : nat) :
  length s = length outcomes ->
  foldl step s schedule !! i =
  match s !! i with
  | Some None => if decide (i ∈ schedule) then Some (outcomes !! i) else Some None
  | other => other
  end.
Proof.
  revert s. induction schedule as [|k rest IH]; intros s Hlen.
  - cbn [foldl]. destruct (s !! i) as [[?|]|]; reflexivity.
  - cbn [foldl]. rewrite IH by now rewrite step_length.
    unfold Promise.step, Promise.settle.
    destruct (outcomes !! k) as [o|] eqn:Ek.
    + destruct (decide (i = k)) as [->|Hik].
      * destruct (s !! k) as [[o'|]|] eqn:Es; rewrite ?Es; try reflexivity.
        rewrite list_lookup_insert_eq by (apply lookup_lt_Some in Es; lia).
        rewrite Ek. destruct (decide (k ∈ k :: rest)) as [_|H]; [reflexivity|].
        exfalso. apply H. left.
      * assert (Hs : (match s !! k with
                      | Some None => <[k:=Some o]> s
                      | _ => s
                      end) !! i = s !! i).
        { destruct (s !! k) as [[?|]|]; try reflexivity.
          now apply list_lookup_insert_ne. }
        rewrite Hs. destruct (s !! i) as [[?|]|]; try reflexivity.
        destruct (decide (i ∈ rest)) as [H|H], (decide (i ∈ k :: rest)) as [H'|H'];
          try reflexivity.
        -- exfalso. apply H'. now right.
        -- exfalso. apply elem_of_cons in H' as [?|?]; auto.
    + destruct (decide (i = k)) as [->|Hik].
      * apply lookup_ge_None in Ek. rewrite <- Hlen in Ek.
        apply lookup_ge_None in Ek. now rewrite Ek.
      * destruct (s !! i) as [[?|]|]; try reflexivity.
        destruct (decide (i ∈ rest)) as [H|H], (decide (i ∈ k :: rest)) as [H'|H'];
          try reflexivity.
        -- exfalso. apply H'. now right.
        -- exfalso. apply elem_of_cons in H' as [?|?]; auto.
Qed.

Lemma run_lookup (schedule : list nat) (i : nat) :
  i < length outcomes ->
  Promise.run outcomes schedule !! i =
  if decide (i ∈ schedule) then Some (outcomes !! i) else Some None.
Proof.
  intros Hi. unfold Promise.run.
  rewrite foldl_step_lookup by apply length_replicate.
  now rewrite lookup_replicate_2.
Qed.

Lemma foldl_step_length (schedule : list nat) (s : Promise.slots) :
  length (foldl step s schedule) = length s.
Proof.
  revert s. induction schedule as [|k rest IH]; intros s; cbn [foldl]; [reflexivity|].
  now rewrite IH, step_length.
Qed.

Lemma run_length (schedule : list nat) :
  length (Promise.run outcomes schedule) = length outcomes.
Proof.
  unfold Promise.run. rewrite foldl_step_length. apply length_replicate.
Qed.

Lemma collect_all (os : list Settled) : Promise.collect (Some <$> os) = Some os.
Proof. induction os as [|o os IH]; [reflexivity|]. cbn. now rewrite IH. Qed.

Lemma collect_pending (s : Promise.slots) (i : nat) :
  s !! i = Some None -> Promise.collect s = None.
Proof.
  revert i. induction s as [|x s IH]; intros i H; [discriminate|].
  destruct i as [|i]; cbn in H.
  - injection H as ->. reflexivity.
  - cbn. destruct x; [|reflexivity]. now rewrite (IH i H).
Qed.

(** Once every promise has settled, in whatever order, the array holds the
    results in the order of the input. *)
Lemma allSettled_all (schedule : list nat) :
  (forall i, i < length outcomes -> i ∈ schedule) ->
  Promise.allSettled outcomes schedule = Some outcomes.
Proof.
  intros H. unfold Promise.allSettled.
  assert (E : Promise.run outcomes schedule = Some <$> outcomes).
  { apply list_eq. intros i. rewrite list_lookup_fmap.
    destruct (decide (i < length outcomes)) as [Hi|Hi].
    - rewrite (run_lookup schedule i Hi).
      destruct (decide (i ∈ schedule)) as [_|Hn]; [|now specialize (H i Hi)].
      destruct (lookup_lt_is_Some_2 outcomes i Hi) as [o ->]. reflexivity.
    - rewrite (lookup_ge_None_2 (Promise.run outcomes schedule))
        by (rewrite run_length; lia).
      rewrite (lookup_ge_None_2 outcomes) by lia. reflexivity. }
  rewrite E. apply collect_all.
Qed.

(** While a promise has not settled, [allSettled] has not resolved. *)
Lemma allSettled_pending (schedule : list nat) (i : nat) :
  i < length outcomes -> i ∉ schedule ->
  Promise.allSettled outcomes schedule = None.
Proof.
  intros Hi Hn. unfold Promise.allSettled. apply (collect_pending _ i).
  rewrite (run_lookup schedule i Hi). now destruct (decide (i ∈ schedule)).
Qed.

End PromiseFacts.

Section SelectionFacts.

Lemma firstFulfilled_at (outcomes : list Settled) (i : nat) (v : value) :
  outcomes !! i = Some (Fulfilled v) ->
  (forall j, j < i -> exists r, outcomes !! j = Some (Rejected r)) ->
  firstFulfilled outcomes = v.
Proof.
  revert i. induction outcomes as [|o os IH]; intros i Hi Hj; [discriminate|].
  destruct i as [|i].
  - cbn in Hi. injection Hi as ->. reflexivity.
  - destruct (Hj 0 ltac:(lia)) as [r Hr]. cbn in Hr. injection Hr as ->.
    cbn [firstFulfilled]. apply (IH i); [exact Hi|].
    intros j Hlt. apply (Hj (S j)). lia.
Qed.

Lemma firstFulfilled_none (outcomes : list Settled) :
  (forall o, o ∈ outcomes -> exists r, o = Rejected r) ->
  firstFulfilled outcomes = VUndefined.
Proof.
  induction outcomes as [|o os IH]; intros H; [reflexivity|].
  destruct (H o ltac:(left)) as [r ->]. cbn [firstFulfilled].
  apply IH. intros o' Ho'. apply H. now right.
Qed.

Lemma requests_length (w : World.t) (address : string) (apiEndpoints : list string) :
  length (requests w address apiEndpoints) = length apiEndpoints.
Proof. apply length_imap. Qed.

(** [fetchServerStatus] on a valid address, once every request has settled:
    it goes on with the results in the order the endpoints are declared. *)
Lemma fetchServerStatus_settled
      (w : World.t) (server address : string) (serverType : ServerType)
      (config : option Config.t) :
  validateServerAddress server = Some address -> address <> "" ->
  (forall i, i < length (apiEndpointsOf config serverType) -> i ∈ World.schedule w) ->
  fetchServerStatus w server serverType config =
  conclude w address serverType
    (requests w address (apiEndpointsOf config serverType)).
Proof.
  intros Hv Hne Hall. unfold fetchServerStatus. rewrite Hv.
  apply isEmpty_false in Hne. rewrite Hne.
  rewrite allSettled_all; [reflexivity|].
  intros i Hi. apply Hall. now rewrite requests_length in Hi.
Qed.

(** What lines 137 to 144 make of a first payload that is classified
    offline: the record [normalizeApiResponse] builds is left aside. *)
Lemma conclude_offline
      (w : World.t) (address : string) (serverType : ServerType)
      (apiResults : list Settled) :
  classifiedOffline (firstFulfilled apiResults) = Ok true ->
  conclude w address serverType apiResults =
  Some (Ok (lookupFailed (parseServerAddress address (defaultPortOf serverType)))).
Proof.
  intros Ho. pose proof (classifiedOffline_truthy _ Ho) as Ht.
  unfold conclude. rewrite Ht.
  now rewrite normalize_offline.
Qed.

Lemma settledOf_fulfilled (r : HttpResult) (v : value) :
  settledOf r = Fulfilled v <-> exists status, r = Response true status (Some v).
Proof.
  split.
  - destruct r as [|[|] status [j|]]; try discriminate.
    intros H. injection H as ->. now exists status.
  - intros [status ->]. reflexivity.
Qed.

Lemma schedule_complete (n : nat) (schedule : list nat) :
  schedule ≡ₚ seq 0 n -> forall i, i < n -> i ∈ schedule.
Proof. intros Hp i Hi. rewrite Hp. apply elem_of_seq. lia. Qed.

Lemma ServerType_eqb_refl (t : ServerType) : ServerType_eqb t t = true.
Proof. now destruct t. Qed.

Lemma requests_lookup (w : World.t) (address : string) (apiEndpoints : list string)
      (i : nat) (apiUrl : string) :
  apiEndpoints !! i = Some apiUrl ->
  requests w address apiEndpoints !! i
  = Some (settledOf (World.fetch w i (replace "${address}" address apiUrl))).
Proof. intros H. unfold requests. now rewrite list_lookup_imap, H. Qed.

Lemma map_lookup_fmap {A B} (f : A -> B) (l : list A) (i : nat) :
  map f l !! i = f <$> l !! i.
Proof.
  revert i. induction l as [|x l IH]; intros [|i]; try reflexivity. apply IH.
Qed.

(** The endpoints asked are the configured ones of the family, in the order
    of the configuration. *)
Lemma apiEndpointsOf_filtered
      (c : Config.t) (apis : list Api.t) (serverType : ServerType) :
  Config.serverApis c = Some apis ->
  apiEndpointsOf (Some c) serverType
  = map Api.url (List.filter (fun api => ServerType_eqb (Api.type api) serverType) apis).
Proof. intros H. unfold apiEndpointsOf. now rewrite H. Qed.

(** The payload chosen among the settled requests: that of the first
    endpoint of the family, in the order of the configuration, whose
    request fulfilled. *)
Lemma requests_first_fulfilled
      (w : World.t) (address : string) (pre post : list Api.t) (api : Api.t)
      (status : Z) (v : value) :
  (forall j a, pre !! j = Some a ->
               exists r, settledOf (World.fetch w j (replace "${address}" address (Api.url a)))
                         = Rejected r) ->
  World.fetch w (length pre) (replace "${address}" address (Api.url api))
  = Response true status (Some v) ->
  firstFulfilled (requests w address (map Api.url (pre ++ api :: post))) = v.
Proof.
  intros Hpre Hf. apply (firstFulfilled_at _ (length pre)).
  - rewrite (requests_lookup w address _ (length pre) (Api.url api)).
    + now rewrite Hf.
    + rewrite map_lookup_fmap, lookup_app_r by lia. now rewrite Nat.sub_diag.
  - intros j Hj.
    destruct (lookup_lt_is_Some_2 pre j Hj) as [a Ha].
    destruct (Hpre j a Ha) as [r Hr]. exists r.
    rewrite (requests_lookup w address _ j (Api.url a)).
    + now rewrite Hr.
    + rewrite map_lookup_fmap, lookup_app_l by lia. now rewrite Ha.
Qed.

Lemma requests_all_rejected
      (w : World.t) (address : string) (apiEndpoints : list string) :
  (forall j apiUrl, apiEndpoints !! j = Some apiUrl ->
                    exists r, settledOf (World.fetch w j (replace "${address}" address apiUrl))
                              = Rejected r) ->
  firstFulfilled (requests w address apiEndpoints) = VUndefined.
Proof.
  intros H. apply firstFulfilled_none. intros o Ho. unfold requests in Ho.
  apply elem_of_lookup_imap in Ho as (i & url & -> & Hi). exact (H i url Hi).
Qed.

End SelectionFacts.

(** C4.  A request fulfils exactly when [fetch] answers with an [ok]
    response whose body parses.  [Promise.allSettled] resolves once every
    request has settled, and not before; in whatever order they settle, its
    array holds the results in the order of the endpoints.  So, for an
    accepted address: [fetchServerStatus] is pending while a request has
    not settled; once all have, in whatever order, it goes on with the
    payload of the first endpoint of the family, in the order of the
    configuration, whose request fulfilled, the requests of the endpoints
    before it having rejected: a falsy payload or one that does not
    normalise to an online record gives the record of a failed lookup, a
    payload that makes [normalizeApiResponse] throw rejects, and an online
    record is probed and returned with its latency; when every request
    rejected, it resolves with the record of a failed lookup.  With two
    endpoints of which the first rejects and the second fulfils, the second
    one's payload is the one normalised, probed and returned, whichever
    settled first. *)
Theorem allSettled_selects_first_fulfilled :
  (forall r v,
      settledOf r = Fulfilled v <-> exists status, r = Response true status (Some v))
  /\ (forall outcomes schedule,
      schedule ≡ₚ seq 0 (length outcomes) ->
      Promise.allSettled outcomes schedule = Some outcomes)
  /\ (forall outcomes schedule i,
         i < length outcomes -> i ∉ schedule ->
         Promise.allSettled outcomes schedule = None)
  /\ (forall outcomes i v,
         outcomes !! i = Some (Fulfilled v) ->
         (forall j, j < i -> exists r, outcomes !! j = Some (Rejected r)) ->
         firstFulfilled outcomes = v)
  /\ (forall outcomes,
         (forall o, o ∈ outcomes -> exists r, o = Rejected r) ->
         firstFulfilled outcomes = VUndefined)
  /\ (forall w server address serverType config i,
         validateServerAddress server = Some address -> address <> "" ->
         i < length (apiEndpointsOf config serverType) -> i ∉ World.schedule w ->
         fetchServerStatus w server serverType config = None)
  /\ (forall w server address serverType c apis pre api post status v,
         validateServerAddress server = Some address -> address <> "" ->
         Config.serverApis c = Some apis ->
         List.filter (fun a => ServerType_eqb (Api.type a) serverType) apis
         = pre ++ api :: post ->
         World.schedule w ≡ₚ seq 0 (length (pre ++ api :: post)) ->
         (forall j a, pre !! j = Some a ->
            exists r,
              settledOf (World.fetch w j (replace "${address}" address (Api.url a)))
              = Rejected r) ->
         World.fetch w (length pre) (replace "${address}" address (Api.url api))
         = Response true status (Some v) ->
         fetchServerStatus w server serverType (Some c) =
         if truthy v then
           match normalizeApiResponse v address serverType with
           | Throw e => Some (Throw e)
           | Ok st =>
               if ServerStatus.online st then
                 match World.pingServer w (ServerStatus.host st) (ServerStatus.port st)
                         serverType with
                 | None => None
                 | Some probe => Some (p <- probe ;; Ok (ServerStatus.set_ping p st))
                 end
               else Some (Ok (lookupFailed
                                (parseServerAddress address (defaultPortOf serverType))))
           end
         else Some (Ok (lookupFailed
                          (parseServerAddress address (defaultPortOf serverType)))))
  /\ (forall w server address serverType config,
         validateServerAddress server = Some address -> address <> "" ->
         World.schedule w ≡ₚ seq 0 (length (apiEndpointsOf config serverType)) ->
         (forall j apiUrl, apiEndpointsOf config serverType !! j = Some apiUrl ->
            exists r,
              settledOf (World.fetch w j (replace "${address}" address apiUrl))
              = Rejected r) ->
         fetchServerStatus w server serverType config =
         Some (Ok (lookupFailed (parseServerAddress address (defaultPortOf serverType)))))
  /\ (forall w server address serverType template url1 url2 r status v st probe,
         validateServerAddress server = Some address -> address <> "" ->
         World.schedule w ≡ₚ [0; 1] ->
         settledOf (World.fetch w 0 (replace "${address}" address url1)) = Rejected r ->
         World.fetch w 1 (replace "${address}" address url2)
         = Response true status (Some v) ->
         truthy v = true ->
         normalizeApiResponse v address serverType = Ok st ->
         ServerStatus.online st = true ->
         World.pingServer w (ServerStatus.host st) (ServerStatus.port st) serverType
         = Some probe ->
         fetchServerStatus w server serverType
           (Some (Config.mk (Some [Api.mk serverType url1; Api.mk serverType url2])
                    template))
         = Some (p <- probe ;; Ok (ServerStatus.set_ping p st)))
  /\ (forall r v schedule,
         schedule ≡ₚ [0; 1] ->
         firstFulfilled <$> Promise.allSettled [Rejected r; Fulfilled v] schedule
         = Some v).
Proof.
  split; [exact settledOf_fulfilled|].
  repeat match goal with |- _ /\ _ => split end.
  - intros outcomes schedule Hp. apply allSettled_all.
    now apply schedule_complete.
  - intros outcomes schedule i. apply allSettled_pending.
  - apply firstFulfilled_at.
  - apply firstFulfilled_none.
  - intros w server address serverType config i Hv Hne Hi Hn.
    unfold fetchServerStatus. rewrite Hv. apply isEmpty_false in Hne. rewrite Hne.
    rewrite (allSettled_pending _ _ i); [reflexivity | | exact Hn].
    now rewrite requests_length.
  - intros w server address serverType c apis pre api post status v
           Hv Hne Hc Hf Hp Hpre Hapi.
    rewrite (fetchServerStatus_settled w server address serverType (Some c) Hv Hne).
    + unfold conclude.
      rewrite (apiEndpointsOf_filtered c apis serverType Hc), Hf.
      now rewrite (requests_first_fulfilled w address pre post api status v Hpre Hapi).
    + rewrite (apiEndpointsOf_filtered c apis serverType Hc), Hf, length_map.
      now apply schedule_complete.
  - intros w server address serverType config Hv Hne Hp Hrej.
    rewrite (fetchServerStatus_settled w server address serverType config Hv Hne)
      by now apply schedule_complete.
    unfold conclude. now rewrite (requests_all_rejected w address _ Hrej).
  - intros w server address serverType template url1 url2 r status v st probe
           Hv Hne Hp H0 H1 Ht Hn Ho Hping.
    rewrite (fetchServerStatus_settled w server address serverType _ Hv Hne).
    + unfold conclude.
      unfold apiEndpointsOf. cbn [Config.serverApis List.filter Api.type].
      rewrite ServerType_eqb_refl.
      change (map Api.url [Api.mk serverType url1; Api.mk serverType url2])
        with (map Api.url ([Api.mk serverType url1] ++ Api.mk serverType url2 :: [])).
      rewrite (requests_first_fulfilled w address [Api.mk serverType url1] []
                 (Api.mk serverType url2) status v).
      * now rewrite Ht, Hn, Ho, Hping.
      * intros [|j] a Ha; [|discriminate]. injection Ha as <-. now exists r.
      * exact H1.
    + unfold apiEndpointsOf. cbn [Config.serverApis List.filter Api.type].
      rewrite ServerType_eqb_refl. cbn [map length].
      intros i Hi. rewrite Hp. destruct i as [|[|i]]; [repeat constructor.. | lia].
  - intros r v schedule Hp.
    rewrite (allSettled_all [Rejected r; Fulfilled v] schedule);
      [reflexivity | now apply schedule_complete].
Qed.

(** The second request settles first; the first one rejects with an HTTP
    error. *)
Lemma allSettled_selects_first_fulfilled_witness :
  exists st,
    normalizeApiResponse (VObj [("online", VBool true)]) "mc.example.com" java = Ok st
    /\ fetchServerStatus
         (World.mk (fun i _ => match i with
                               | 0 => Response false 503 None
                               | _ => Response true 200 (Some (VObj [("online", VBool true)]))
                               end)
                   [1; 0] (fun _ _ _ => Some (Ok (VNum 42))))
         "mc.example.com" java
         (Some (Config.mk (Some [Api.mk java "https://one.example/${address}";
                                 Api.mk java "https://two.example/${address}"]) ""))
       = Some (Ok (ServerStatus.set_ping (VNum 42) st)).
Proof.
  destruct allSettled_selects_first_fulfilled
    as (_ & _ & _ & _ & _ & _ & _ & _ & Htwo & _).
  eexists. split; [reflexivity|].
  apply (Htwo (World.mk (fun i _ => match i with
                                    | 0 => Response false 503 None
                                    | _ => Response true 200
                                             (Some (VObj [("online", VBool true)]))
                                    end)
                        [1; 0] (fun _ _ _ => Some (Ok (VNum 42))))
              "mc.example.com" "mc.example.com" java ""
              "https://one.example/${address}" "https://two.example/${address}"
              "API 请求失败: 503" 200%Z (VObj [("online", VBool true)]) _ (Ok (VNum 42)));
    try reflexivity.
  - discriminate.
  - apply perm_swap.
Defined.

(** C1, amended.  When every request has settled and the first payload that
    fulfilled is classified offline, [fetchServerStatus] resolves with the
    generic record of a failed lookup: offline, the host and port parsed
    from the address, and the fixed message ['查询失败'] as [error].  The
    record [normalizeApiResponse] builds from the payload, which holds the
    provider's own text, is tested for [online] and not returned. *)
Theorem fetchServerStatus_offline_payload
        (w : World.t) (server address : string) (serverType : ServerType)
        (config : option Config.t) :
  validateServerAddress server = Some address -> address <> "" ->
  World.schedule w ≡ₚ seq 0 (length (apiEndpointsOf config serverType)) ->
  classifiedOffline (firstFulfilled (requests w address (apiEndpointsOf config serverType)))
  = Ok true ->
  exists st,
    fetchServerStatus w server serverType config = Some (Ok st)
    /\ ServerStatus.online st = false
    /\ ServerStatus.host st
       = VStr (Address.host (parseServerAddress address (defaultPortOf serverType)))
    /\ ServerStatus.port st
       = VNum (Address.port (parseServerAddress address (defaultPortOf serverType)))
    /\ ServerStatus.error st = VStr MSG_LOOKUP_FAILED.
Proof.
  intros Hv Hne Hp Ho.
  exists (lookupFailed (parseServerAddress address (defaultPortOf serverType))).
  split; [|repeat split].
  rewrite (fetchServerStatus_settled w server address serverType config Hv Hne)
    by now apply schedule_complete.
  now rewrite conclude_offline.
Qed.

(** A Bedrock query whose second endpoint answers with a status of
    ["offline"], the first one failing with an HTTP error. *)
Lemma fetchServerStatus_offline_payload_witness :
  exists st,
    fetchServerStatus
      (World.mk (fun i _ =>
                   match i with
                   | 0 => Response false 502 None
                   | _ => Response true 200
                            (Some (VObj [("status", VStr "offline");
                                         ("description", VStr "Timed out")]))
                   end)
                [1; 0] (fun _ _ _ => Some (Ok (VNum 42))))
      "play.example.net:19133" bedrock
      (Some (Config.mk (Some [Api.mk bedrock "https://one.example/${address}";
                              Api.mk java "https://two.example/${address}";
                              Api.mk bedrock "https://three.example/${address}"]) ""))
    = Some (Ok st)
    /\ ServerStatus.online st = false
    /\ ServerStatus.host st = VStr "play.example.net"
    /\ ServerStatus.port st = VNum 19133
    /\ ServerStatus.error st = VStr MSG_LOOKUP_FAILED.
Proof.
  apply (fetchServerStatus_offline_payload) with (address := "play.example.net:19133").
  - reflexivity.
  - discriminate.
  - apply perm_swap.
  - reflexivity.
Defined.

(** C1 as stated fails: a provider answers [{"online": false, "error":
    "Server not found"}]; [normalizeApiResponse] puts that text in the
    record it builds, and [fetchServerStatus] resolves with the generic
    message instead. *)
Lemma fetchServerStatus_drops_provider_error :
  let payload := VObj [("online", VBool false); ("error", VStr "Server not found")] in
  let w := World.mk (fun _ _ => Response true 200 (Some payload)) [0]
                    (fun _ _ _ => Some (Ok (VNum 42))) in
  let config := Config.mk (Some [Api.mk java "https://api.example/v1/${address}"]) "" in
  normalizeApiResponse payload "mc.example.com" java
  = Ok (offlineStatus (VStr "mc.example.com") (VNum 25565) (VStr "Server not found"))
  /\ fetchServerStatus w "mc.example.com" java (Some config)
     = Some (Ok (offlineStatus (VStr "mc.example.com") (VNum 25565)
                   (VStr MSG_LOOKUP_FAILED)))
  /\ VStr MSG_LOOKUP_FAILED <> VStr "Server not found".
Proof. cbv zeta. repeat split. discriminate. Qed.

(* ================================================================== *)
(** * Facts about the scan of a template line *)
(* ================================================================== *)

Section ScanFacts.

Lemma span_stop (p : ascii -> bool) (x : string) (c : ascii) (b : string) :
  forallbS p x = true -> p c = false ->
  span p (x +:+ String c b) = (x, String c b).
Proof.
  intros Hx Hc. induction x as [|y x IH]; cbn [append span].
  - now rewrite Hc.
  - cbn in Hx. apply andb_true_iff in Hx as [Hy Hx].
    now rewrite Hy, (IH Hx).
Qed.

Lemma matchPlaceholder_not_brace (c : ascii) (r : string) :
  c <> "{"%char -> matchPlaceholder (String c r) = None.
Proof.
  intros Hc. unfold matchPlaceholder.
  destruct c as [[] [] [] [] [] [] [] []]; try reflexivity; congruence.
Qed.

(** A text with no opening brace holds no placeholder. *)
Lemma scanFrom_literal (a s : string) :
  countChar "{" a = 0 -> scanFrom 0 (a +:+ s) = literal a ++ scanFrom 0 s.
Proof.
  induction a as [|c a IH]; [reflexivity|]. cbn [countChar]. intros H.
  destruct (Ascii.eqb_spec c "{") as [->|Hc]; [discriminate|].
  cbn [append scanFrom literal].
  rewrite (matchPlaceholder_not_brace c _ Hc), IH by (simpl in H; lia).
  reflexivity.
Qed.

Lemma tokens_literal (a : string) : countChar "{" a = 0 -> tokens a = literal a.
Proof.
  intros H. unfold tokens. rewrite <- (append_empty_r a) at 1.
  rewrite (scanFrom_literal a "" H). cbn. apply app_nil_r.
Qed.

(** The scan resumes after the text it was told to pass. *)
Lemma scanFrom_skip (x s : string) :
  scanFrom (String.length x) (x +:+ s) = scanFrom 0 s.
Proof.
  induction x as [|c x IH]; [reflexivity|]. cbn [append String.length].
  destruct s as [|d s']; cbn [scanFrom]; exact IH.
Qed.

(** [{name}] is a match of the placeholder expression. *)
Lemma matchPlaceholder_plain (name b : string) :
  isName name = true ->
  matchPlaceholder ("{" +:+ name +:+ "}" +:+ b)
  = Some (Placeholder.mk name None (String.length name + 2)).
Proof.
  unfold isName. intros H. apply andb_true_iff in H as [Hne Hn].
  cbn [append]. unfold matchPlaceholder.
  rewrite (span_stop isNameChar name "}" b Hn eq_refl).
  apply negb_true_iff in Hne. now rewrite Hne.
Qed.

(** A line [a{name}b] whose [a] has no opening brace is cut into [a], the
    placeholder, and the tokens of [b]. *)
Lemma tokens_plain (a name b : string) :
  countChar "{" a = 0 -> isName name = true ->
  tokens (a +:+ "{" +:+ name +:+ "}" +:+ b)
  = literal a ++ Hole (Placeholder.mk name None (String.length name + 2)) :: tokens b.
Proof.
  intros Ha Hn. unfold tokens. rewrite (scanFrom_literal a _ Ha). f_equal.
  pose proof (matchPlaceholder_plain name b Hn) as M.
  cbn [append] in M |- *. cbn [scanFrom]. rewrite M.
  cbn [Placeholder.width]. f_equal.
  replace (String.length name + 2 - 1) with (String.length (name +:+ "}"))
    by (rewrite append_length; simpl; lia).
  rewrite <- (scanFrom_skip (name +:+ "}") b), append_assoc. reflexivity.
Qed.


Lemma replaceTokens_literal (f : Placeholder.t -> result string) (a : string) :
  replaceTokens f (literal a) = Ok a.
Proof.
  induction a as [|c a IH]; [reflexivity|]. cbn [literal replaceTokens].
  now rewrite IH.
Qed.

Lemma holes_literal (a : string) : holes (literal a) = [].
Proof. induction a as [|c a IH]; [reflexivity | exact IH]. Qed.

End ScanFacts.

(* ================================================================== *)
(** * [formatServerStatus]: the rule of a line *)
(* ================================================================== *)

Section RenderFacts.

Variable h_image : string -> string.
Variable st : ServerStatus.t.

#[local] Abbreviation isEmptyValue := (resolvesEmpty h_image st).

Lemma mapR_app {A B} (f : A -> result B) (l1 l2 : list A) :
  mapR f (l1 ++ l2) = (ys <- mapR f l1 ;; zs <- mapR f l2 ;; Ok (ys ++ zs)).
Proof.
  induction l1 as [|x l1 IH]; cbn [app mapR bind].
  - destruct (mapR f l2); reflexivity.
  - destruct (f x) as [y|]; cbn [bind]; [|reflexivity].
    rewrite IH. destruct (mapR f l1) as [ys|]; cbn [bind]; [|reflexivity].
    destruct (mapR f l2); reflexivity.
Qed.

Lemma everyR_all {A} (f : A -> result bool) (l : list A) :
  (forall x, x ∈ l -> f x = Ok true) -> everyR f l = Ok true.
Proof.
  induction l as [|x l IH]; intros H; [reflexivity|]. cbn [everyR].
  rewrite (H x) by left. cbn [bind]. apply IH. intros y Hy. apply H. now right.
Qed.

Lemma everyR_true_inv {A} (f : A -> result bool) (l : list A) :
  everyR f l = Ok true -> forall x, x ∈ l -> f x = Ok true.
Proof.
  induction l as [|x l IH]; intros H y Hy; [now apply not_elem_of_nil in Hy|].
  cbn [everyR] in H. destruct (f x) as [[|]|] eqn:E; cbn [bind] in H; try discriminate.
  apply elem_of_cons in Hy as [->|Hy]; [exact E | now apply IH].
Qed.

(** A line all of whose placeholders resolve to nothing is rendered as the
    empty line. *)
Lemma renderLine_dropped (line : string) :
  placeholders line <> [] ->
  (forall p, p ∈ placeholders line ->
             exists v, valueOf h_image st p = Ok v /\ truthy v = false) ->
  renderLine h_image st line = Ok "".
Proof.
  intros Hne Hall. unfold renderLine.
  destruct (placeholders line) as [|p ps] eqn:E; [congruence|].
  cbn [length Nat.ltb Nat.leb].
  rewrite everyR_all; [reflexivity|].
  intros q Hq. destruct (Hall q Hq) as (v & Ev & Tv).
  unfold resolvesEmpty. rewrite Ev. cbn [bind]. now rewrite Tv.
Qed.

Lemma assemble_drop (ys zs : list string) (x : string) :
  isBlank x = true -> assemble (ys ++ x :: zs) = assemble (ys ++ zs).
Proof.
  intros Hx. unfold assemble. rewrite !List.filter_app. cbn [List.filter].
  unfold isBlank in Hx. now rewrite Hx.
Qed.

(** A line that renders blank leaves nothing in the output. *)
Lemma renderLines_drop (pre post : list string) (line x : string) :
  renderLine h_image st line = Ok x -> isBlank x = true ->
  renderLines h_image st (pre ++ line :: post) = renderLines h_image st (pre ++ post).
Proof.
  intros Hl Hx. unfold renderLines. rewrite !mapR_app. cbn [mapR]. rewrite Hl.
  destruct (mapR (renderLine h_image st) pre) as [ys|]; cbn [bind]; [|reflexivity].
  destruct (mapR (renderLine h_image st) post) as [zs|]; cbn [bind]; [|reflexivity].
  now rewrite assemble_drop.
Qed.

Lemma substitute_spec (p : Placeholder.t) (v : value) :
  valueOf h_image st p = Ok v ->
  substitute h_image st p = if nullish v then Ok "" else toString v.
Proof.
  intros E. unfold substitute. rewrite E. cbn [bind]. unfold JSValue.coalesce.
  now destruct (nullish v).
Qed.

Lemma substitute_empty_value (p : Placeholder.t) (v : value) :
  valueOf h_image st p = Ok v -> truthy v = false ->
  returns (substitute h_image st p).
Proof.
  intros E T. rewrite (substitute_spec p v E).
  destruct v as [| |[|]|n|s|l|props]; cbn in *; try discriminate; apply returns_Ok.
Qed.

(** When the test of the placeholders throws, so does the substitution:
    it reads the same values in the same order. *)
Lemma replaceTokens_throws (ts : list token) (e : exn) :
  everyR isEmptyValue (holes ts) = Throw e ->
  replaceTokens (substitute h_image st) ts = Throw e.
Proof.
  induction ts as [|[c|p] ts IH]; intros H.
  - discriminate.
  - change (holes (Lit c :: ts)) with (holes ts) in H.
    cbn [replaceTokens]. rewrite (IH H). reflexivity.
  - change (holes (Hole p :: ts)) with (p :: holes ts) in H.
    cbn [everyR] in H. unfold resolvesEmpty at 1 in H.
    cbn [replaceTokens].
    destruct (valueOf h_image st p) as [v|e'] eqn:E; cbn [bind] in H.
    + destruct (truthy v) eqn:T; cbn [negb] in H; [discriminate|].
      destruct (substitute_empty_value p v E T) as [s ->]. cbn [bind].
      rewrite (IH H). reflexivity.
    + unfold substitute. rewrite E. cbn [bind]. destruct e, e'. reflexivity.
Qed.

(** Any other line has each of its placeholders substituted. *)
Lemma renderLine_substituted (line : string) :
  (placeholders line = []
   \/ exists p v, p ∈ placeholders line /\ valueOf h_image st p = Ok v
                  /\ truthy v = true) ->
  renderLine h_image st line = replacePlaceholders (substitute h_image st) line.
Proof.
  intros H. unfold renderLine.
  destruct H as [-> | (p & v & Hp & Ev & Tv)]; [reflexivity|].
  destruct (placeholders line) as [|q qs] eqn:E; [now apply not_elem_of_nil in Hp|].
  cbn [length Nat.ltb Nat.leb].
  destruct (everyR isEmptyValue (q :: qs)) as [[|]|e] eqn:Ee; cbn [bind].
  - pose proof (everyR_true_inv _ _ Ee p Hp) as F.
    unfold resolvesEmpty in F. rewrite Ev in F. cbn [bind] in F.
    rewrite Tv in F. discriminate.
  - reflexivity.
  - unfold replacePlaceholders. symmetry. apply replaceTokens_throws.
    unfold placeholders in E. now rewrite E.
Qed.

End RenderFacts.

Section RenderRule.

Variable h_image : string -> string.
Variable st : ServerStatus.t.



End RenderRule.

(* ================================================================== *)
(** * Facts about blank lines, [collapseBlankLines] and [trim] *)
(* ================================================================== *)

Section BlankFacts.

Lemma countLF_append (a s : string) :
  endsWith LF a = false -> a <> "" -> countLF (a +:+ s) = countLF a.
Proof.
  induction a as [|c a IH]; [congruence|]. intros He _.
  cbn [append countLF]. destruct (Ascii.eqb_spec c LF) as [->|Hc]; [|reflexivity].
  f_equal. destruct a as [|d a']; [discriminate|]. apply IH; [exact He | discriminate].
Qed.

Lemma countLF_lineFeeds (n : nat) (b : string) :
  countLF b = 0 -> countLF (lineFeeds n +:+ b) = n.
Proof. intros Hb. induction n as [|n IH]; [exact Hb|]. cbn. now rewrite IH. Qed.

Lemma collapseFrom_skip (x s : string) :
  collapseFrom (String.length x) (x +:+ s) = collapseFrom 0 s.
Proof.
  induction x as [|c x IH]; [reflexivity|]. cbn [append String.length].
  destruct s as [|d s']; cbn [collapseFrom]; exact IH.
Qed.

Lemma lineFeeds_length (n : nat) : String.length (lineFeeds n) = n.
Proof. induction n as [|n IH]; [reflexivity|]. cbn. now rewrite IH. Qed.

(** A run of line feeds before a text that does not start with one. *)
Lemma collapse_run (n : nat) (b : string) :
  countLF b = 0 ->
  collapseBlankLines (lineFeeds n +:+ b) =
  (if (3 <=? n)%nat then nl +:+ nl else lineFeeds n) +:+ collapseBlankLines b.
Proof.
  intros Hb. unfold collapseBlankLines.
  destruct n as [|[|[|n]]].
  - reflexivity.
  - cbn [lineFeeds append collapseFrom]. cbn [countLF]. rewrite Ascii.eqb_refl, Hb.
    reflexivity.
  - cbn [lineFeeds append]. cbn [collapseFrom countLF].
    rewrite !Ascii.eqb_refl, Hb. cbn. destruct b as [|c b']; [reflexivity|].
    cbn [collapseFrom]. cbn [countLF] in Hb |- *.
    destruct (Ascii.eqb c LF); [discriminate | reflexivity].
  - change (lineFeeds (S (S (S n))) +:+ b) with (String LF (lineFeeds (S (S n)) +:+ b)).
    cbn [collapseFrom].
    change (String LF (lineFeeds (S (S n)) +:+ b)) with (lineFeeds (S (S (S n))) +:+ b).
    rewrite (countLF_lineFeeds _ b Hb). cbn [Nat.leb].
    replace (S (S (S n)) - 1) with (String.length (lineFeeds (S (S n))))
      by (rewrite lineFeeds_length; lia).
    now rewrite collapseFrom_skip.
Qed.

Lemma collapseFrom_append (a s : string) (k : nat) :
  endsWith LF a = false -> k <= countLF a ->
  collapseFrom k (a +:+ s) = collapseFrom k a +:+ collapseFrom 0 s.
Proof.
  revert k. induction a as [|c a IH]; intros k He Hk.
  - cbn in Hk. replace k with 0 by lia. reflexivity.
  - assert (Ha : endsWith LF a = false).
    { destruct a as [|d a']; [reflexivity | exact He]. }
    destruct k as [|k].
    + cbn [append collapseFrom].
      change (String c (a +:+ s)) with (String c a +:+ s).
      rewrite (countLF_append (String c a) s He) by discriminate.
      destruct (3 <=? countLF (String c a))%nat eqn:E3.
      * rewrite IH; [now rewrite !append_assoc | exact Ha |].
        cbn [countLF] in *. destruct (Ascii.eqb c LF); [lia | discriminate].
      * rewrite IH; [reflexivity | exact Ha | lia].
    + cbn [append collapseFrom]. apply IH; [exact Ha|].
      cbn [countLF] in Hk. destruct (Ascii.eqb c LF); lia.
Qed.

(** Each run of line feeds is collapsed on its own: three or more become
    two, fewer are kept. *)
Lemma collapse_around_run (a b : string) (n : nat) :
  endsWith LF a = false -> countLF b = 0 ->
  collapseBlankLines (a +:+ lineFeeds n +:+ b) =
  collapseBlankLines a
  +:+ (if (3 <=? n)%nat then nl +:+ nl else lineFeeds n)
  +:+ collapseBlankLines b.
Proof.
  intros Ha Hb. unfold collapseBlankLines at 1.
  rewrite collapseFrom_append by (exact Ha || lia).
  fold (collapseBlankLines a). fold (collapseBlankLines (lineFeeds n +:+ b)).
  now rewrite collapse_run.
Qed.

(** What [trimStart] leaves does not start with whitespace. *)
Lemma trimStart_clean (s : string) : startsClean (trimStart s) = true.
Proof. unfold startsClean. now rewrite trimStart_width. Qed.

(** A blank line holds no placeholder. *)
Lemma isBlank_no_brace (line : string) :
  isBlank line = true -> countChar "{" line = 0.
Proof.
  unfold isBlank. intros H. apply isEmpty_true, trim_empty_iff in H.
  apply blank_countChar; [reflexivity | apply Nat.ltb_lt; reflexivity | exact H].
Qed.

End BlankFacts.

(* ================================================================== *)
(** * [formatServerStatus]: the claims about the template *)
(* ================================================================== *)



(* ================================================================== *)
(** * Facts about [toLowerCase] *)
(* ================================================================== *)

Section CaseFacts.

Lemma lowerChar_idem (c : ascii) : lowerChar (lowerChar c) = lowerChar c.
Proof. destruct c as [[] [] [] [] [] [] [] []]; reflexivity. Qed.

Lemma lowerChar_colon (c : ascii) : Ascii.eqb (lowerChar c) ":" = Ascii.eqb c ":".
Proof. destruct c as [[] [] [] [] [] [] [] []]; reflexivity. Qed.

Lemma lowerChar_space (c : ascii) :
  isAsciiWhiteSpace (lowerChar c) = isAsciiWhiteSpace c.
Proof. destruct c as [[] [] [] [] [] [] [] []]; reflexivity. Qed.

(** The case mapping leaves the bytes beyond ASCII as they are, and maps
    an ASCII byte to an ASCII byte. *)
Lemma lowerChar_high (c : ascii) :
  ((128 <=? code c)%nat = true /\ lowerChar c = c)
  \/ ((128 <=? code c)%nat = false /\ (128 <=? code (lowerChar c))%nat = false).
Proof. destruct c as [[] [] [] [] [] [] [] []]; (now left) || (now right). Qed.

Lemma byte_lowerChar (n : nat) (c : ascii) :
  128 <= n -> byte n (lowerChar c) = byte n c.
Proof.
  intros Hn. unfold byte.
  destruct (lowerChar_high c) as [[_ ->] | [H1 H2]]; [reflexivity|].
  apply Nat.leb_gt in H1, H2.
  transitivity false; [|symmetry]; apply Nat.eqb_neq; lia.
Qed.

Lemma whiteSpaceWidth_toLowerCase (s : string) :
  whiteSpaceWidth (toLowerCase s) = whiteSpaceWidth s.
Proof.
  unfold whiteSpaceWidth.
  destruct s as [|c [|c2 [|c3 r]]]; cbn [toLowerCase];
    rewrite ?lowerChar_space, ?byte_lowerChar by lia; try reflexivity.
  destruct (lowerChar_high c3) as [[_ ->] | [H1 H2]]; [reflexivity|].
  now rewrite H1, H2.
Qed.

Lemma lowerChar_digit (c : ascii) : isDigit (lowerChar c) = isDigit c.
Proof. destruct c as [[] [] [] [] [] [] [] []]; reflexivity. Qed.

Lemma lowerChar_of_digit (c : ascii) : isDigit c = true -> lowerChar c = c.
Proof. destruct c as [[] [] [] [] [] [] [] []]; (reflexivity || discriminate). Qed.

Lemma lowerChar_sign (c : ascii) :
  Ascii.eqb (lowerChar c) "-" = Ascii.eqb c "-"
  /\ Ascii.eqb (lowerChar c) "+" = Ascii.eqb c "+".
Proof. destruct c as [[] [] [] [] [] [] [] []]; split; reflexivity. Qed.

Lemma toLowerCase_idem (s : string) : toLowerCase (toLowerCase s) = toLowerCase s.
Proof. induction s as [|c s IH]; [reflexivity|]. cbn. now rewrite lowerChar_idem, IH. Qed.

Lemma toLowerCase_append (a b : string) :
  toLowerCase (a +:+ b) = toLowerCase a +:+ toLowerCase b.
Proof. induction a as [|c a IH]; [reflexivity|]. cbn. now rewrite IH. Qed.

Lemma toLowerCase_digits (p : string) : forallbS isDigit p = true -> toLowerCase p = p.
Proof.
  induction p as [|c p IH]; [reflexivity|]. cbn. intros [Hc Hp]%andb_true_iff.
  now rewrite (lowerChar_of_digit c Hc), IH.
Qed.

Lemma toLowerCase_length (s : string) : String.length (toLowerCase s) = String.length s.
Proof. induction s as [|c s IH]; [reflexivity|]. cbn. now rewrite IH. Qed.

Lemma includes_toLowerCase (s : string) : includes ":" (toLowerCase s) = includes ":" s.
Proof. induction s as [|c s IH]; [reflexivity|]. cbn. now rewrite lowerChar_colon, IH. Qed.

Lemma lastIndexOf_toLowerCase (s : string) :
  lastIndexOf ":" (toLowerCase s) = lastIndexOf ":" s.
Proof. induction s as [|c s IH]; [reflexivity|]. cbn. now rewrite lowerChar_colon, IH. Qed.

Lemma drop_toLowerCase (n : nat) (s : string) :
  drop n (toLowerCase s) = toLowerCase (drop n s).
Proof. revert s. induction n as [|n IH]; intros [|c s]; try reflexivity. cbn. apply IH. Qed.

End CaseFacts.

(* ================================================================== *)
(** * [validateServerAddress]: the port, the deny list, and the parser *)
(* ================================================================== *)

Section ValidateFacts.

Lemma trimStart_toLowerCase (s : string) :
  trimStart (toLowerCase s) = toLowerCase (trimStart s).
Proof.
  induction s as [s H|s H IH] using trimStart_ind.
  - rewrite (trimStart_stop s H). apply trimStart_stop.
    now rewrite whiteSpaceWidth_toLowerCase.
  - rewrite (trimStart_step s H), <- IH.
    rewrite (trimStart_step (toLowerCase s))
      by (now rewrite whiteSpaceWidth_toLowerCase).
    now rewrite whiteSpaceWidth_toLowerCase, drop_toLowerCase.
Qed.

Lemma readDigits_toLowerCase (acc : option Z) (s : string) :
  readDigits isDigit 10 acc (toLowerCase s) = readDigits isDigit 10 acc s.
Proof.
  revert acc. induction s as [|c s IH]; intros acc; [reflexivity|]. cbn.
  rewrite lowerChar_digit. destruct (isDigit c) eqn:Hc; [|reflexivity].
  rewrite (lowerChar_of_digit c Hc). apply IH.
Qed.

Lemma parseInt10_toLowerCase (s : string) :
  parseInt10 (toLowerCase s) = parseInt10 s.
Proof.
  unfold parseInt10. rewrite trimStart_toLowerCase.
  destruct (trimStart s) as [|c r]; [reflexivity|].
  cbn [toLowerCase]. unfold stripSign.
  destruct (lowerChar_sign c) as [Hm Hp].
  destruct (Ascii.eqb c "-") eqn:E1.
  - apply Ascii.eqb_eq in E1, Hm. rewrite E1 in *. rewrite Hm.
    now rewrite readDigits_toLowerCase.
  - destruct (Ascii.eqb c "+") eqn:E2.
    + apply Ascii.eqb_eq in E2, Hp. rewrite E2 in *. rewrite Hp.
      now rewrite readDigits_toLowerCase.
    + apply Ascii.eqb_neq in E1, E2, Hm, Hp.
      assert (Hl : forall x r', x <> "-"%char -> x <> "+"%char ->
                match String x r' with
                | String "-" r0 => (true, r0)
                | String "+" r0 => (false, r0)
                | _ => (false, String x r')
                end = (false, String x r')).
      { intros x r' H1 H2.
        destruct x as [[] [] [] [] [] [] [] []]; try reflexivity; congruence. }
      rewrite (Hl _ _ Hm Hp), (Hl _ _ E1 E2).
      change (String (lowerChar c) (toLowerCase r)) with (toLowerCase (String c r)).
      now rewrite readDigits_toLowerCase.
Qed.

(** The test of [validateServerAddress] on the lower-cased address. *)
Lemma validateServerAddress_eq (input : string) :
  validateServerAddress input =
  let lowerAddr := toLowerCase input in
  if existsb (fun pattern => pattern lowerAddr) FORBIDDEN_PATTERNS then None
  else if includes ":" input then
    let p := substringFrom (lastIndexOf ":" input + 1) input in
    if isEmpty p then Some input
    else match parseInt10 p with
         | None => None
         | Some port => if (port <? 1)%Z || (65535 <? port)%Z then None else Some input
         end
  else Some input.
Proof.
  unfold validateServerAddress. cbv zeta.
  destruct (existsb _ _); [reflexivity|].
  rewrite includes_toLowerCase, lastIndexOf_toLowerCase.
  destruct (includes ":" input); [|reflexivity].
  unfold substringFrom. rewrite drop_toLowerCase, parseInt10_toLowerCase.
  destruct (drop _ input); reflexivity.
Qed.

End ValidateFacts.

Section ValidateRules.

Lemma validateServerAddress_host_port (host p : string) :
  isDigits p = true ->
  existsb (fun pattern => pattern (toLowerCase (host +:+ ":" +:+ p))) FORBIDDEN_PATTERNS
  = false ->
  validateServerAddress (host +:+ ":" +:+ p) =
  if ((decimal p <? 1) || (65535 <? decimal p))%Z then None
  else Some (host +:+ ":" +:+ p).
Proof.
  intros Hp Hf. rewrite validateServerAddress_eq. cbv zeta. rewrite Hf.
  pose proof Hp as Hp'. unfold isDigits in Hp'. apply andb_true_iff in Hp' as [Hne Hd].
  assert (Hc : countChar ":" p = 0) by (now apply forallbS_digits_no).
  rewrite includes_countChar, countChar_append. cbn [countChar append Ascii.eqb].
  replace (countChar ":" host + _ =? 0)%nat with false
    by (symmetry; apply Nat.eqb_neq; cbn; lia).
  cbn [negb].
  change (host +:+ ":" +:+ p) with (host +:+ String ":" p).
  rewrite (lastIndexOf_append ":" host p Hc).
  unfold substringFrom.
  replace (Z.to_nat (Z.of_nat (String.length host) + 1)) with (S (String.length host)) by lia.
  rewrite drop_succ_append.
  destruct p as [|c p]; [discriminate|]. cbn [isEmpty].
  now rewrite (parseInt10_digits _ Hp).
Qed.

End ValidateRules.

(** X1.  [validateServerAddress] hands back the address as it was typed,
    not its lower-case form, and whether it accepts an address depends on
    the lower-case form alone: an address is refused exactly when its
    lower-case form is. *)
Theorem validateServerAddress_case_insensitive (input : string) :
  (forall a, validateServerAddress input = Some a -> a = input)
  /\ (validateServerAddress input = None
      <-> validateServerAddress (toLowerCase input) = None).
Proof.
  split.
  - intros a. rewrite validateServerAddress_eq. cbv zeta.
    repeat match goal with
           | |- context [if ?b then _ else _] => destruct b
           | |- context [match ?b with Some _ => _ | None => _ end] => destruct b
           end; congruence.
  - unfold validateServerAddress. cbv zeta. rewrite toLowerCase_idem.
    repeat match goal with
           | |- context [if ?b then _ else _] => destruct b
           | |- context [match ?b with Some _ => _ | None => _ end] => destruct b
           end; split; congruence.
Qed.

(** X2.  For an address [host:port] whose port is a string of digits and
    which no pattern of the deny list matches, [validateServerAddress]
    accepts the address exactly when the port is between 1 and 65535, and
    refuses it exactly when the port is 0 or above 65535. *)
Theorem validateServerAddress_port_range (host p : string) :
  isDigits p = true ->
  existsb (fun pattern => pattern (toLowerCase (host +:+ ":" +:+ p))) FORBIDDEN_PATTERNS
  = false ->
  (validateServerAddress (host +:+ ":" +:+ p) = Some (host +:+ ":" +:+ p)
   <-> (1 <= decimal p <= 65535)%Z)
  /\ (validateServerAddress (host +:+ ":" +:+ p) = None
      <-> (decimal p < 1 \/ 65535 < decimal p)%Z).
Proof.
  intros Hp Hf. rewrite (validateServerAddress_host_port host p Hp Hf).
  destruct (decimal p <? 1)%Z eqn:E1; destruct (65535 <? decimal p)%Z eqn:E2; cbn;
    (split; (split; intros H; [ try discriminate; lia | try reflexivity; lia ])).
Qed.

Lemma validateServerAddress_port_range_witness :
  (validateServerAddress "mc.example.com:25565" = Some "mc.example.com:25565"
   <-> (1 <= decimal "25565" <= 65535)%Z)
  /\ (validateServerAddress "mc.example.com:25565" = None
      <-> (decimal "25565" < 1 \/ 65535 < decimal "25565")%Z).
Proof. apply (validateServerAddress_port_range "mc.example.com" "25565"); reflexivity. Defined.

Section DenyFacts.

Lemma existsb_FORBIDDEN (pattern : string -> bool) (input : string) :
  In pattern FORBIDDEN_PATTERNS -> pattern (toLowerCase input) = true ->
  validateServerAddress input = None.
Proof.
  intros Hin Hm. unfold validateServerAddress. cbv zeta.
  replace (existsb _ FORBIDDEN_PATTERNS) with true; [reflexivity|].
  symmetry. apply existsb_exists. now exists pattern.
Qed.

Lemma code_inj (a b : ascii) : code a = code b -> a = b.
Proof.
  unfold code. intros H.
  rewrite <- (ascii_nat_embedding a), <- (ascii_nat_embedding b). now rewrite H.
Qed.

Lemma eqb_code (a b : ascii) : Ascii.eqb a b = (code a =? code b)%nat.
Proof.
  destruct (Ascii.eqb_spec a b) as [->|Hn].
  - symmetry. apply Nat.eqb_refl.
  - symmetry. apply Nat.eqb_neq. intros H. apply Hn. now apply code_inj.
Qed.

Lemma matches_172_range (a b : ascii) (rest : string) :
  isDigit a = true -> isDigit b = true ->
  matches_172 ("172." +:+ String a (String b ("." +:+ rest))) = true
  <-> (16 <= decimal (String a (String b "")) <= 31)%Z.
Proof.
  unfold isDigit. intros [Ha1 Ha2]%andb_true_iff [Hb1 Hb2]%andb_true_iff.
  apply Nat.leb_le in Ha1, Ha2, Hb1, Hb2.
  cbn [matches_172 append]. unfold isDigit, decimal. cbn [decimalFrom].
  rewrite !(eqb_code a). change (code "1") with 49. change (code "2") with 50.
  change (code "3") with 51.
  rewrite !orb_true_iff, !andb_true_iff, !Nat.eqb_eq, !Nat.leb_le. lia.
Qed.

End DenyFacts.

(** X3.  [validateServerAddress] refuses every address whose lower-case
    form starts with [127.], [10.], [192.168.], [169.254.], [[::]], [[::1]],
    [fe80:] or [ff], whatever follows; and the expression for [172.x.] matches
    a two-digit [x] exactly when [x] is between 16 and 31, in which case the
    address is refused too. *)
Theorem validateServerAddress_private_ranges :
  (forall input prefix,
      prefix ∈ ["127."; "10."; "192.168."; "169.254."; "[::]"; "[::1]"; "fe80:"; "ff"] ->
      startsWith prefix (toLowerCase input) = true ->
      validateServerAddress input = None)
  /\ (forall a b rest,
         isDigit a = true -> isDigit b = true ->
         matches_172 (toLowerCase ("172." +:+ String a (String b ("." +:+ rest)))) = true
         <-> (16 <= decimal (String a (String b "")) <= 31)%Z)
  /\ (forall input,
         matches_172 (toLowerCase input) = true -> validateServerAddress input = None).
Proof.
  split; [|split].
  - intros input prefix Hin Hs.
    apply (existsb_FORBIDDEN (startsWith prefix)); [|exact Hs].
    repeat (apply elem_of_cons in Hin as [->|Hin]; [cbn; tauto|]).
    now apply elem_of_nil in Hin.
  - intros a b rest Ha Hb.
    rewrite <- (matches_172_range a b (toLowerCase rest) Ha Hb).
    cbn [toLowerCase append].
    rewrite (lowerChar_of_digit a Ha), (lowerChar_of_digit b Hb).
    reflexivity.
  - intros input H. apply (existsb_FORBIDDEN matches_172); [cbn; tauto | exact H].
Qed.

(** X4.  The patterns [/^localhost$/] and [/^0\.0\.0\.0$/] are anchored at
    both ends: [validateServerAddress] refuses [localhost] and [0.0.0.0]
    written alone, and accepts either followed by a colon and any port
    between 1 and 65535. *)
Theorem validateServerAddress_anchored_names (p : string) :
  isDigits p = true -> (1 <= decimal p <= 65535)%Z ->
  validateServerAddress "localhost" = None
  /\ validateServerAddress ("localhost:" +:+ p) = Some ("localhost:" +:+ p)
  /\ validateServerAddress "0.0.0.0" = None
  /\ validateServerAddress ("0.0.0.0:" +:+ p) = Some ("0.0.0.0:" +:+ p).
Proof.
  intros Hp Hr.
  assert (Hd : forallbS isDigit p = true)
    by (unfold isDigits in Hp; now apply andb_true_iff in Hp as [_ ?]).
  assert (Hok : ((decimal p <? 1) || (65535 <? decimal p))%Z = false).
  { apply orb_false_iff. split; apply Z.ltb_ge; lia. }
  split; [reflexivity|]. split; [|split; [reflexivity|]].
  - change ("localhost:" +:+ p) with ("localhost" +:+ ":" +:+ p).
    rewrite (validateServerAddress_host_port "localhost" p Hp); [now rewrite Hok|].
    rewrite !toLowerCase_append, (toLowerCase_digits p Hd). reflexivity.
  - change ("0.0.0.0:" +:+ p) with ("0.0.0.0" +:+ ":" +:+ p).
    rewrite (validateServerAddress_host_port "0.0.0.0" p Hp); [now rewrite Hok|].
    rewrite !toLowerCase_append, (toLowerCase_digits p Hd). reflexivity.
Qed.

Lemma validateServerAddress_anchored_names_witness :
  validateServerAddress "localhost" = None
  /\ validateServerAddress ("localhost:" +:+ "25565") = Some ("localhost:" +:+ "25565")
  /\ validateServerAddress "0.0.0.0" = None
  /\ validateServerAddress ("0.0.0.0:" +:+ "25565") = Some ("0.0.0.0:" +:+ "25565").
Proof.
  apply (validateServerAddress_anchored_names "25565"); [reflexivity | cbv; split; discriminate].
Defined.

(** X5.  Validation and parsing agree on the port: for every address that
    [validateServerAddress] accepts, the port [parseServerAddress] gives is
    the default port it was called with or a number between 1 and 65535. *)
Theorem validated_port_in_range (server address : string) (defaultPort : Z) :
  validateServerAddress server = Some address ->
  Address.port (parseServerAddress address defaultPort) = defaultPort
  \/ (1 <= Address.port (parseServerAddress address defaultPort) <= 65535)%Z.
Proof.
  intros H.
  assert (address = server) as ->.
  { revert H. rewrite validateServerAddress_eq. cbv zeta.
    repeat match goal with
           | |- context [if ?b then _ else _] => destruct b
           | |- context [match ?b with Some _ => _ | None => _ end] => destruct b
           end; congruence. }
  rewrite validateServerAddress_eq in H. cbv zeta in H.
  destruct (existsb _ _); [discriminate|].
  unfold parseServerAddress.
  destruct (matchIpv6WithPort server) as [[h p]|] eqn:E1.
  - right. apply matchIpv6WithPort_spec in E1 as (Ha & _ & _ & Hp).
    pose proof Hp as Hp'. unfold isDigits in Hp'. apply andb_true_iff in Hp' as [Hne Hd].
    assert (Hc : countChar ":" p = 0) by (now apply forallbS_digits_no).
    assert (Ha' : server = ("[" +:+ h +:+ "]") +:+ String ":" p).
    { rewrite Ha. cbn [append]. f_equal. now rewrite append_assoc. }
    rewrite Ha' in H.
    rewrite includes_countChar, countChar_append in H. cbn [countChar Ascii.eqb] in H.
    replace (countChar ":" ("[" +:+ h +:+ "]") + _ =? 0)%nat with false in H
      by (symmetry; apply Nat.eqb_neq; cbn; lia).
    cbn [negb] in H.
    rewrite (lastIndexOf_append ":" _ p Hc) in H. unfold substringFrom in H.
    replace (Z.to_nat (Z.of_nat (String.length ("[" +:+ h +:+ "]")) + 1))
      with (S (String.length ("[" +:+ h +:+ "]"))) in H by lia.
    rewrite drop_succ_append in H.
    rewrite (parseInt10_digits p Hp) in *. cbn [default Address.port].
    destruct p; [discriminate|]. cbn [isEmpty] in H.
    destruct (_ <? 1)%Z eqn:L1; [discriminate|].
    destruct (65535 <? _)%Z eqn:L2; [discriminate|].
    apply Z.ltb_ge in L1, L2. unfold default. cbn [from_option id]. lia.
  - destruct (matchIpv6 server); [now left|].
    destruct (_ && _); [now left|].
    destruct (-1 <? lastIndexOf ":" server)%Z eqn:L; [|now left].
    assert (Hi : includes ":" server = true).
    { rewrite includes_countChar. apply negb_true_iff, Nat.eqb_neq. intros Hz.
      apply lastIndexOf_absent in Hz. rewrite Hz in L. discriminate. }
    rewrite Hi in H.
    destruct (isEmpty (substringFrom (lastIndexOf ":" server + 1) server)) eqn:Ee.
    + apply isEmpty_true in Ee. rewrite Ee. now left.
    + destruct (parseInt10 _) as [port|]; [|now left].
      right. cbn [Address.port].
      destruct (port <? 1)%Z eqn:L1; [discriminate|].
      destruct (65535 <? port)%Z eqn:L2; [discriminate|].
      apply Z.ltb_ge in L1, L2. lia.
Qed.

Lemma validated_port_in_range_witness :
  Address.port (parseServerAddress "mc.example.com:25566" 25565) = 25565%Z
  \/ (1 <= Address.port (parseServerAddress "mc.example.com:25566" 25565) <= 65535)%Z.
Proof.
  apply (validated_port_in_range "mc.example.com:25566" "mc.example.com:25566" 25565).
  reflexivity.
Defined.

(* ================================================================== *)
(** * Numbers in print, and the name a status is shown under *)
(* ================================================================== *)

Section NumberFacts.

Lemma string_of_uint_digits (d : Decimal.uint) :
  forallbS isDigit (NilEmpty.string_of_uint d) = true.
Proof. induction d; cbn; auto. Qed.

Lemma decimalFrom_of_uint_acc (d : Decimal.uint) (acc : positive) :
  decimalFrom (Z.pos acc) (NilEmpty.string_of_uint d) = Z.pos (Pos.of_uint_acc d acc).
Proof.
  revert acc. induction d; intros acc; cbn [NilEmpty.string_of_uint decimalFrom Pos.of_uint_acc];
    [reflexivity
    | rewrite <- IHd; f_equal;
      match goal with
      | |- context [Z.of_nat ?k] => let v := eval vm_compute in (Z.of_nat k) in
                                    change (Z.of_nat k) with v
      end; lia ..].
Qed.

Lemma decimalFrom_of_uint (d : Decimal.uint) :
  decimalFrom 0 (NilEmpty.string_of_uint d) = Z.of_N (Pos.of_uint d).
Proof.
  induction d; cbn [NilEmpty.string_of_uint decimalFrom Pos.of_uint];
    [reflexivity | exact IHd | apply (decimalFrom_of_uint_acc d) ..].
Qed.

Lemma numberToString_pos (p : positive) :
  numberToString (Z.pos p) = NilEmpty.string_of_uint (Pos.to_uint p).
Proof.
  unfold numberToString. cbn [Z.to_int NilZero.string_of_int].
  unfold NilZero.string_of_uint.
  pose proof (Unsigned.to_uint_nonnil p) as Hn.
  destruct (Pos.to_uint p); [congruence | reflexivity ..].
Qed.

(** A natural number is printed as a non-empty string of digits that
    writes it. *)
Lemma numberToString_digits (n : Z) :
  (0 <= n)%Z -> isDigits (numberToString n) = true /\ decimal (numberToString n) = n.
Proof.
  intros Hn. destruct n as [|p|p]; [split; reflexivity | | lia].
  rewrite numberToString_pos. unfold isDigits, decimal.
  rewrite string_of_uint_digits, decimalFrom_of_uint, DecimalPos.Unsigned.of_to.
  split; [|reflexivity].
  pose proof (Unsigned.to_uint_nonnil p) as Hnil.
  destruct (Pos.to_uint p); [congruence | reflexivity ..].
Qed.

End NumberFacts.

Section DisplayFacts.

Lemma matchIpv6WithPort_host_port (host p : string) :
  countChar ":" host = 0 -> ~ Bracketed host -> isDigits p = true ->
  matchIpv6WithPort (host +:+ ":" +:+ p) = None.
Proof.
  intros Hh Hnb Hp.
  assert (Hs : countChar ":" p = 0).
  { unfold isDigits in Hp. apply andb_true_iff in Hp as [_ Hp].
    now apply forallbS_digits_no. }
  apply matchIpv6WithPort_None. intros (h' & p' & E & Hne & Hlt & Hp').
  assert (Hs' : countChar ":" p' = 0).
  { unfold isDigits in Hp'. apply andb_true_iff in Hp' as [_ Hp'].
    now apply forallbS_digits_no. }
  assert (E' : host +:+ String ":" p = ("[" +:+ h' +:+ "]") +:+ String ":" p').
  { rewrite !append_assoc. exact E. }
  destruct (last_colon_unique _ _ _ _ E' Hs Hs') as [-> _].
  apply Hnb. now exists h'.
Qed.

Lemma parse_host_port (host p : string) (d : Z) :
  countChar ":" host = 0 -> ~ Bracketed host -> isDigits p = true ->
  parseServerAddress (host +:+ ":" +:+ p) d = mkAddress host (decimal p).
Proof.
  intros Hh Hnb Hp.
  assert (Hs : countChar ":" p = 0).
  { unfold isDigits in Hp. apply andb_true_iff in Hp as [_ Hp'].
    now apply forallbS_digits_no. }
  pose proof (matchIpv6WithPort_host_port host p Hh Hnb Hp) as Ha.
  assert (Hb : matchIpv6 (host +:+ ":" +:+ p) = None).
  { apply matchIpv6_None.
    change (host +:+ ":" +:+ p) with (host +:+ (":" +:+ p)).
    rewrite <- append_assoc. now apply not_bracketed_ends_digit. }
  assert (Hc : (2 <? length (split ":" (host +:+ ":" +:+ p)))%nat
               && negb (endsWith "]" (host +:+ ":" +:+ p)) = false).
  { rewrite split_length, countChar_append. cbn [append countChar].
    rewrite Hh, Hs. reflexivity. }
  rewrite (parse_at_last_colon host p d Ha Hb Hc Hs), (parseInt10_digits p Hp).
  reflexivity.
Qed.

Lemma parse_plain (host : string) (d : Z) :
  countChar ":" host = 0 -> ~ Bracketed host ->
  parseServerAddress host d = mkAddress host d.
Proof.
  intros Hh Hnb. unfold parseServerAddress.
  assert (Ha : matchIpv6WithPort host = None).
  { apply matchIpv6WithPort_None. intros (h' & p' & E & _).
    rewrite E, !countChar_append in Hh. cbn in Hh. lia. }
  apply matchIpv6_None in Hnb. rewrite Ha, Hnb, split_length, Hh.
  cbn [Nat.ltb Nat.leb andb]. now rewrite lastIndexOf_absent.
Qed.

(** The test [status.port === 25565 || status.port === 19132] on a number. *)
Lemma default_port_test {A} (n : Z) (x : A) (y : value -> A) :
  match VNum n with
  | VNum 25565 | VNum 19132 => x
  | port => y port
  end = if ((n =? 25565) || (n =? 19132))%Z then x else y (VNum n).
Proof.
  destruct n as [|p|p]; [reflexivity | | reflexivity].
  repeat (destruct p as [p|p|]; try reflexivity).
Qed.

End DisplayFacts.

(** X6.  The text [getValue] gives for [name] is an address that
    [parseServerAddress] reads back: for a status whose host is a string
    without colon that is not wrapped in brackets and whose port is a
    natural number, a safe integer, the name is the host alone when the
    port is 25565 or 19132 and [host:port] otherwise, and parsing it with
    the default port of the family gives the host and the port of the
    status again, provided the port, when it is one of the two, is the
    default of that family. *)
Theorem display_name_parses_back
        (h_image : string -> string) (st : ServerStatus.t)
        (h : string) (n : Z) (serverType : ServerType) :
  ServerStatus.host st = VStr h -> ServerStatus.port st = VNum n ->
  countChar ":" h = 0 -> ~ Bracketed h -> (0 <= n)%Z -> safeInteger n = true ->
  (n = 25565%Z \/ n = 19132%Z -> n = defaultPortOf serverType) ->
  exists s,
    getValue h_image st "name" None = Ok (VStr s)
    /\ parseServerAddress s (defaultPortOf serverType) = mkAddress h n.
Proof.
  intros Hh Hp Hc Hnb Hn _ Hd. unfold getValue. cbn [String.eqb Ascii.eqb Bool.eqb].
  rewrite Hh, Hp.
  rewrite (default_port_test n (Ok (VStr h))
             (fun port => h0 <- toString (VStr h) ;; p <- toString port ;;
                          Ok (VStr (h0 +:+ ":" +:+ p)))).
  destruct ((n =? 25565) || (n =? 19132))%Z eqn:E.
  - exists h. split; [reflexivity|].
    rewrite (parse_plain h _ Hc Hnb). f_equal. symmetry. apply Hd.
    apply orb_true_iff in E as [E|E]; apply Z.eqb_eq in E; auto.
  - exists (h +:+ ":" +:+ numberToString n). split; [reflexivity|].
    destruct (numberToString_digits n Hn) as [Hdig Hval].
    now rewrite (parse_host_port h _ _ Hc Hnb Hdig), Hval.
Qed.

Lemma display_name_parses_back_witness :
  exists s,
    getValue imgElement
      (ServerStatus.set_ping VUndefined
         (offlineStatus (VStr "mc.example.com") (VNum 25566) VUndefined))
      "name" None = Ok (VStr s)
    /\ parseServerAddress s (defaultPortOf java) = mkAddress "mc.example.com" 25566.
Proof.
  apply (display_name_parses_back imgElement _ "mc.example.com" 25566 java);
    try reflexivity.
  - intros (h & E & _). discriminate.
  - discriminate.
  - intros [E|E]; discriminate.
Defined.

(* ================================================================== *)
(** * [normalizeApiResponse] on a payload classified online *)
(* ================================================================== *)

Section OnlineFacts.

Lemma portFromAddr_eq (address : string) (serverType : ServerType) :
  match parseInt (default "undefined" (split ":" address !! 1%nat)) with
  | Some n => if (n =? 0)%Z then defaultPortOf serverType else n
  | None => defaultPortOf serverType
  end = portFromAddr address serverType.
Proof.
  rewrite split_colon_second. unfold portFromAddr.
  destruct (afterFirstColon address) as [text|]; reflexivity.
Qed.

(** What the record of an online payload is made of. *)
Lemma normalize_online_inv
      (data : value) (address : string) (serverType : ServerType) (st : ServerStatus.t) :
  normalizeApiResponse data address serverType = Ok st ->
  ServerStatus.online st = true ->
  exists hp m pl ns,
    classifiedOffline data = Ok false
    /\ resolveHostPort data (beforeFirstColon address) (portFromAddr address serverType)
       = Ok hp
    /\ motdText data = Ok m
    /\ playerList data = Ok pl
    /\ playerNames pl = Ok ns
    /\ ServerStatus.host st = fst hp
    /\ ServerStatus.port st = snd hp
    /\ ServerStatus.motd st = m
    /\ Players.list (ServerStatus.players st) = ns
    /\ ServerStatus.mods st
       = processListData (prop data "mods" ||| prop (prop data "modinfo") "modList")
    /\ ServerStatus.plugins st = processListData (prop data "plugins")
    /\ ServerStatus.ping st = VUndefined.
Proof.
  unfold normalizeApiResponse.
  rewrite split_colon_first, portFromAddr_eq.
  destruct (nullish data); [discriminate|].
  destruct (classifiedOffline data) as [[|]|]; cbn [bind]; [| |discriminate].
  - intros H. injection H as <-. discriminate.
  - destruct (resolveHostPort _ _ _) as [hp|]; cbn [bind]; [|discriminate].
    destruct (motdText data) as [m|]; cbn [bind]; [|discriminate].
    destruct (playerList data) as [pl|] eqn:Epl; cbn [bind]; [|discriminate].
    destruct (playerNames pl) as [ns|] eqn:Ens; cbn [bind]; [|discriminate].
    intros H _. injection H as <-. exists hp, m, pl, ns. repeat split; assumption.
Qed.

Lemma spanNotColon_app (h t : string) :
  countChar ":" h = 0 -> spanNotColon (h +:+ String ":" t) = (h, String ":" t).
Proof.
  induction h as [|c h IH]; [reflexivity|]. cbn [countChar append spanNotColon].
  destruct (Ascii.eqb c ":"); [discriminate|]. intros H. now rewrite (IH H).
Qed.

Lemma spanNotColon_plain (h : string) :
  countChar ":" h = 0 -> spanNotColon h = (h, "").
Proof.
  induction h as [|c h IH]; [reflexivity|]. cbn [countChar spanNotColon].
  destruct (Ascii.eqb c ":"); [discriminate|]. intros H. now rewrite (IH H).
Qed.

Lemma spanNotColon_inv (s h t : string) :
  spanNotColon s = (h, t) ->
  s = h +:+ t /\ countChar ":" h = 0 /\ (t = "" \/ exists r, t = String ":" r).
Proof.
  revert h t. induction s as [|c s IH]; intros h t.
  - intros [= <- <-]. repeat split. now left.
  - cbn [spanNotColon]. destruct (Ascii.eqb c ":") eqn:E.
    + intros [= <- <-]. apply Ascii.eqb_eq in E as ->. repeat split. right. now exists s.
    + destruct (spanNotColon s) as [h' t']. intros [= <- <-].
      destruct (IH h' t' eq_refl) as (-> & Hc & Ht).
      cbn [append countChar]. rewrite E. repeat split; assumption.
Qed.

Lemma beforeFirstColon_no_colon (a : string) : countChar ":" (beforeFirstColon a) = 0.
Proof.
  unfold beforeFirstColon. destruct (spanNotColon a) as [h t] eqn:E.
  now apply spanNotColon_inv in E as (_ & Hc & _).
Qed.

(** [/^([^:]+):(\d+)$/] matches a host without colon, a colon and digits. *)
Lemma matchHostPort_spec (s h p : string) :
  matchHostPort s = Some (h, p) <->
  s = h +:+ ":" +:+ p /\ h <> "" /\ countChar ":" h = 0 /\ isDigits p = true.
Proof.
  unfold matchHostPort, isDigits. split.
  - destruct (spanNotColon s) as [h' t] eqn:E.
    apply spanNotColon_inv in E as (-> & Hc & Ht).
    destruct Ht as [-> | [r ->]]; [discriminate|].
    destruct (isEmpty h') eqn:Eh; [discriminate|]. cbn [negb andb].
    destruct (negb (isEmpty r) && forallbS isDigit r) eqn:Er; [|discriminate].
    intros [= <- <-]. repeat split; try assumption. now apply isEmpty_false.
  - intros (-> & Hne & Hc & Hp). change (h +:+ ":" +:+ p) with (h +:+ String ":" p).
    rewrite (spanNotColon_app h p Hc). apply isEmpty_false in Hne.
    apply andb_true_iff in Hp as [Hp1 Hp2]. now rewrite Hne, Hp1, Hp2.
Qed.

Lemma indexOf_append (h t : string) :
  countChar ":" h = 0 -> indexOf ":" (h +:+ String ":" t) = Z.of_nat (String.length h).
Proof.
  induction h as [|c h IH]; [reflexivity|]. cbn [countChar append indexOf String.length].
  destruct (Ascii.eqb c ":"); [discriminate|]. intros H. rewrite (IH H).
  destruct (Z.ltb_spec (Z.of_nat (String.length h)) 0); lia.
Qed.

(** The test [finalHost.lastIndexOf(':') > finalHost.indexOf(':')] guards an
    expression that does not match a text with two colons anyway. *)
Lemma hostPortMatch_guard (s : string) :
  (if (indexOf ":" s <? lastIndexOf ":" s)%Z then None else matchHostPort s)
  = matchHostPort s.
Proof.
  destruct (indexOf ":" s <? lastIndexOf ":" s)%Z eqn:E; [|reflexivity].
  destruct (matchHostPort s) as [[h p]|] eqn:M; [|reflexivity].
  apply matchHostPort_spec in M as (-> & _ & Hc & Hp).
  assert (Hs : countChar ":" p = 0).
  { unfold isDigits in Hp. apply andb_true_iff in Hp as [_ Hp].
    now apply forallbS_digits_no. }
  change (h +:+ ":" +:+ p) with (h +:+ String ":" p) in E.
  rewrite (indexOf_append h p Hc), (lastIndexOf_append ":" h p Hs) in E.
  apply Z.ltb_lt in E. lia.
Qed.

(** Lines 163 to 169 when the payload has no port field and the host chosen
    is the string [s]. *)
Lemma resolveHostPort_string (data : value) (hostFromAddr s : string) (portFromAddr : Z) :
  nullish (prop data "port" ??? prop data "ipv6Port") = true ->
  prop data "hostname" ||| prop data "host" ||| prop data "server" ||| VStr hostFromAddr
  = VStr s ->
  resolveHostPort data hostFromAddr portFromAddr =
  Ok (match (match matchIpv6WithPort s with
             | Some m => Some m
             | None => matchHostPort s
             end) with
      | Some (m1, m2) => (VStr m1, VNum (decimal m2))
      | None => (VStr s, VNum portFromAddr)
      end).
Proof.
  intros Hp Hs. unfold resolveHostPort. rewrite Hp, Hs, hostPortMatch_guard.
  destruct (matchIpv6WithPort s) as [[m1 m2]|] eqn:E1.
  - apply matchIpv6WithPort_spec in E1 as (_ & _ & _ & Hd).
    now rewrite (parseInt10_digits m2 Hd).
  - destruct (matchHostPort s) as [[m1 m2]|] eqn:E2.
    + apply matchHostPort_spec in E2 as (_ & _ & _ & Hd).
      now rewrite (parseInt10_digits m2 Hd).
    + cbn [bind fst snd]. unfold JSValue.coalesce at 1. now rewrite Hp.
Qed.

Lemma or_not_nullish (a : value) (s : string) : nullish (a ||| VStr s) = false.
Proof. unfold JSValue.or. destruct (truthy a) eqn:E; [now destruct a | reflexivity]. Qed.

Lemma coalesce_not_nullish (a : value) (n : Z) : nullish (a ??? VNum n) = false.
Proof. unfold JSValue.coalesce. now destruct (nullish a) eqn:E. Qed.

End OnlineFacts.

Section ResolveFacts.

Lemma resolveHostPort_inv (data : value) (h : string) (p : Z) (hp : value * value) :
  resolveHostPort data h p = Ok hp ->
  nullish (fst hp) = false /\ nullish (snd hp) = false
  /\ (nullish (prop data "port" ??? prop data "ipv6Port") = true ->
      exists s n, hp = (VStr s, VNum n))
  /\ (nullish (prop data "port" ??? prop data "ipv6Port") = false ->
      hp = (prop data "hostname" ||| prop data "host" ||| prop data "server" ||| VStr h,
            prop data "port" ??? prop data "ipv6Port")).
Proof.
  destruct (nullish (prop data "port" ??? prop data "ipv6Port")) eqn:Np.
  - destruct (prop data "hostname" ||| prop data "host" ||| prop data "server" ||| VStr h)
      as [| | | |s| |] eqn:Hs;
      try (unfold resolveHostPort; rewrite Np, Hs; discriminate).
    rewrite (resolveHostPort_string data h s p Np Hs). intros [= <-].
    destruct (match matchIpv6WithPort s with Some m => Some m | None => matchHostPort s end)
      as [[m1 m2]|]; (repeat split; [eauto | discriminate]).
  - unfold resolveHostPort. rewrite Np. cbn [bind fst snd]. intros [= <-].
    cbn [fst snd]. rewrite or_not_nullish, coalesce_not_nullish.
    repeat split; [discriminate|]. intros _. unfold JSValue.coalesce at 1.
    now rewrite Np.
Qed.

Lemma mapR_ok {A B} (f : A -> result B) (g : A -> B) (l : list A) :
  (forall x, In x l -> f x = Ok (g x)) -> mapR f l = Ok (map g l).
Proof.
  induction l as [|x l IH]; [reflexivity|]. intros H. cbn [mapR map].
  rewrite (H x (or_introl eq_refl)), IH; [reflexivity|].
  intros y Hy. apply H. now right.
Qed.

Lemma mapR_map {A B C} (f : B -> result C) (g : A -> B) (l : list A) :
  mapR f (map g l) = mapR (fun x => f (g x)) l.
Proof. induction l as [|x l IH]; [reflexivity|]. cbn [mapR map]. now rewrite IH. Qed.

Lemma or_empty_string (s : string) : VStr s ||| VStr "" = VStr s.
Proof. now destruct s. Qed.

Lemma playerNames_strings (names : list string) :
  playerNames (VArr (map VStr names)) = Ok (VArr (map VStr names)).
Proof.
  unfold playerNames. cbn [nullish]. rewrite mapR_map.
  rewrite (mapR_ok _ VStr); [reflexivity|].
  intros s _. cbn [isString bind]. now rewrite or_empty_string.
Qed.

Lemma arrayJoin_strings (sep : string) (lines : list string) :
  arrayJoin sep (map VStr lines) = Ok (join sep lines).
Proof.
  unfold arrayJoin. rewrite mapR_map, (mapR_ok _ id); [now rewrite map_id|].
  reflexivity.
Qed.

Lemma sample_names (sample : list value) (names : list string) :
  Forall2 (fun p n => nullish p = false /\ prop p "name" = VStr n) sample names ->
  mapR (fun p => get p "name") sample = Ok (map VStr names).
Proof.
  induction 1 as [|p n sample names [Hp Hn] _ IH]; [reflexivity|].
  cbn [mapR map]. unfold get at 1. now rewrite Hp, Hn, IH.
Qed.

End ResolveFacts.

(** X7.  In every record [normalizeApiResponse] returns, online or not, the
    host and the port are present (neither [null] nor [undefined]); and
    when the payload has no [port] and no [ipv6Port], the host is a string
    and the port a number. *)
Theorem normalize_host_port_present
        (data : value) (address : string) (serverType : ServerType)
        (st : ServerStatus.t) :
  normalizeApiResponse data address serverType = Ok st ->
  nullish (ServerStatus.host st) = false
  /\ nullish (ServerStatus.port st) = false
  /\ (nullish (prop data "port" ??? prop data "ipv6Port") = true ->
      exists s n, ServerStatus.host st = VStr s /\ ServerStatus.port st = VNum n).
Proof.
  intros H. destruct (ServerStatus.online st) eqn:Eo.
  - destruct (normalize_online_inv _ _ _ _ H Eo)
      as (hp & m & pl & ns & _ & Hr & _ & _ & _ & -> & -> & _).
    destruct (resolveHostPort_inv _ _ _ _ Hr) as (H1 & H2 & H3 & _).
    repeat split; [assumption .. |]. intros Np.
    destruct (H3 Np) as (s & n & ->). now exists s, n.
  - revert H. unfold normalizeApiResponse.
    destruct (nullish data); [discriminate|].
    destruct (classifiedOffline data) as [[|]|]; cbn [bind]; [| |discriminate].
    + intros [= <-]. repeat split. intros _. eauto.
    + destruct (resolveHostPort _ _ _) as [hp|]; cbn [bind]; [|discriminate].
      destruct (motdText data) as [m|]; cbn [bind]; [|discriminate].
      destruct (playerList data) as [pl|]; cbn [bind]; [|discriminate].
      destruct (playerNames pl) as [ns|]; cbn [bind]; [|discriminate].
      intros [= <-]. discriminate.
Qed.

Lemma normalize_host_port_present_witness :
  exists st,
    normalizeApiResponse (VObj [("hostname", VStr "play.example.net:19133")])
                         "play.example.net" bedrock = Ok st
    /\ nullish (ServerStatus.host st) = false
    /\ nullish (ServerStatus.port st) = false
    /\ (nullish (prop (VObj [("hostname", VStr "play.example.net:19133")]) "port"
                 ??? prop (VObj [("hostname", VStr "play.example.net:19133")]) "ipv6Port")
        = true ->
        exists s n, ServerStatus.host st = VStr s /\ ServerStatus.port st = VNum n).
Proof.
  eexists. split; [reflexivity|].
  apply (normalize_host_port_present
           (VObj [("hostname", VStr "play.example.net:19133")]) "play.example.net" bedrock).
  reflexivity.
Defined.

(** X8.  When an online payload carries a port ([port], or else
    [ipv6Port]), the record has that port, whatever its type, and as host
    the first truthy of [hostname], [host] and [server], else the text of
    the address before its first colon: the host is taken as it stands, a
    port written inside it is not split off. *)
Theorem normalize_explicit_port
        (data : value) (address : string) (serverType : ServerType)
        (st : ServerStatus.t) :
  normalizeApiResponse data address serverType = Ok st ->
  ServerStatus.online st = true ->
  nullish (prop data "port" ??? prop data "ipv6Port") = false ->
  ServerStatus.port st = prop data "port" ??? prop data "ipv6Port"
  /\ ServerStatus.host st
     = prop data "hostname" ||| prop data "host" ||| prop data "server"
       ||| VStr (beforeFirstColon address).
Proof.
  intros H Eo Np.
  destruct (normalize_online_inv _ _ _ _ H Eo)
    as (hp & m & pl & ns & _ & Hr & _ & _ & _ & -> & -> & _).
  destruct (resolveHostPort_inv _ _ _ _ Hr) as (_ & _ & _ & H4).
  now rewrite (H4 Np).
Qed.

(** X9.  When an online payload carries no port and the host chosen is a
    string: a host [h:p] ([h] without colon and not in brackets, [p]
    digits) gives host [h] and, when [p] writes a safe integer, port [p]; a
    host [[h]:p] ([h] without line terminator) gives host [h], without the
    brackets, and likewise port [p]; any other host is kept whole, with the
    port read from the address ([portFromAddr]) provided [parseInt] reads
    the text after the first colon of the address exactly. *)
Theorem normalize_host_embedded_port
        (data : value) (address : string) (serverType : ServerType)
        (st : ServerStatus.t) (s : string) :
  normalizeApiResponse data address serverType = Ok st ->
  ServerStatus.online st = true ->
  nullish (prop data "port" ??? prop data "ipv6Port") = true ->
  prop data "hostname" ||| prop data "host" ||| prop data "server"
  ||| VStr (beforeFirstColon address) = VStr s ->
  (forall h p,
      s = h +:+ ":" +:+ p -> h <> "" -> countChar ":" h = 0 -> ~ Bracketed h ->
      isDigits p = true ->
      ServerStatus.host st = VStr h
      /\ (safeInteger (decimal p) = true -> ServerStatus.port st = VNum (decimal p)))
  /\ (forall h p,
         s = "[" +:+ h +:+ "]:" +:+ p -> h <> "" -> noLineTerminator h = true ->
         isDigits p = true ->
         ServerStatus.host st = VStr h
         /\ (safeInteger (decimal p) = true -> ServerStatus.port st = VNum (decimal p)))
  /\ (~ BracketedWithPort s ->
      ~ (exists h p, s = h +:+ ":" +:+ p /\ h <> "" /\ countChar ":" h = 0
                     /\ isDigits p = true) ->
      ServerStatus.host st = VStr s
      /\ ((forall text, afterFirstColon address = Some text -> readsSafely text = true) ->
          ServerStatus.port st = VNum (portFromAddr address serverType))).
Proof.
  intros H Eo Np Hs.
  destruct (normalize_online_inv _ _ _ _ H Eo)
    as (hp & m & pl & ns & _ & Hr & _ & _ & _ & -> & -> & _).
  rewrite (resolveHostPort_string data _ s _ Np Hs) in Hr. injection Hr as <-.
  split; [|split].
  - intros h p -> Hne Hc Hnb Hp.
    rewrite (matchIpv6WithPort_host_port h p Hc Hnb Hp).
    assert (E : matchHostPort (h +:+ ":" +:+ p) = Some (h, p))
      by now apply matchHostPort_spec.
    now rewrite E.
  - intros h p -> Hne Hl Hp.
    assert (E : matchIpv6WithPort ("[" +:+ h +:+ "]:" +:+ p) = Some (h, p))
      by now apply matchIpv6WithPort_spec.
    now rewrite E.
  - intros Hb Hh. apply matchIpv6WithPort_None in Hb. rewrite Hb.
    destruct (matchHostPort s) as [[m1 m2]|] eqn:E; [|now split].
    exfalso. apply Hh. exists m1, m2. now apply matchHostPort_spec.
Qed.

(** X10.  When an online payload names no host ([hostname], [host] and
    [server] all falsy) and no port, the record has the text of the address
    before its first colon as host and as port the number [parseInt] reads
    after that colon, or the default port of the family when it reads none
    or zero, provided [parseInt] reads that text exactly (nothing, or a
    safe integer). *)
Theorem normalize_falls_back_on_address
        (data : value) (address : string) (serverType : ServerType)
        (st : ServerStatus.t) :
  normalizeApiResponse data address serverType = Ok st ->
  ServerStatus.online st = true ->
  truthy (prop data "hostname" ||| prop data "host" ||| prop data "server") = false ->
  nullish (prop data "port" ??? prop data "ipv6Port") = true ->
  ServerStatus.host st = VStr (beforeFirstColon address)
  /\ ((forall text, afterFirstColon address = Some text -> readsSafely text = true) ->
      ServerStatus.port st = VNum (portFromAddr address serverType)).
Proof.
  intros H Eo Hn Np.
  destruct (normalize_online_inv _ _ _ _ H Eo)
    as (hp & m & pl & ns & _ & Hr & _ & _ & _ & -> & -> & _).
  assert (Hs : prop data "hostname" ||| prop data "host" ||| prop data "server"
               ||| VStr (beforeFirstColon address) = VStr (beforeFirstColon address)).
  { unfold JSValue.or at 1. now rewrite Hn. }
  rewrite (resolveHostPort_string data _ _ _ Np Hs) in Hr. injection Hr as <-.
  pose proof (beforeFirstColon_no_colon address) as Hc.
  assert (E1 : matchIpv6WithPort (beforeFirstColon address) = None).
  { apply matchIpv6WithPort_None. intros (h & p & E & _).
    rewrite E, !countChar_append in Hc. cbn in Hc. lia. }
  assert (E2 : matchHostPort (beforeFirstColon address) = None).
  { destruct (matchHostPort _) as [[m1 m2]|] eqn:E; [|reflexivity].
    apply matchHostPort_spec in E as (E & _).
    rewrite E, !countChar_append in Hc. cbn in Hc. lia. }
  now rewrite E1, E2.
Qed.

Lemma normalize_explicit_port_witness :
  exists st,
    normalizeApiResponse
      (VObj [("host", VStr "mc.example.com:25566"); ("port", VNum 25570)])
      "mc.example.com" java = Ok st
    /\ ServerStatus.port st = VNum 25570
    /\ ServerStatus.host st = VStr "mc.example.com:25566".
Proof.
  eexists. split; [reflexivity|].
  apply (normalize_explicit_port
           (VObj [("host", VStr "mc.example.com:25566"); ("port", VNum 25570)])
           "mc.example.com" java); reflexivity.
Defined.

Lemma normalize_host_embedded_port_witness :
  exists st,
    normalizeApiResponse (VObj [("hostname", VStr "play.example.net:19133")])
                         "play.example.net" bedrock = Ok st
    /\ ServerStatus.host st = VStr "play.example.net"
    /\ ServerStatus.port st = VNum 19133.
Proof.
  eexists. split; [reflexivity|].
  destruct (proj1 (normalize_host_embedded_port
                     (VObj [("hostname", VStr "play.example.net:19133")])
                     "play.example.net" bedrock _ "play.example.net:19133"
                     eq_refl eq_refl eq_refl eq_refl) "play.example.net" "19133")
    as [Hh Hp]; try reflexivity; try discriminate.
  - intros (h & E & _). discriminate.
  - split; [exact Hh | exact (Hp eq_refl)].
Defined.

Lemma normalize_falls_back_on_address_witness :
  exists st,
    normalizeApiResponse (VObj [("players", VObj [("online", VNum 3)])])
                         "mc.example.com:25566" java = Ok st
    /\ ServerStatus.host st = VStr "mc.example.com"
    /\ ServerStatus.port st = VNum 25566.
Proof.
  eexists. split; [reflexivity|].
  destruct (normalize_falls_back_on_address
              (VObj [("players", VObj [("online", VNum 3)])]) "mc.example.com:25566" java
              _ eq_refl eq_refl eq_refl eq_refl) as [Hh Hp].
  split; [exact Hh|]. apply Hp.
  intros text H. vm_compute in H. injection H as <-. reflexivity.
Defined.

(** X11.  The four ways a payload lists its players give the same list in
    the record: the names as [players.list]; or as the [name] of the entries
    of [players.sample]; or as [players] itself; or as [player_list], each
    read only when the ones before it are missing. *)
Theorem normalize_player_list_conventions
        (data : value) (address : string) (serverType : ServerType)
        (st : ServerStatus.t) (names : list string) :
  normalizeApiResponse data address serverType = Ok st ->
  ServerStatus.online st = true ->
  prop (prop data "players") "list" = VArr (map VStr names)
  \/ (truthy (prop (prop data "players") "list") = false
      /\ exists sample,
          prop (prop data "players") "sample" = VArr sample
          /\ Forall2 (fun p n => nullish p = false /\ prop p "name" = VStr n) sample names)
  \/ prop data "players" = VArr (map VStr names)
  \/ (truthy (prop (prop data "players") "list") = false
      /\ nullish (prop (prop data "players") "sample") = true
      /\ isArray (prop data "players") = false
      /\ prop data "player_list" = VArr (map VStr names)) ->
  Players.list (ServerStatus.players st) = VArr (map VStr names).
Proof.
  intros H Eo Hcases.
  destruct (normalize_online_inv _ _ _ _ H Eo)
    as (hp & m & pl & ns & _ & _ & _ & Hpl & Hns & _ & _ & _ & -> & _).
  assert (pl = VArr (map VStr names)) as ->.
  { revert Hpl. unfold playerList.
    destruct Hcases as [E | [(Hl & sample & E & Hf) | [E | (Hl & Hsn & Ha & E)]]].
    - rewrite E. cbn [truthy]. congruence.
    - rewrite Hl, E. cbn [nullish]. rewrite (sample_names sample names Hf).
      cbn [bind truthy]. congruence.
    - rewrite E. cbn [prop truthy nullish bind isArray]. congruence.
    - rewrite Hl, Hsn, Ha. cbn [bind truthy]. rewrite E. congruence. }
  rewrite playerNames_strings in Hns. congruence.
Qed.

Lemma normalize_player_list_conventions_witness :
  exists st,
    normalizeApiResponse
      (VObj [("players", VObj [("sample", VArr [VObj [("name", VStr "Steve"); ("id", VStr "8667ba71")];
                                                VObj [("name", VStr "Alex")]])])])
      "mc.example.com" java = Ok st
    /\ Players.list (ServerStatus.players st) = VArr (map VStr ["Steve"; "Alex"]).
Proof.
  eexists. split; [reflexivity|].
  apply (normalize_player_list_conventions
           (VObj [("players", VObj [("sample", VArr [VObj [("name", VStr "Steve"); ("id", VStr "8667ba71")];
                                                     VObj [("name", VStr "Alex")]])])])
           "mc.example.com" java _ ["Steve"; "Alex"]);
    [reflexivity | reflexivity |].
  right. left. split; [reflexivity|]. eexists. split; [reflexivity|].
  repeat constructor.
Defined.

(** X12.  The message of the day of an online record: a non-empty string
    [motd] as it is; the strings of [motd.clean], or of [motd.raw] when
    [clean] is falsy, joined by line feeds; and, when [motd] is falsy,
    [description.text] or else [description]. *)
Theorem normalize_motd
        (data : value) (address : string) (serverType : ServerType)
        (st : ServerStatus.t) :
  normalizeApiResponse data address serverType = Ok st ->
  ServerStatus.online st = true ->
  (forall s, prop data "motd" = VStr s -> s <> "" -> ServerStatus.motd st = VStr s)
  /\ (forall props lines,
         prop data "motd" = VObj props ->
         lookup "clean" props = VArr (map VStr lines) ->
         ServerStatus.motd st = VStr (join nl lines))
  /\ (forall props lines,
         prop data "motd" = VObj props ->
         truthy (lookup "clean" props) = false ->
         lookup "raw" props = VArr (map VStr lines) ->
         ServerStatus.motd st = VStr (join nl lines))
  /\ (truthy (prop data "motd") = false ->
      ServerStatus.motd st
      = prop (prop data "description") "text" ||| prop data "description").
Proof.
  intros H Eo.
  destruct (normalize_online_inv _ _ _ _ H Eo)
    as (hp & m & pl & ns & _ & _ & Hm & _ & _ & _ & _ & -> & _).
  revert Hm. unfold motdText. repeat split.
  - intros s E Hne. rewrite E in Hm. apply isEmpty_false in Hne.
    cbn [truthy isString] in Hm. rewrite Hne in Hm. cbn in Hm. congruence.
  - intros props lines E Hc. rewrite E in Hm. cbn [truthy negb isString isObject prop] in Hm.
    rewrite Hc in Hm. cbn [JSValue.or truthy] in Hm.
    rewrite arrayJoin_strings in Hm. cbn [bind] in Hm. congruence.
  - intros props lines E Hc Hr. rewrite E in Hm.
    cbn [truthy negb isString isObject prop] in Hm.
    unfold JSValue.or in Hm. rewrite Hc, Hr in Hm.
    rewrite arrayJoin_strings in Hm. cbn [bind] in Hm. congruence.
  - intros E. rewrite E in Hm. cbn [negb] in Hm. congruence.
Qed.

Lemma normalize_motd_witness :
  exists st,
    normalizeApiResponse
      (VObj [("motd", VObj [("raw", VArr [VStr "&aWelcome"; VStr "&bsurvival"]);
                            ("clean", VArr [VStr "Welcome"; VStr "survival"])])])
      "mc.example.com" java = Ok st
    /\ ServerStatus.motd st = VStr (join nl ["Welcome"; "survival"]).
Proof.
  eexists. split; [reflexivity|].
  eapply (proj1 (proj2 (normalize_motd
                          (VObj [("motd", VObj [("raw", VArr [VStr "&aWelcome"; VStr "&bsurvival"]);
                                                ("clean", VArr [VStr "Welcome"; VStr "survival"])])])
                          "mc.example.com" java _ eq_refl eq_refl)));
    reflexivity.
Defined.

(* ================================================================== *)
(** * [fetchServerStatus]: every way the query ends *)
(* ================================================================== *)

Section QueryFacts.

Lemma firstFulfilled_app (pre post : list Settled) (v : value) :
  Forall (fun o => exists r, o = Rejected r) pre ->
  firstFulfilled (pre ++ Fulfilled v :: post) = v.
Proof. induction 1 as [|o pre [r ->] _ IH]; [reflexivity | exact IH]. Qed.

Lemma set_ping_online (p : value) (st : ServerStatus.t) :
  ServerStatus.online (ServerStatus.set_ping p st) = ServerStatus.online st.
Proof. reflexivity. Qed.

Lemma validateServerAddress_Some (input a : string) :
  validateServerAddress input = Some a -> a = input.
Proof.
  rewrite validateServerAddress_eq. cbv zeta.
  repeat match goal with
         | |- context [if ?b then _ else _] => destruct b
         | |- context [match ?b with Some _ => _ | None => _ end] => destruct b
         end; congruence.
Qed.

(** [fetchServerStatus] in terms of the address it was given. *)
Lemma fetchServerStatus_eq
      (w : World.t) (server : string) (serverType : ServerType)
      (config : option Config.t) :
  fetchServerStatus w server serverType config =
  let a := parseServerAddress server (defaultPortOf serverType) in
  match validateServerAddress server with
  | None =>
      Some (Ok (offlineStatus (VStr (Address.host a)) (VNum (Address.port a))
                  (VStr MSG_INVALID_ADDRESS)))
  | Some _ =>
      if isEmpty server
      then Some (Ok (offlineStatus (VStr (Address.host a)) (VNum (Address.port a))
                       (VStr MSG_INVALID_ADDRESS)))
      else
        match Promise.allSettled
                (requests w server (apiEndpointsOf config serverType))
                (World.schedule w) with
        | None => None
        | Some apiResults => conclude w server serverType apiResults
        end
  end.
Proof.
  unfold fetchServerStatus. cbv zeta.
  destruct (validateServerAddress server) as [address|] eqn:Hv; [|reflexivity].
  now rewrite (validateServerAddress_Some server address Hv).
Qed.

End QueryFacts.

Section QueryOutcomes.

Variable w : World.t.
Variable server : string.
Variable serverType : ServerType.
Variable config : option Config.t.

#[local] Abbreviation parsed := (parseServerAddress server (defaultPortOf serverType)).
#[local] Abbreviation invalidAddress :=
  (offlineStatus (VStr (Address.host parsed)) (VNum (Address.port parsed))
     (VStr MSG_INVALID_ADDRESS)).
#[local] Abbreviation endpoints := (apiEndpointsOf config serverType).

Lemma conclude_inv (apiResults : list Settled) (st : ServerStatus.t) :
  conclude w server serverType apiResults = Some (Ok st) ->
  (ServerStatus.online st = false /\ st = lookupFailed parsed)
  \/ (ServerStatus.online st = true
      /\ truthy (firstFulfilled apiResults) = true
      /\ exists st0 p,
          normalizeApiResponse (firstFulfilled apiResults) server serverType = Ok st0
          /\ ServerStatus.online st0 = true
          /\ World.pingServer w (ServerStatus.host st0) (ServerStatus.port st0) serverType
             = Some (Ok p)
          /\ st = ServerStatus.set_ping p st0).
Proof.
  unfold conclude. destruct (truthy (firstFulfilled apiResults)) eqn:Ht.
  - destruct (normalizeApiResponse _ _ _) as [st0|] eqn:En; [|discriminate].
    destruct (ServerStatus.online st0) eqn:Eo.
    + destruct (World.pingServer _ _ _ _) as [[p|]|] eqn:Ep; cbn [bind];
        [|discriminate..].
      intros [= <-]. right. repeat split; [exact Eo|]. now exists st0, p.
    + intros [= <-]. now left.
  - intros [= <-]. now left.
Qed.

Lemma fetchServerStatus_inv (st : ServerStatus.t) :
  fetchServerStatus w server serverType config = Some (Ok st) ->
  ((validateServerAddress server = None \/ server = "") /\ st = invalidAddress)
  \/ (validateServerAddress server = Some server /\ server <> ""
      /\ conclude w server serverType (requests w server endpoints) = Some (Ok st)).
Proof.
  rewrite fetchServerStatus_eq. cbv zeta.
  destruct (validateServerAddress server) as [address|] eqn:Hv.
  - rewrite (validateServerAddress_Some server address Hv) in *.
    destruct (isEmpty server) eqn:Ee.
    + intros [= <-]. left. split; [right; now apply isEmpty_true | reflexivity].
    + destruct (Promise.allSettled _ _) as [apiResults|] eqn:Ea; [|discriminate].
      intros Hc. right. split; [reflexivity|]. split; [now apply isEmpty_false|].
      assert (apiResults = requests w server endpoints) as ->; [|exact Hc].
      destruct (decide (Forall (fun i => i ∈ World.schedule w)
                               (seq 0 (length (requests w server endpoints)))))
        as [Hall|Hex].
      * rewrite allSettled_all in Ea; [congruence|].
        intros i Hi. rewrite Forall_forall in Hall. apply Hall, elem_of_seq. lia.
      * apply not_Forall_Exists in Hex; [|intros x; apply _].
        apply Exists_exists in Hex as (i & Hi & Hn). apply elem_of_seq in Hi.
        rewrite (allSettled_pending _ _ i) in Ea; [discriminate | lia | exact Hn].
  - intros [= <-]. left. split; [now left | reflexivity].
Qed.

End QueryOutcomes.

Section OnlineRecord.

Lemma normalize_online_error
      (data : value) (address : string) (serverType : ServerType) (st : ServerStatus.t) :
  normalizeApiResponse data address serverType = Ok st ->
  ServerStatus.online st = true -> ServerStatus.error st = VUndefined.
Proof.
  unfold normalizeApiResponse.
  destruct (nullish data); [discriminate|].
  destruct (classifiedOffline data) as [[|]|]; cbn [bind]; [| |discriminate].
  - intros [= <-]. discriminate.
  - destruct (resolveHostPort _ _ _) as [hp|]; cbn [bind]; [|discriminate].
    destruct (motdText data) as [m|]; cbn [bind]; [|discriminate].
    destruct (playerList data) as [pl|]; cbn [bind]; [|discriminate].
    destruct (playerNames pl) as [ns|]; cbn [bind]; [|discriminate].
    now intros [= <-].
Qed.

Lemma all_settled_dec (n : nat) (schedule : list nat) :
  (forall i, i < n -> i ∈ schedule) \/ (exists i, i < n /\ i ∉ schedule).
Proof.
  destruct (decide (Forall (fun i => i ∈ schedule) (seq 0 n))) as [Hall|Hex].
  - left. intros i Hi. rewrite Forall_forall in Hall. apply Hall, elem_of_seq. lia.
  - right. apply not_Forall_Exists in Hex; [|intros x; apply _].
    apply Exists_exists in Hex as (i & Hi & Hn). apply elem_of_seq in Hi.
    exists i. split; [lia | exact Hn].
Qed.

End OnlineRecord.

(** X13.  An address that [validateServerAddress] refuses, and the empty
    address, are answered at once with the offline record whose error is
    ['无效地址'] and whose host and port are parsed from the input, whatever
    the providers and the network do; and no other query ever resolves
    with that error. *)
Theorem fetchServerStatus_invalid_address
        (w : World.t) (server : string) (serverType : ServerType)
        (config : option Config.t) :
  (validateServerAddress server = None \/ server = "" ->
   fetchServerStatus w server serverType config =
   Some (Ok (offlineStatus
               (VStr (Address.host (parseServerAddress server (defaultPortOf serverType))))
               (VNum (Address.port (parseServerAddress server (defaultPortOf serverType))))
               (VStr MSG_INVALID_ADDRESS))))
  /\ (forall st,
         fetchServerStatus w server serverType config = Some (Ok st) ->
         ServerStatus.error st = VStr MSG_INVALID_ADDRESS ->
         validateServerAddress server = None \/ server = "").
Proof.
  split.
  - intros H. rewrite fetchServerStatus_eq. cbv zeta.
    destruct H as [-> | ->]; reflexivity.
  - intros st H He.
    destruct (fetchServerStatus_inv _ _ _ _ _ H) as [[Hc _] | (_ & _ & Hc)]; [exact Hc|].
    exfalso.
    destruct (conclude_inv _ _ _ _ _ Hc) as [[_ ->] | (_ & _ & st0 & p & Hn & Eo & _ & ->)].
    + discriminate.
    + pose proof (normalize_online_error _ _ _ _ Hn Eo) as E.
      cbn [ServerStatus.set_ping ServerStatus.error] in He. congruence.
Qed.

(** X14.  Whenever [fetchServerStatus] resolves with an offline record, the
    record is the literal of the source with the host and port parsed from
    the input, no version, no player list, no latency, and as error one of
    the two fixed messages ['无效地址'] and ['查询失败']: nothing of what a
    provider sent is in it. *)
Theorem fetchServerStatus_offline_outcomes
        (w : World.t) (server : string) (serverType : ServerType)
        (config : option Config.t) (st : ServerStatus.t) :
  fetchServerStatus w server serverType config = Some (Ok st) ->
  ServerStatus.online st = false ->
  exists message,
    (message = MSG_INVALID_ADDRESS \/ message = MSG_LOOKUP_FAILED)
    /\ st = offlineStatus
              (VStr (Address.host (parseServerAddress server (defaultPortOf serverType))))
              (VNum (Address.port (parseServerAddress server (defaultPortOf serverType))))
              (VStr message).
Proof.
  intros H Eo.
  destruct (fetchServerStatus_inv _ _ _ _ _ H) as [[_ ->] | (_ & _ & Hc)].
  - exists MSG_INVALID_ADDRESS. split; [now left | reflexivity].
  - destruct (conclude_inv _ _ _ _ _ Hc) as [[_ ->] | (Eo' & _)]; [|congruence].
    exists MSG_LOOKUP_FAILED. split; [now right | reflexivity].
Qed.

Lemma fetchServerStatus_offline_outcomes_witness :
  exists message,
    (message = MSG_INVALID_ADDRESS \/ message = MSG_LOOKUP_FAILED)
    /\ lookupFailed (mkAddress "play.example.net" 19133)
       = offlineStatus
           (VStr (Address.host (parseServerAddress "play.example.net:19133"
                                  (defaultPortOf bedrock))))
           (VNum (Address.port (parseServerAddress "play.example.net:19133"
                                  (defaultPortOf bedrock))))
           (VStr message).
Proof.
  apply (fetchServerStatus_offline_outcomes
           (World.mk (fun _ _ => Response false 503 None) [0] (fun _ _ _ => Some (Ok (VNum 42))))
           "play.example.net:19133" bedrock
           (Some (Config.mk (Some [Api.mk bedrock "https://api.example/${address}"]) ""))
           (lookupFailed (mkAddress "play.example.net" 19133)));
    reflexivity.
Defined.

(** X15.  For an accepted address, [fetchServerStatus] is still waiting
    exactly while one of its requests has not settled or, all of them
    having settled, while the latency probe of the online record that the
    first fulfilled payload normalises to has not resolved: in every other
    case it has resolved or rejected. *)
Theorem fetchServerStatus_pending_iff
        (w : World.t) (server address : string) (serverType : ServerType)
        (config : option Config.t) :
  validateServerAddress server = Some address -> address <> "" ->
  (fetchServerStatus w server serverType config = None
   <-> (exists i, i < length (apiEndpointsOf config serverType) /\ i ∉ World.schedule w)
       \/ ((forall i, i < length (apiEndpointsOf config serverType) ->
                       i ∈ World.schedule w)
           /\ exists st,
               truthy (firstFulfilled
                         (requests w address (apiEndpointsOf config serverType))) = true
               /\ normalizeApiResponse
                    (firstFulfilled (requests w address (apiEndpointsOf config serverType)))
                    address serverType = Ok st
               /\ ServerStatus.online st = true
               /\ World.pingServer w (ServerStatus.host st) (ServerStatus.port st)
                    serverType = None)).
Proof.
  intros Hv Hne.
  destruct (all_settled_dec (length (apiEndpointsOf config serverType)) (World.schedule w))
    as [Hall | (i & Hi & Hn)].
  - rewrite (fetchServerStatus_settled w server address serverType config Hv Hne Hall).
    unfold conclude. split.
    + intros H. right. split; [exact Hall|].
      destruct (truthy _) eqn:Ht; [|discriminate].
      destruct (normalizeApiResponse _ _ _) as [st|] eqn:En; [|discriminate].
      destruct (ServerStatus.online st) eqn:Eo; [|discriminate].
      destruct (World.pingServer _ _ _ _) as [probe|] eqn:Ep; [discriminate|].
      now exists st.
    + intros [(i & Hi & Hn) | (_ & st & Ht & En & Eo & Ep)].
      * now specialize (Hall i Hi).
      * now rewrite Ht, En, Eo, Ep.
  - unfold fetchServerStatus. rewrite Hv.
    apply isEmpty_false in Hne. rewrite Hne.
    rewrite (allSettled_pending _ _ i) by (rewrite ?requests_length; assumption).
    split; [|reflexivity]. intros _. left. now exists i.
Qed.

(** Both requests have answered and the probe of the online record is
    still under way. *)
Lemma fetchServerStatus_pending_iff_witness :
  fetchServerStatus
    (World.mk (fun i _ => match i with
                          | 0 => NetworkError
                          | _ => Response true 200 (Some (VObj [("online", VBool true)]))
                          end)
              [1; 0] (fun _ _ _ => None))
    "mc.example.com" java
    (Some (Config.mk (Some [Api.mk java "https://one.example/${address}";
                            Api.mk java "https://two.example/${address}"]) ""))
  = None.
Proof.
  apply (fetchServerStatus_pending_iff
           (World.mk (fun i _ => match i with
                                 | 0 => NetworkError
                                 | _ => Response true 200
                                          (Some (VObj [("online", VBool true)]))
                                 end)
                     [1; 0] (fun _ _ _ => None))
           "mc.example.com" "mc.example.com" java
           (Some (Config.mk (Some [Api.mk java "https://one.example/${address}";
                                   Api.mk java "https://two.example/${address}"]) ""))
           eq_refl);
    [discriminate|].
  right. split.
  - intros i Hi. cbn in Hi |- *.
    assert (i = 0 \/ i = 1) as [-> | ->] by lia; repeat constructor.
  - eexists. repeat split; reflexivity.
Defined.

(** X16.  With no endpoint for the family, the query of an accepted address
    resolves at once with the record of a failed lookup, whatever the
    schedule; and there is no endpoint when the configuration is missing,
    when it has no [serverApis], and when every entry of [serverApis] is of
    the other family. *)
Theorem fetchServerStatus_no_endpoint :
  (forall w server address serverType config,
      validateServerAddress server = Some address -> address <> "" ->
      apiEndpointsOf config serverType = [] ->
      fetchServerStatus w server serverType config =
      Some (Ok (lookupFailed (parseServerAddress address (defaultPortOf serverType)))))
  /\ (forall serverType, apiEndpointsOf None serverType = [])
  /\ (forall serverType template,
         apiEndpointsOf (Some (Config.mk None template)) serverType = [])
  /\ (forall serverType apis template,
         Forall (fun api => Api.type api <> serverType) apis ->
         apiEndpointsOf (Some (Config.mk (Some apis) template)) serverType = []).
Proof.
  split; [|split; [|split]]; try reflexivity.
  - intros w server address serverType config Hv Hne He.
    unfold fetchServerStatus. rewrite Hv. apply isEmpty_false in Hne. rewrite Hne, He.
    cbn [requests imap]. unfold Promise.allSettled, Promise.run.
    cbn [length replicate]. 
    assert (E : foldl (Promise.step []) [] (World.schedule w) = []).
    { induction (World.schedule w) as [|i l IH]; [reflexivity|]. cbn [foldl].
      unfold Promise.step at 2. now rewrite lookup_nil. }
    now rewrite E.
  - intros serverType apis template H. unfold apiEndpointsOf.
    cbn [Config.serverApis].
    induction H as [|api apis Hx _ IH]; [reflexivity|]. cbn [List.filter].
    destruct (ServerType_eqb (Api.type api) serverType) eqn:E; [|exact IH].
    exfalso. apply Hx. destruct (Api.type api), serverType; (reflexivity || discriminate).
Qed.

(** X17.  Once every request has settled, the query of an accepted address
    resolves with the record of a failed lookup when every request failed
    (no answer, a status that is not [ok], or a body that does not parse),
    and also when the first request that succeeded, in the order of the
    configuration, answered a falsy payload such as [null]: the payloads of
    the requests after it are not looked at. *)
Theorem fetchServerStatus_no_usable_payload
        (w : World.t) (server address : string) (serverType : ServerType)
        (config : option Config.t) :
  validateServerAddress server = Some address -> address <> "" ->
  (forall i, i < length (apiEndpointsOf config serverType) -> i ∈ World.schedule w) ->
  ((forall i url, World.fetch w i url = NetworkError
                  \/ (exists status json, World.fetch w i url = Response false status json)
                  \/ (exists status, World.fetch w i url = Response true status None)) ->
   fetchServerStatus w server serverType config =
   Some (Ok (lookupFailed (parseServerAddress address (defaultPortOf serverType)))))
  /\ (forall pre v post,
         requests w address (apiEndpointsOf config serverType) = pre ++ Fulfilled v :: post ->
         Forall (fun o => exists r, o = Rejected r) pre ->
         truthy v = false ->
         fetchServerStatus w server serverType config =
         Some (Ok (lookupFailed (parseServerAddress address (defaultPortOf serverType))))).
Proof.
  intros Hv Hne Hall.
  rewrite (fetchServerStatus_settled w server address serverType config Hv Hne Hall).
  split.
  - intros Hfail. unfold conclude. rewrite firstFulfilled_none; [reflexivity|].
    intros o Ho. unfold requests in Ho.
    apply elem_of_lookup_imap in Ho as (i & url & -> & _).
    destruct (Hfail i (replace "${address}" address url))
      as [-> | [(status & json & ->) | (status & ->)]]; cbn [settledOf]; eauto.
  - intros pre v post E Hpre Hf. unfold conclude.
    now rewrite E, (firstFulfilled_app pre post v Hpre), Hf.
Qed.

Lemma fetchServerStatus_no_usable_payload_witness :
  fetchServerStatus
    (World.mk (fun i _ => match i with
                          | 0 => Response false 502 None
                          | 1 => Response true 200 (Some VNull)
                          | _ => Response true 200 (Some (VObj [("online", VBool true)]))
                          end)
              [2; 0; 1] (fun _ _ _ => Some (Ok (VNum 42))))
    "mc.example.com" java
    (Some (Config.mk (Some [Api.mk java "https://one.example/${address}";
                            Api.mk java "https://two.example/${address}";
                            Api.mk java "https://three.example/${address}"]) ""))
  = Some (Ok (lookupFailed (parseServerAddress "mc.example.com" (defaultPortOf java)))).
Proof.
  refine (proj2 (fetchServerStatus_no_usable_payload
                   (World.mk (fun i _ => match i with
                                         | 0 => Response false 502 None
                                         | 1 => Response true 200 (Some VNull)
                                         | _ => Response true 200
                                                  (Some (VObj [("online", VBool true)]))
                                         end)
                             [2; 0; 1] (fun _ _ _ => Some (Ok (VNum 42))))
                   "mc.example.com" "mc.example.com" java
                   (Some (Config.mk (Some [Api.mk java "https://one.example/${address}";
                                           Api.mk java "https://two.example/${address}";
                                           Api.mk java "https://three.example/${address}"]) ""))
                   eq_refl _ _)
                [Rejected "API 请求失败: 502"] VNull
                [Fulfilled (VObj [("online", VBool true)])] eq_refl _ eq_refl).
  - discriminate.
  - intros i Hi. cbn in Hi |- *.
    assert (i = 0 \/ i = 1 \/ i = 2) as [-> | [-> | ->]] by lia;
      repeat constructor.
  - repeat constructor. now exists "API 请求失败: 502".
Defined.

(** X18.  Once every request has settled, when the payload of the first
    request that succeeded, in the order of the configuration, is truthy
    and normalises to an online record, the latency probe goes to the host
    and port of that record (not to those parsed from the input); the
    query is pending while the probe is, and then resolves with the record
    and the latency the probe gave, or rejects as the probe does. *)
Theorem fetchServerStatus_online
        (w : World.t) (server address : string) (serverType : ServerType)
        (config : option Config.t)
        (pre post : list Settled) (v : value) (st : ServerStatus.t) :
  validateServerAddress server = Some address -> address <> "" ->
  (forall i, i < length (apiEndpointsOf config serverType) -> i ∈ World.schedule w) ->
  requests w address (apiEndpointsOf config serverType) = pre ++ Fulfilled v :: post ->
  Forall (fun o => exists r, o = Rejected r) pre ->
  truthy v = true ->
  normalizeApiResponse v address serverType = Ok st ->
  ServerStatus.online st = true ->
  fetchServerStatus w server serverType config =
  match World.pingServer w (ServerStatus.host st) (ServerStatus.port st) serverType with
  | None => None
  | Some probe => Some (p <- probe ;; Ok (ServerStatus.set_ping p st))
  end.
Proof.
  intros Hv Hne Hall E Hpre Ht Hn Eo.
  rewrite (fetchServerStatus_settled w server address serverType config Hv Hne Hall).
  unfold conclude. rewrite E, (firstFulfilled_app pre post v Hpre), Ht, Hn.
  now rewrite Eo.
Qed.

Lemma fetchServerStatus_online_witness :
  exists st,
    normalizeApiResponse (VObj [("host", VStr "node7.example.org"); ("port", VNum 25570)])
                         "mc.example.com" java = Ok st
    /\ fetchServerStatus
         (World.mk (fun _ _ => Response true 200
                                 (Some (VObj [("host", VStr "node7.example.org");
                                              ("port", VNum 25570)])))
                   [0]
                   (fun host port _ =>
                      match host, port with
                      | VStr "node7.example.org", VNum 25570 => Some (Ok (VNum 42))
                      | _, _ => Some (Ok (VNum (-1)))
                      end))
         "mc.example.com" java
         (Some (Config.mk (Some [Api.mk java "https://api.example/${address}"]) ""))
       = Some (Ok (ServerStatus.set_ping (VNum 42) st)).
Proof.
  eexists. split; [reflexivity|].
  etransitivity.
  - apply (fetchServerStatus_online
             (World.mk (fun _ _ => Response true 200
                                     (Some (VObj [("host", VStr "node7.example.org");
                                                  ("port", VNum 25570)])))
                       [0]
                       (fun host port _ =>
                          match host, port with
                          | VStr "node7.example.org", VNum 25570 => Some (Ok (VNum 42))
                          | _, _ => Some (Ok (VNum (-1)))
                          end))
             "mc.example.com" "mc.example.com" java
             (Some (Config.mk (Some [Api.mk java "https://api.example/${address}"]) ""))
             [] []
             (VObj [("host", VStr "node7.example.org"); ("port", VNum 25570)]));
      try reflexivity.
    + discriminate.
    + intros i Hi. cbn in Hi |- *. assert (i = 0) as -> by lia. constructor.
    + constructor.
  - reflexivity.
Defined.

(** X19.  Nothing in [fetchServerStatus] catches what
    [normalizeApiResponse] throws: when the payload of the first request
    that succeeded, in the order of the configuration, has a number as
    [status] (and [online] is not [false]), the query rejects with a
    [TypeError], whatever the other providers answered. *)
Theorem fetchServerStatus_rejects
        (w : World.t) (server address : string) (serverType : ServerType)
        (config : option Config.t)
        (pre post : list Settled) (v : value) (n : Z) :
  validateServerAddress server = Some address -> address <> "" ->
  (forall i, i < length (apiEndpointsOf config serverType) -> i ∈ World.schedule w) ->
  requests w address (apiEndpointsOf config serverType) = pre ++ Fulfilled v :: post ->
  Forall (fun o => exists r, o = Rejected r) pre ->
  isFalse (prop v "online") = false -> prop v "status" = VNum n ->
  fetchServerStatus w server serverType config = Some (Throw TypeError).
Proof.
  intros Hv Hne Hall E Hpre Ho Hs.
  rewrite (fetchServerStatus_settled w server address serverType config Hv Hne Hall).
  unfold conclude. rewrite E, (firstFulfilled_app pre post v Hpre).
  destruct v as [| | | | | |props]; try discriminate. cbn [truthy].
  unfold normalizeApiResponse. cbn [nullish]. unfold classifiedOffline.
  rewrite Ho, Hs. reflexivity.
Qed.

Lemma fetchServerStatus_rejects_witness :
  fetchServerStatus
    (World.mk (fun i _ => match i with
                          | 0 => Response true 200
                                   (Some (VObj [("status", VNum 200); ("online", VBool true)]))
                          | _ => Response true 200 (Some (VObj [("online", VBool true)]))
                          end)
              [0; 1] (fun _ _ _ => Some (Ok (VNum 42))))
    "mc.example.com" java
    (Some (Config.mk (Some [Api.mk java "https://one.example/${address}";
                            Api.mk java "https://two.example/${address}"]) ""))
  = Some (Throw TypeError).
Proof.
  apply (fetchServerStatus_rejects
           (World.mk (fun i _ => match i with
                                 | 0 => Response true 200
                                          (Some (VObj [("status", VNum 200);
                                                       ("online", VBool true)]))
                                 | _ => Response true 200 (Some (VObj [("online", VBool true)]))
                                 end)
                     [0; 1] (fun _ _ _ => Some (Ok (VNum 42))))
           "mc.example.com" "mc.example.com" java _
           [] [Fulfilled (VObj [("online", VBool true)])]
           (VObj [("status", VNum 200); ("online", VBool true)]) 200);
    try reflexivity.
  - discriminate.
  - intros i Hi. cbn in Hi |- *.
    assert (i = 0 \/ i = 1) as [-> | ->] by lia;
      repeat constructor.
  - constructor.
Defined.

(* ================================================================== *)
(** * The URL of a request *)
(* ================================================================== *)

Section UrlFacts.

#[local] Abbreviation addressMark := "${address}".

Lemma prefix_pattern_other (c : ascii) (r : string) :
  c <> "$"%char -> String.prefix addressMark (String c r) = false.
Proof.
  intros H.
  change (String.prefix addressMark (String c r))
    with (if ascii_dec "$" c then String.prefix "{address}" r else false).
  destruct (ascii_dec "$" c); congruence.
Qed.

Lemma expandReplacement_other (before matched after : string) (x : ascii) (r : string) :
  x <> "$"%char ->
  expandReplacement before matched after (String x r)
  = String x (expandReplacement before matched after r).
Proof.
  intros H. destruct x as [[] [] [] [] [] [] [] []]; try reflexivity. congruence.
Qed.

Lemma countChar_cons_0 (c x : ascii) (r : string) :
  countChar c (String x r) = 0 -> x <> c /\ countChar c r = 0.
Proof.
  cbn [countChar]. destruct (Ascii.eqb_spec x c); [discriminate|]. now split.
Qed.

Lemma expandReplacement_app (before matched after x r : string) :
  countChar "$" x = 0 ->
  expandReplacement before matched after (x +:+ r)
  = x +:+ expandReplacement before matched after r.
Proof.
  induction x as [|c x IH]; [reflexivity|]. intros [Hc Hx]%countChar_cons_0.
  cbn [append]. now rewrite (expandReplacement_other _ _ _ c _ Hc), (IH Hx).
Qed.

Lemma expandReplacement_plain (before matched after r : string) :
  countChar "$" r = 0 -> expandReplacement before matched after r = r.
Proof.
  intros H. rewrite <- (append_empty_r r) at 1.
  rewrite (expandReplacement_app _ _ _ r "" H). cbn [expandReplacement].
  apply append_empty_r.
Qed.

Lemma replaceFrom_skip (before replacement a s : string) :
  countChar "$" a = 0 ->
  replaceFrom before addressMark replacement (a +:+ s)
  = a +:+ replaceFrom (before +:+ a) addressMark replacement s.
Proof.
  revert before. induction a as [|c a IH]; intros before.
  - intros _. now rewrite append_empty_r.
  - intros [Hc Ha]%countChar_cons_0. cbn [append replaceFrom].
    rewrite (prefix_pattern_other c _ Hc), (IH _ Ha). unfold str1.
    rewrite append_assoc. reflexivity.
Qed.

Lemma replaceFrom_here (before replacement b : string) :
  replaceFrom before addressMark replacement (addressMark +:+ b)
  = expandReplacement before addressMark b replacement +:+ b.
Proof. destruct b; reflexivity. Qed.

End UrlFacts.

(** X20.  The URL of a request is the endpoint's with the first
    [${address}] replaced: an endpoint without a dollar sign is requested as
    it is; in an endpoint [a${address}b] (no dollar sign in [a]) an address
    without dollar sign takes the place of the mark, and [b] is left as it
    is, further marks included; and an address that holds [$&] is not
    inserted as typed, the [$&] becomes the mark [${address}] itself. *)
Theorem request_url_template :
  (forall address url,
      countChar "$" url = 0 -> replace "${address}" address url = url)
  /\ (forall address a b,
         countChar "$" a = 0 -> countChar "$" address = 0 ->
         replace "${address}" address (a +:+ "${address}" +:+ b) = a +:+ address +:+ b)
  /\ (forall x y a b,
         countChar "$" a = 0 -> countChar "$" x = 0 -> countChar "$" y = 0 ->
         replace "${address}" (x +:+ "$&" +:+ y) (a +:+ "${address}" +:+ b)
         = a +:+ x +:+ "${address}" +:+ y +:+ b).
Proof.
  unfold replace. split; [|split].
  - intros address url H. rewrite <- (append_empty_r url) at 1.
    rewrite (replaceFrom_skip _ _ url "" H). cbn [replaceFrom String.prefix].
    apply append_empty_r.
  - intros address a b Ha Hx.
    rewrite (replaceFrom_skip _ _ a _ Ha), replaceFrom_here.
    now rewrite (expandReplacement_plain _ _ _ address Hx).
  - intros x y a b Ha Hx Hy.
    rewrite (replaceFrom_skip _ _ a _ Ha), replaceFrom_here.
    rewrite (expandReplacement_app _ _ _ x _ Hx).
    change ("$&" +:+ y) with (String "$" (String "&" y)).
    cbn [expandReplacement Ascii.eqb Bool.eqb].
    rewrite (expandReplacement_plain _ _ _ y Hy).
    now rewrite !append_assoc.
Qed.

(* ================================================================== *)
(** * The latency in the template *)
(* ================================================================== *)

Section PingFacts.

Variable h_image : string -> string.
Variable st : ServerStatus.t.

Lemma getValue_ping_eq (limit : option Z) :
  getValue h_image st "ping" limit =
  let ping := ServerStatus.ping st in
  if nullish ping then Ok VNull
  else match ping with
       | VNum (-1) => Ok VNull
       | _ => s <- toString ping ;; Ok (VStr (s +:+ "ms"))
       end.
Proof. reflexivity. Qed.

Lemma holes_app (ts us : list token) : holes (ts ++ us) = holes ts ++ holes us.
Proof. apply omap_app. Qed.

Lemma placeholders_single (a name b : string) :
  countChar "{" a = 0 -> isName name = true -> countChar "{" b = 0 ->
  placeholders (a +:+ "{" +:+ name +:+ "}" +:+ b)
  = [Placeholder.mk name None (String.length name + 2)].
Proof.
  intros Ha Hn Hb. unfold placeholders.
  rewrite (tokens_plain a name b Ha Hn), (tokens_literal b Hb), holes_app, holes_literal.
  change (holes (Hole ?p :: literal b)) with (p :: holes (literal b)).
  now rewrite holes_literal.
Qed.

End PingFacts.

(** X21.  A latency that is missing or [-1] (the probe failed) resolves
    [{ping}] to [null], and a template line whose only placeholder is
    [{ping}] is then dropped; any other latency [n], [0] included, is shown
    as [n] followed by [ms]. *)
Theorem getValue_ping
        (h_image : string -> string) (st : ServerStatus.t) (limit : option Z) :
  (nullish (ServerStatus.ping st) = true \/ ServerStatus.ping st = VNum (-1) ->
   getValue h_image st "ping" limit = Ok VNull)
  /\ (forall n,
         ServerStatus.ping st = VNum n -> n <> (-1)%Z ->
         getValue h_image st "ping" limit = Ok (VStr (numberToString n +:+ "ms")))
  /\ (forall a b,
         nullish (ServerStatus.ping st) = true \/ ServerStatus.ping st = VNum (-1) ->
         countChar "{" a = 0 -> countChar "{" b = 0 ->
         renderLine h_image st (a +:+ "{ping}" +:+ b) = Ok "").
Proof.
  assert (Hnull : nullish (ServerStatus.ping st) = true \/ ServerStatus.ping st = VNum (-1) ->
                  forall l, getValue h_image st "ping" l = Ok VNull).
  { intros H l. rewrite getValue_ping_eq. cbv zeta.
    destruct H as [-> | ->]; reflexivity. }
  split; [|split].
  - intros H. now apply Hnull.
  - intros n E Hn. rewrite getValue_ping_eq. cbv zeta. rewrite E. cbn [nullish].
    destruct n as [|p|p]; try reflexivity.
    destruct p; try reflexivity. congruence.
  - intros a b H Ha Hb.
    apply renderLine_dropped;
      change (a +:+ "{ping}" +:+ b) with (a +:+ "{" +:+ "ping" +:+ "}" +:+ b);
      rewrite (placeholders_single a "ping" b Ha eq_refl Hb); [discriminate|].
    intros p ->%list_elem_of_singleton. exists VNull. split; [|reflexivity].
    unfold valueOf. cbn [Placeholder.name Placeholder.limitStr limitOf].
    now apply Hnull.
Qed.

(* ================================================================== *)
(** * [formatList] and the lists of names *)
(* ================================================================== *)

Section ListFacts.

Lemma listed_text (item : value) (text : string) :
  listed item text ->
  (version <- get item "version" ;;
   if truthy version then
     a <- toString (prop item "name") ;;
     b <- toString version ;;
     Ok (VStr (a +:+ "-" +:+ b))
   else Ok (prop item "name")) = Ok (VStr text).
Proof.
  intros (Hn & name & En & [[Hv ->] | (version & Ev & Hne & ->)]).
  - unfold get. rewrite Hn. cbn [bind]. now rewrite Hv, En.
  - unfold get. rewrite Hn. cbn [bind]. rewrite Ev, En. cbn [truthy toString bind].
    apply isEmpty_false in Hne. now rewrite Hne.
Qed.

Lemma mapR_Forall2 {A B} (f : A -> result B) (l : list A) (l' : list B) :
  Forall2 (fun x y => f x = Ok y) l l' -> mapR f l = Ok l'.
Proof.
  induction 1 as [|x y l l' Hxy _ IH]; [reflexivity|]. cbn [mapR].
  now rewrite Hxy, IH.
Qed.

Lemma Forall2_firstn {A B} (R : A -> B -> Prop) (n : nat) (l : list A) (l' : list B) :
  Forall2 R l l' -> Forall2 R (firstn n l) (firstn n l').
Proof.
  intros H. revert n. induction H as [|x y l l' Hxy _ IH]; intros [|n]; cbn;
    constructor; auto.
Qed.

(** [formatList] on a non-empty list of entries with names. *)
Lemma formatList_listed (l : list value) (texts : list string) (limit : option Z) :
  Forall2 listed l texts -> l <> [] ->
  formatList (VArr l) limit =
  Ok (VStr (match limit with
            | Some k =>
                if negb (k =? 0)%Z && (k <? Z.of_nat (length l))%Z
                then join ", " (firstn (Z.to_nat k) texts) +:+ "..."
                else join ", " texts
            | None => join ", " texts
            end)).
Proof.
  intros H Hne. unfold formatList. cbn [nullish lengthOf truthy orb].
  assert (Hlen : (Z.of_nat (length l) =? 0)%Z = false).
  { apply Z.eqb_neq. destruct l; [congruence | cbn; lia]. }
  rewrite Hlen. cbn [negb].
  set (n := match limit with
            | Some k => if (k =? 0)%Z then Z.of_nat (length l) else k
            | None => Z.of_nat (length l)
            end).
  assert (Hm : mapR (fun item =>
                       version <- get item "version" ;;
                       if truthy version then
                         a <- toString (prop item "name") ;;
                         b <- toString version ;;
                         Ok (VStr (a +:+ "-" +:+ b))
                       else Ok (prop item "name"))
                    (firstn (Z.to_nat n) l)
               = Ok (map VStr (firstn (Z.to_nat n) texts))).
  { apply mapR_Forall2. rewrite <- firstn_map.
    apply Forall2_firstn.
    clear -H. induction H as [|x y l l' Hxy _ IH]; constructor; [|exact IH].
    now apply listed_text. }
  rewrite Hm. cbn [bind]. rewrite arrayJoin_strings. cbn [bind].
  assert (Hl : length texts = length l) by (symmetry; eapply Forall2_length; eassumption).
  destruct limit as [k|]; subst n.
  - destruct (k =? 0)%Z eqn:E0; cbn [negb andb].
    + rewrite Nat2Z.id, <- Hl, firstn_all. reflexivity.
    + destruct (k <? Z.of_nat (length l))%Z eqn:E1; [reflexivity|].
      apply Z.ltb_ge in E1. rewrite firstn_all2 by lia. reflexivity.
  - rewrite Nat2Z.id, <- Hl, firstn_all. reflexivity.
Qed.

Lemma listed_named (names : list string) :
  Forall2 listed (map (fun name => VObj [("name", VStr name)]) names) names.
Proof.
  induction names as [|n names IH]; constructor; [|exact IH].
  split; [reflexivity|]. exists n. split; [reflexivity|]. now left.
Qed.

Lemma processListData_strings (names : list string) :
  processListData (VArr (map VStr names))
  = VArr (map (fun name => VObj [("name", VStr name)]) names).
Proof. unfold processListData. now rewrite map_map. Qed.

End ListFacts.

Section ShownFacts.

Lemma showsTexts_formatList (l : list value) (texts : list string) :
  Forall2 listed l texts -> l <> [] -> showsTexts (formatList (VArr l)) texts.
Proof.
  intros H Hne.
  assert (Hl : length texts = length l) by (symmetry; eapply Forall2_length; eassumption).
  unfold showsTexts. rewrite Hl. split; [|split].
  - apply (formatList_listed l texts None H Hne).
  - intros k Hk. rewrite (formatList_listed l texts (Some k) H Hne).
    destruct Hk as [-> | Hk]; [reflexivity|].
    apply Z.ltb_ge in Hk. rewrite Hk. now rewrite andb_false_r.
  - intros k [Hk1 Hk2]. rewrite (formatList_listed l texts (Some k) H Hne).
    apply Z.ltb_lt in Hk2. rewrite Hk2.
    assert ((k =? 0)%Z = false) as -> by (apply Z.eqb_neq; lia). reflexivity.
Qed.

Lemma showsTexts_ext (f g : option Z -> result value) (texts : list string) :
  (forall limit, f limit = g limit) -> showsTexts g texts -> showsTexts f texts.
Proof.
  intros E (H1 & H2 & H3). unfold showsTexts. rewrite !E.
  split; [exact H1|]. split; intros k Hk; rewrite E; auto.
Qed.

End ShownFacts.

(** X22.  [formatList] gives [null] for a list that is missing or empty.
    For a list of entries with names it gives their texts ([name], or
    [name-version] for an entry with a version) joined by a comma and a
    space: all of them without a limit, with the limit [0] and with a limit
    that is not below their number; the first [k], followed by an ellipsis,
    with a smaller limit [k]. *)
Theorem formatList_limit :
  (forall limit,
      formatList VUndefined limit = Ok VNull /\ formatList VNull limit = Ok VNull
      /\ formatList (VArr []) limit = Ok VNull)
  /\ (forall l texts,
         Forall2 listed l texts -> l <> [] -> showsTexts (formatList (VArr l)) texts).
Proof.
  split; [intros limit; repeat split|].
  intros l texts H Hne. now apply showsTexts_formatList.
Qed.

(** X23.  What the normaliser stores is what the template shows: when an
    online payload gives its plugins, or its mods, as an array of strings,
    and for the names the record holds as player list, [{pluginlist}],
    [{modlist}] and [{playerlist}] show those strings (subject to the limit
    as above) and [{plugincount}], [{modcount}] and [{playercount}] their
    number. *)
Theorem name_lists_rendered
        (h_image : string -> string)
        (data : value) (address : string) (serverType : ServerType)
        (st : ServerStatus.t) (names : list string) :
  normalizeApiResponse data address serverType = Ok st ->
  ServerStatus.online st = true ->
  names <> [] ->
  (prop data "plugins" = VArr (map VStr names) ->
   showsTexts (getValue h_image st "pluginlist") names
   /\ getValue h_image st "plugincount" None
      = Ok (VStr (numberToString (Z.of_nat (length names)))))
  /\ (prop data "mods" = VArr (map VStr names) ->
      showsTexts (getValue h_image st "modlist") names
      /\ getValue h_image st "modcount" None
         = Ok (VStr (numberToString (Z.of_nat (length names)))))
  /\ (Players.list (ServerStatus.players st) = VArr (map VStr names) ->
      showsTexts (getValue h_image st "playerlist") names
      /\ getValue h_image st "playercount" None
         = Ok (VStr (numberToString (Z.of_nat (length names))))).
Proof.
  intros H Eo Hne.
  destruct (normalize_online_inv _ _ _ _ H Eo)
    as (hp & m & pl & ns & _ & _ & _ & _ & _ & _ & _ & _ & _ & Hmods & Hplugins & _).
  assert (Hne' : map (fun name => VObj [("name", VStr name)]) names <> [])
    by (destruct names; [congruence | discriminate]).
  pose proof (showsTexts_formatList _ names (listed_named names) Hne') as Hlist.
  split; [|split].
  - intros E. rewrite E, processListData_strings in Hplugins. split.
    + apply (showsTexts_ext _ _ names) with (2 := Hlist). intros limit.
      change (getValue h_image st "pluginlist" limit)
        with (formatList (ServerStatus.plugins st) limit).
      now rewrite Hplugins.
    + change (getValue h_image st "plugincount" None)
        with (lengthString (ServerStatus.plugins st)).
      rewrite Hplugins. unfold lengthString. cbn [nullish lengthOf toString bind].
      now rewrite length_map.
  - intros E. rewrite E in Hmods. unfold JSValue.or in Hmods. cbn [truthy] in Hmods.
    rewrite processListData_strings in Hmods. split.
    + apply (showsTexts_ext _ _ names) with (2 := Hlist). intros limit.
      change (getValue h_image st "modlist" limit)
        with (formatList (ServerStatus.mods st) limit).
      now rewrite Hmods.
    + change (getValue h_image st "modcount" None)
        with (lengthString (ServerStatus.mods st)).
      rewrite Hmods. unfold lengthString. cbn [nullish lengthOf toString bind].
      now rewrite length_map.
  - intros E. split.
    + apply (showsTexts_ext _ _ names) with (2 := Hlist). intros limit.
      unfold getValue. cbn [String.eqb Ascii.eqb Bool.eqb]. rewrite E. cbn [nullish].
      now rewrite map_map.
    + change (getValue h_image st "playercount" None)
        with (lengthString (Players.list (ServerStatus.players st))).
      rewrite E. unfold lengthString. cbn [nullish lengthOf toString bind].
      now rewrite length_map.
Qed.

Lemma name_lists_rendered_witness :
  exists st,
    normalizeApiResponse
      (VObj [("plugins", VArr (map VStr ["Essentials"; "WorldEdit"; "Vault"]))])
      "mc.example.com" java = Ok st
    /\ getValue imgElement st "pluginlist" (Some 2%Z) = Ok (VStr "Essentials, WorldEdit...")
    /\ getValue imgElement st "plugincount" None = Ok (VStr "3").
Proof.
  eexists. split; [reflexivity|].
  destruct (proj1 (name_lists_rendered imgElement
                     (VObj [("plugins", VArr (map VStr ["Essentials"; "WorldEdit"; "Vault"]))])
                     "mc.example.com" java _ ["Essentials"; "WorldEdit"; "Vault"]
                     eq_refl eq_refl ltac:(discriminate)) eq_refl)
    as [(_ & _ & H3) Hc].
  split; [|exact Hc]. apply (H3 2%Z). cbn. lia.
Defined.

(* ================================================================== *)
(** * The scan of a template line loses nothing *)
(* ================================================================== *)

Section ScanRoundTrip.

Lemma span_inv (p : ascii -> bool) (s h t : string) :
  span p s = (h, t) -> s = h +:+ t /\ forallbS p h = true.
Proof.
  revert h t. induction s as [|c s IH]; intros h t.
  - intros [= <- <-]. now split.
  - cbn [span]. destruct (p c) eqn:E.
    + destruct (span p s) as [h' t']. intros [= <- <-].
      destruct (IH h' t' eq_refl) as [-> Hh]. cbn [append forallbS].
      now rewrite E, Hh.
    + intros [= <- <-]. now split.
Qed.

(** A match at the start of [s] is the text of the placeholder, its name is
    a name, its limit a string of digits, and its width the length of the
    text. *)
Lemma matchPlaceholder_inv (s : string) (p : Placeholder.t) :
  matchPlaceholder s = Some p ->
  (exists rest, s = placeholderText p +:+ rest)
  /\ isName (Placeholder.name p) = true
  /\ (forall d, Placeholder.limitStr p = Some d -> isDigits d = true)
  /\ Placeholder.width p = String.length (placeholderText p).
Proof.
  destruct s as [|c r]; [discriminate|].
  destruct (Ascii.eqb_spec c "{") as [->|Hc];
    [|now rewrite (matchPlaceholder_not_brace c r Hc)].
  unfold matchPlaceholder.
  destruct (span isNameChar r) as [name t] eqn:Es.
  apply span_inv in Es as [-> Hname].
  destruct (isEmpty name) eqn:Ene; [discriminate|].
  assert (Hn : isName name = true) by (unfold isName; now rewrite Ene, Hname).
  destruct t as [|x t]; [discriminate|].
  destruct (Ascii.eqb_spec x "}") as [->|Hx1].
  - intros [= <-]. unfold placeholderText.
    cbn [Placeholder.name Placeholder.limitStr Placeholder.width].
    repeat split; try assumption.
    + exists t. cbn [append]. now rewrite !append_assoc.
    + discriminate.
    + cbn [append String.length]. rewrite !append_length. cbn. lia.
  - destruct (Ascii.eqb_spec x ":") as [->|Hx2].
    + destruct (span isDigit t) as [digits t''] eqn:Ed.
      apply span_inv in Ed as [-> Hdig].
      destruct (isEmpty digits) eqn:Ede; [discriminate|].
      destruct t'' as [|y t'']; [discriminate|].
      destruct (Ascii.eqb_spec y "}") as [->|Hy].
      * intros [= <-]. unfold placeholderText.
        cbn [Placeholder.name Placeholder.limitStr Placeholder.width].
        repeat split; try assumption.
        -- exists t''. cbn [append]. rewrite !append_assoc. cbn [append].
           rewrite ?append_assoc. reflexivity.
        -- intros d [= <-]. unfold isDigits. now rewrite Ede, Hdig.
        -- cbn [append String.length]. rewrite !append_length.
           cbn [append String.length]. rewrite ?append_length. cbn [String.length]. lia.
      * intros H. exfalso. revert H.
        destruct y as [[] [] [] [] [] [] [] []]; (discriminate || congruence).
    + intros H. exfalso. revert H.
      destruct x as [[] [] [] [] [] [] [] []]; (discriminate || congruence).
Qed.

Lemma scan_round_trip (n : nat) (s : string) :
  String.length s <= n ->
  replaceTokens (fun p => Ok (placeholderText p)) (scanFrom 0 s) = Ok s.
Proof.
  revert s. induction n as [|n IH]; intros s Hs.
  - destruct s; [reflexivity | cbn in Hs; lia].
  - destruct s as [|c r]; [reflexivity|]. cbn [scanFrom].
    destruct (matchPlaceholder (String c r)) as [p|] eqn:Em.
    + destruct (matchPlaceholder_inv _ _ Em) as ([rest E] & _ & _ & Hw).
      rewrite Hw. unfold placeholderText in E |- *. cbn [append] in E |- *.
      injection E as -> ->. cbn [String.length]. rewrite Nat.sub_1_r. cbn [Nat.pred].
      rewrite scanFrom_skip. cbn [replaceTokens bind].
      rewrite IH; [reflexivity|].
      cbn [String.length] in Hs. rewrite append_length in Hs. lia.
    + cbn [replaceTokens]. rewrite IH; [reflexivity | cbn in Hs; lia].
Qed.

Lemma holes_scanFrom (n : nat) (s : string) (p : Placeholder.t) :
  String.length s <= n -> p ∈ holes (scanFrom 0 s) ->
  exists rest, matchPlaceholder (placeholderText p +:+ rest) = Some p.
Proof.
  revert s. induction n as [|n IH]; intros s Hs.
  - destruct s; [intros H; now apply elem_of_nil in H | cbn in Hs; lia].
  - destruct s as [|c r]; [intros H; now apply elem_of_nil in H|]. cbn [scanFrom].
    destruct (matchPlaceholder (String c r)) as [q|] eqn:Em.
    + destruct (matchPlaceholder_inv _ _ Em) as ([rest E] & _ & _ & Hw).
      change (holes (Hole q :: ?l)) with (q :: holes l).
      intros [-> | Hin]%elem_of_cons.
      * exists rest. now rewrite <- E.
      * revert Hin. rewrite Hw. unfold placeholderText in E |- *. cbn [append] in E |- *.
        injection E as -> ->. cbn [String.length]. rewrite Nat.sub_1_r. cbn [Nat.pred].
        rewrite scanFrom_skip. apply IH.
        cbn [String.length] in Hs. rewrite append_length in Hs. lia.
    + change (holes (Lit c :: ?l)) with (holes l). apply IH. cbn in Hs. lia.
Qed.

Lemma parseInt_digits (p : string) :
  isDigits p = true -> parseInt p = Some (decimal p).
Proof.
  intros H. rewrite <- (parseInt10_digits p H). unfold parseInt, parseInt10.
  unfold isDigits in H. apply andb_true_iff in H as [Hne Hd].
  destruct p as [|c r]; [discriminate|]. cbn [forallbS] in Hd.
  apply andb_true_iff in Hd as [Hc Hr].
  rewrite (trimStart_digit c r Hc), (stripSign_digit c r Hc).
  destruct r as [|c2 r]; [destruct c as [[] [] [] [] [] [] [] []]; reflexivity|].
  cbn [forallbS] in Hr. apply andb_true_iff in Hr as [Hc2 _].
  destruct c as [[] [] [] [] [] [] [] []]; try reflexivity;
    destruct c2 as [[] [] [] [] [] [] [] []]; try reflexivity; discriminate Hc2.
Qed.

End ScanRoundTrip.

(** X24.  The scan of a template line loses nothing: putting back, for each
    placeholder found, the text it stands for gives the line again.  And
    every placeholder found has a non-empty name without brace or colon, a
    limit (when it has one) that is a non-empty string of digits and is
    read as the number they write when that is a safe integer, and a width
    that is the length of its text. *)
Theorem placeholders_round_trip (line : string) :
  replacePlaceholders (fun p => Ok (placeholderText p)) line = Ok line
  /\ (forall p,
         p ∈ placeholders line ->
         isName (Placeholder.name p) = true
         /\ (forall d, Placeholder.limitStr p = Some d ->
                       isDigits d = true
                       /\ (safeInteger (decimal d) = true ->
                           limitOf (Some d) = Some (decimal d)))
         /\ Placeholder.width p = String.length (placeholderText p)).
Proof.
  split.
  - apply (scan_round_trip (String.length line)). lia.
  - intros p Hp.
    destruct (holes_scanFrom (String.length line) line p (le_n _) Hp) as [rest Em].
    destruct (matchPlaceholder_inv _ _ Em) as (_ & Hn & Hd & Hw).
    split; [exact Hn|]. split; [|exact Hw].
    intros d E. specialize (Hd d E). split; [exact Hd|]. intros _.
    unfold limitOf. rewrite (parseInt_digits d Hd).
    unfold isDigits in Hd. apply andb_true_iff in Hd as [Hne _].
    apply negb_true_iff in Hne. now rewrite Hne.
Qed.

(* ================================================================== *)
(** * The rendered text *)
(* ================================================================== *)

Section OutputFacts.

Lemma split_nonempty (c : ascii) (s : string) : split c s <> [].
Proof. intros E. pose proof (split_length c s) as H. rewrite E in H. discriminate. Qed.

Lemma join_split (c : ascii) (s : string) : join (str1 c) (split c s) = s.
Proof.
  unfold join. induction s as [|x s IH]; [reflexivity|]. cbn [split].
  destruct (Ascii.eqb_spec x c) as [->|Hx].
  - destruct (split c s) as [|h t] eqn:E; [now apply split_nonempty in E|].
    cbn [String.concat] in IH |- *. now rewrite IH.
  - destruct (split c s) as [|h t] eqn:E; [now apply split_nonempty in E|].
    destruct t as [|h' t]; cbn [String.concat] in IH |- *; now rewrite <- IH.
Qed.

Lemma split_countChar (c x : ascii) (s : string) :
  countChar x s = 0 -> Forall (fun l => countChar x l = 0) (split c s).
Proof.
  induction s as [|y s IH]; [now repeat constructor|].
  intros [Hy Hs]%countChar_cons_0. specialize (IH Hs). cbn [split].
  destruct (Ascii.eqb y c).
  - now constructor.
  - destruct (split c s) as [|h t]; [repeat constructor|].
    + cbn [countChar str1]. apply Ascii.eqb_neq in Hy. now rewrite Hy.
    + inversion IH as [|? ? Hh Ht]; subst. constructor; [|exact Ht].
      cbn [countChar]. apply Ascii.eqb_neq in Hy. now rewrite Hy.
Qed.

Lemma mapR_id {A} (f : A -> result A) (l : list A) :
  Forall (fun x => f x = Ok x) l -> mapR f l = Ok l.
Proof. induction 1 as [|x l Hx _ IH]; [reflexivity|]. cbn [mapR]. now rewrite Hx, IH. Qed.

Lemma filter_all {A} (p : A -> bool) (l : list A) :
  Forall (fun x => p x = true) l -> List.filter p l = l.
Proof. induction 1 as [|x l Hx _ IH]; [reflexivity|]. cbn. now rewrite Hx, IH. Qed.

Lemma collapse_short (s : string) : noLongRun s = true -> collapseBlankLines s = s.
Proof.
  unfold collapseBlankLines. induction s as [|c s IH]; [reflexivity|].
  cbn [noLongRun collapseFrom]. intros [Hc Hs]%andb_true_iff.
  apply Nat.ltb_lt in Hc.
  assert ((3 <=? countLF (String c s))%nat = false) as -> by (apply Nat.leb_gt; lia).
  now rewrite (IH Hs).
Qed.

(** A text none of whose lines but the first is blank has no two line
    feeds in a row. *)
Lemma no_blank_line_short (s : string) :
  Forall (fun l => isBlank l = false) (tl (split LF s)) ->
  countLF s <= 1 /\ noLongRun s = true.
Proof.
  induction s as [|c s IH]; [intros _; split; [cbn; lia | reflexivity]|].
  cbn [split countLF noLongRun].
  destruct (Ascii.eqb c LF) eqn:E.
  - cbn [tl]. intros H.
    destruct (split LF s) as [|h t] eqn:Es; [now apply split_nonempty in Es|].
    inversion H as [|? ? Hh Ht]; subst.
    destruct (IH Ht) as [_ Hs]. rewrite Hs.
    assert (countLF s = 0) as ->.
    { destruct s as [|x s]; [reflexivity|]. cbn [countLF].
      destruct (Ascii.eqb x LF) eqn:Ex; [|reflexivity].
      cbn [split] in Es. rewrite Ex in Es. injection Es as <- _. discriminate. }
    split; [lia | reflexivity].
  - destruct (split LF s) as [|h t] eqn:Es; [now apply split_nonempty in Es|].
    cbn [tl]. intros H. destruct (IH H) as [_ Hs]. rewrite Hs. split; [lia | reflexivity].
Qed.

End OutputFacts.

Section ShapeFacts.

Lemma renderLine_plain (h_image : string -> string) (st : ServerStatus.t) (line : string) :
  countChar "{" line = 0 -> renderLine h_image st line = Ok line.
Proof.
  intros H.
  assert (Hp : placeholders line = []).
  { unfold placeholders. now rewrite (tokens_literal line H), holes_literal. }
  rewrite (renderLine_substituted h_image st line (or_introl Hp)).
  unfold replacePlaceholders. rewrite (tokens_literal line H).
  apply replaceTokens_literal.
Qed.

Lemma countLF_le_append (a b : string) : countLF a <= countLF (a +:+ b).
Proof.
  induction a as [|c a IH]; [cbn; lia|]. cbn [append countLF].
  destruct (Ascii.eqb c LF); lia.
Qed.

Lemma noLongRun_prefix (a b : string) : noLongRun (a +:+ b) = true -> noLongRun a = true.
Proof.
  induction a as [|c a IH]; [reflexivity|].
  change (String c a +:+ b) with (String c (a +:+ b)).
  cbn [noLongRun]. intros [Hc Hs]%andb_true_iff. apply Nat.ltb_lt in Hc.
  rewrite (IH Hs), andb_true_r. apply Nat.ltb_lt.
  pose proof (countLF_le_append (String c a) b) as Hle.
  change (String c a +:+ b) with (String c (a +:+ b)) in Hle. lia.
Qed.

Lemma noLongRun_suffix (a b : string) : noLongRun (a +:+ b) = true -> noLongRun b = true.
Proof.
  induction a as [|c a IH]; [now intros H|].
  change (String c a +:+ b) with (String c (a +:+ b)).
  cbn [noLongRun]. intros [_ Hs]%andb_true_iff. exact (IH Hs).
Qed.

Lemma noLongRun_trimStart (s : string) : noLongRun s = true -> noLongRun (trimStart s) = true.
Proof.
  intros H. destruct (trimStart_suffix s) as [p E]. rewrite E in H.
  exact (noLongRun_suffix _ _ H).
Qed.

Lemma noLongRun_trim (s : string) : noLongRun s = true -> noLongRun (trim s) = true.
Proof.
  intros H. unfold trim. apply noLongRun_trimStart in H.
  destruct (trimEnd_prefix (trimStart s)) as (t & E & _). rewrite E in H.
  now apply noLongRun_prefix in H.
Qed.

Lemma countLF_split (s : string) :
  s = lineFeeds (countLF s) +:+ drop (countLF s) s /\ countLF (drop (countLF s) s) = 0.
Proof.
  induction s as [|c s [IH1 IH2]]; [now split|]. cbn [countLF].
  destruct (Ascii.eqb_spec c LF) as [->|Hc].
  - cbn [lineFeeds append drop]. split; [now rewrite <- IH1 | exact IH2].
  - cbn [lineFeeds append drop countLF]. apply Ascii.eqb_neq in Hc. now rewrite Hc.
Qed.

Lemma collapse_countLF_0 (b : string) :
  countLF b = 0 -> countLF (collapseBlankLines b) = 0.
Proof.
  unfold collapseBlankLines. destruct b as [|c r]; [reflexivity|]. intros H.
  cbn [collapseFrom]. rewrite H. cbn [Nat.leb countLF]. cbn [countLF] in H.
  destruct (Ascii.eqb c LF); [discriminate | reflexivity].
Qed.

Lemma noLongRun_lineFeeds (m : nat) (x : string) :
  m <= 2 -> countLF x = 0 -> noLongRun x = true -> noLongRun (lineFeeds m +:+ x) = true.
Proof.
  intros Hm Hx Hn.
  destruct m as [|[|[|m]]]; [exact Hn | | | lia];
    cbn [lineFeeds append noLongRun countLF]; rewrite ?Ascii.eqb_refl, Hx, Hn; reflexivity.
Qed.

Lemma collapse_noLongRun (n : nat) (s : string) :
  String.length s <= n -> noLongRun (collapseBlankLines s) = true.
Proof.
  revert s. induction n as [|n IH]; intros s Hs.
  - destruct s; [reflexivity | cbn in Hs; lia].
  - destruct s as [|c r]; [reflexivity|].
    destruct (Ascii.eqb c LF) eqn:Ec.
    + destruct (countLF_split (String c r)) as [E1 E2].
      set (k := countLF (String c r)) in *.
      set (b := drop k (String c r)) in *.
      assert (Hk : 1 <= k) by (subst k; cbn [countLF]; rewrite Ec; lia).
      assert (Hb : String.length b <= n).
      { assert (Hl : String.length (String c r) = k + String.length b)
          by (rewrite E1 at 1; now rewrite append_length, lineFeeds_length).
        lia. }
      rewrite E1, (collapse_run k b E2).
      assert (Hshort : exists m, m <= 2
                /\ (if (3 <=? k)%nat then nl +:+ nl else lineFeeds k) = lineFeeds m).
      { destruct (Nat.leb_spec 3 k); [now exists 2 | exists k; split; [lia | reflexivity]]. }
      destruct Hshort as (m & Hm & ->).
      apply noLongRun_lineFeeds; [exact Hm | now apply collapse_countLF_0 | now apply IH].
    + unfold collapseBlankLines. cbn [collapseFrom countLF]. rewrite Ec.
      cbn [Nat.leb noLongRun countLF]. rewrite Ec. cbn [Nat.ltb Nat.leb andb].
      apply IH. cbn in Hs. lia.
Qed.

End ShapeFacts.

Section JoinFacts.

Lemma split_plain (x : string) : countChar LF x = 0 -> split LF x = [x].
Proof.
  induction x as [|c x IH]; [reflexivity|]. intros [Hc Hx]%countChar_cons_0.
  cbn [split]. apply Ascii.eqb_neq in Hc. rewrite Hc, (IH Hx). reflexivity.
Qed.

Lemma split_append_plain (x rest : string) :
  countChar LF x = 0 -> split LF (x +:+ String LF rest) = x :: split LF rest.
Proof.
  induction x as [|c x IH].
  - intros _. cbn [append split]. now rewrite Ascii.eqb_refl.
  - intros [Hc Hx]%countChar_cons_0. cbn [append split].
    apply Ascii.eqb_neq in Hc. rewrite Hc, (IH Hx). reflexivity.
Qed.

Lemma split_join (lines : list string) :
  lines <> [] -> Forall (fun x => countChar LF x = 0) lines ->
  split LF (join nl lines) = lines.
Proof.
  intros Hne H. induction H as [|x l Hx Hl IH]; [congruence|].
  destruct l as [|y l].
  - cbn. now apply split_plain.
  - change (join nl (x :: y :: l)) with (x +:+ String LF (join nl (y :: l))).
    rewrite (split_append_plain x _ Hx), IH; [reflexivity | discriminate].
Qed.

(** Lines without a line feed, none of them blank, joined: no three line
    feeds stand in a row. *)
Lemma join_noLongRun (lines : list string) :
  Forall (fun x => countChar LF x = 0) lines ->
  Forall (fun x => isBlank x = false) lines ->
  noLongRun (join nl lines) = true.
Proof.
  intros Hp Hb. destruct lines as [|x l]; [reflexivity|].
  apply no_blank_line_short. rewrite (split_join (x :: l)); [|discriminate | exact Hp].
  cbn [tl]. now inversion Hb.
Qed.

Lemma filter_Forall {A} (P : A -> Prop) (p : A -> bool) (l : list A) :
  Forall P l -> Forall P (List.filter p l).
Proof.
  induction 1 as [|x l Hx _ IH]; [constructor|]. cbn [List.filter].
  destruct (p x); [now constructor | exact IH].
Qed.

Lemma filter_kept {A} (p : A -> bool) (l : list A) :
  Forall (fun x => p x = true) (List.filter p l).
Proof.
  induction l as [|x l IH]; [constructor|]. cbn [List.filter].
  destruct (p x) eqn:E; [now constructor | exact IH].
Qed.

Lemma assemble_plain (rendered : list string) :
  Forall (fun x => countChar LF x = 0) rendered ->
  assemble rendered
  = trim (join nl (List.filter (fun x => negb (isBlank x)) rendered)).
Proof.
  intros H. unfold assemble. fold isBlank.
  change (fun line => negb (isEmpty (trim line))) with (fun x => negb (isBlank x)).
  rewrite collapse_short; [reflexivity|].
  apply join_noLongRun; [now apply filter_Forall|].
  eapply Forall_impl; [apply filter_kept|]. cbn beta. intros x Hx.
  now apply negb_true_iff.
Qed.

End JoinFacts.

(** C9, amended.  For an online status, the text returned is the rendered
    lines that are not blank (empty, or whitespace and line terminators
    only), joined by line feeds, then collapsed, then trimmed.  A line that
    renders blank is removed before the lines are joined, and a blank line
    of the template renders as itself, so the blank lines of a template
    leave no blank line in the output, however many there are in a row:
    when no rendered line holds a line feed, the output is the non-blank
    rendered lines, joined and trimmed.  In the joined text, where only a
    substituted value can bring line feeds in a row, each run of three or
    more line feeds becomes two (one blank line) and shorter runs are kept,
    so that the output never holds three line feeds in a row; and the
    result is trimmed.  With a MOTD of two lines three blank lines apart,
    the template ["{motd}"] renders the two lines one blank line apart. *)
Theorem formatServerStatus_blank_lines
        (h_image : string -> string) (st : ServerStatus.t) :
  ServerStatus.online st = true ->
  (forall config,
      formatServerStatus h_image st config =
      (rendered <- mapR (renderLine h_image st) (split LF (Config.serverTemplate config)) ;;
       Ok (VStr (trim (collapseBlankLines
                         (join nl (List.filter (fun x => negb (isBlank x)) rendered)))))))
  /\ (forall config pre line post x,
      split LF (Config.serverTemplate config) = pre ++ line :: post ->
      renderLine h_image st line = Ok x -> isBlank x = true ->
      formatServerStatus h_image st config =
      (s <- renderLines h_image st (pre ++ post) ;; Ok (VStr s)))
  /\ (forall line, isBlank line = true -> renderLine h_image st line = Ok line)
  /\ (forall config rendered,
         mapR (renderLine h_image st) (split LF (Config.serverTemplate config))
         = Ok rendered ->
         Forall (fun x => countChar LF x = 0) rendered ->
         formatServerStatus h_image st config
         = Ok (VStr (trim (join nl (List.filter (fun x => negb (isBlank x)) rendered)))))
  /\ (forall a b n,
         endsWith LF a = false -> countLF b = 0 ->
         collapseBlankLines (a +:+ lineFeeds n +:+ b) =
         collapseBlankLines a
         +:+ (if (3 <=? n)%nat then nl +:+ nl else lineFeeds n)
         +:+ collapseBlankLines b)
  /\ (forall s, noLongRun s = true -> collapseBlankLines s = s)
  /\ (forall s, noLongRun (collapseBlankLines s) = true)
  /\ (forall lines, trim (assemble lines) = assemble lines)
  /\ (forall config out,
         formatServerStatus h_image st config = Ok (VStr out) ->
         noLongRun out = true /\ trim out = out)
  /\ (forall config,
         ServerStatus.motd st = VStr ("Welcome" +:+ lineFeeds 4 +:+ "Have fun") ->
         Config.serverTemplate config = "{motd}" ->
         formatServerStatus h_image st config
         = Ok (VStr ("Welcome" +:+ nl +:+ nl +:+ "Have fun"))).
Proof.
  intros Hon. repeat match goal with |- _ /\ _ => split end.
  - intros config. unfold formatServerStatus, renderLines. rewrite Hon. cbn [negb].
    destruct (mapR _ _) as [rendered|]; reflexivity.
  - intros config pre line post x Hs Hl Hx. unfold formatServerStatus.
    rewrite Hon, Hs. cbn [negb]. now rewrite (renderLines_drop _ _ _ _ _ _ Hl Hx).
  - intros line Hb. unfold renderLine, placeholders, replacePlaceholders.
    rewrite (tokens_literal line)
      by now apply isBlank_no_brace.
    rewrite holes_literal. cbn [length Nat.ltb Nat.leb bind].
    apply replaceTokens_literal.
  - intros config rendered Hr Hp. unfold formatServerStatus, renderLines.
    rewrite Hon, Hr. cbn [negb bind]. now rewrite (assemble_plain rendered Hp).
  - apply collapse_around_run.
  - apply collapse_short.
  - intros s. eapply collapse_noLongRun. apply le_n.
  - intros lines. unfold assemble. apply trim_idem.
  - intros config out. unfold formatServerStatus, renderLines. rewrite Hon. cbn [negb].
    destruct (mapR _ _) as [rendered|]; cbn [bind]; [|discriminate].
    intros [= <-]. unfold assemble. split.
    + apply noLongRun_trim. eapply collapse_noLongRun. apply le_n.
    + apply trim_idem.
  - intros config Hm Ht. unfold formatServerStatus. rewrite Hon, Ht. cbn [negb].
    change (split LF "{motd}") with ["{motd}"].
    unfold renderLines. cbn [mapR].
    assert (E : renderLine h_image st "{motd}"
                = Ok ("Welcome" +:+ lineFeeds 4 +:+ "Have fun")).
    { unfold renderLine.
      change (placeholders "{motd}") with [Placeholder.mk "motd" None 6].
      unfold replacePlaceholders.
      change (tokens "{motd}") with [Hole (Placeholder.mk "motd" None 6)].
      unfold substitute, resolvesEmpty, valueOf. cbn. rewrite Hm. reflexivity. }
    rewrite E. reflexivity.
Qed.

(** The sample status has such a MOTD. *)
Lemma formatServerStatus_blank_lines_witness :
  formatServerStatus imgElement sampleStatus (Config.mk None "{motd}")
  = Ok (VStr ("Welcome" +:+ nl +:+ nl +:+ "Have fun")).
Proof.
  apply (formatServerStatus_blank_lines imgElement sampleStatus eq_refl);
    reflexivity.
Defined.

(** C9 as stated fails on the blank lines of the template itself: a run of
    three of them between two lines leaves no blank line at that place, not
    one. *)
Lemma formatServerStatus_template_blank_lines :
  split LF ("Status" +:+ lineFeeds 4 +:+ "Players: {online}/{max}")
  = ["Status"; ""; ""; ""; "Players: {online}/{max}"]
  /\ formatServerStatus imgElement sampleStatus
       (Config.mk None ("Status" +:+ lineFeeds 4 +:+ "Players: {online}/{max}"))
     = Ok (VStr ("Status" +:+ nl +:+ "Players: 5/20"))
  /\ formatServerStatus imgElement sampleStatus
       (Config.mk None ("Status" +:+ lineFeeds 4 +:+ "Players: {online}/{max}"))
     <> Ok (VStr ("Status" +:+ nl +:+ nl +:+ "Players: 5/20")).
Proof. repeat split. discriminate. Qed.

(** X25.  A template without an opening brace has no placeholder: for
    every online status it is rendered as its non-blank lines, joined and
    trimmed, whatever the status holds; and when none of its lines is
    blank, as the template itself, trimmed. *)
Theorem formatServerStatus_plain_template
        (h_image : string -> string) (st : ServerStatus.t) (config : Config.t) :
  ServerStatus.online st = true ->
  countChar "{" (Config.serverTemplate config) = 0 ->
  formatServerStatus h_image st config
  = Ok (VStr (assemble (split LF (Config.serverTemplate config))))
  /\ (Forall (fun line => isBlank line = false) (split LF (Config.serverTemplate config)) ->
      formatServerStatus h_image st config
      = Ok (VStr (trim (Config.serverTemplate config)))).
Proof.
  intros Eo Hb.
  assert (E : formatServerStatus h_image st config
              = Ok (VStr (assemble (split LF (Config.serverTemplate config))))).
  { unfold formatServerStatus, renderLines. rewrite Eo. cbn [negb].
    rewrite (mapR_id (renderLine h_image st)); [reflexivity|].
    eapply Forall_impl; [apply (split_countChar LF "{" _ Hb)|].
    intros line Hl. now apply renderLine_plain. }
  split; [exact E|]. intros Hl. rewrite E. f_equal. f_equal.
  unfold assemble. rewrite filter_all.
  - change nl with (str1 LF). rewrite join_split.
    rewrite collapse_short; [reflexivity|].
    apply no_blank_line_short.
    destruct (split LF (Config.serverTemplate config)) as [|h t]; [constructor|].
    now inversion Hl.
  - eapply Forall_impl; [exact Hl|]. intros line H. unfold isBlank in H. now rewrite H.
Qed.

Lemma formatServerStatus_plain_template_witness :
  formatServerStatus imgElement sampleStatus
    (Config.mk None (" Server status" +:+ nl +:+ "powered by example.com "))
  = Ok (VStr (assemble (split LF (" Server status" +:+ nl +:+ "powered by example.com "))))
  /\ (Forall (fun line => isBlank line = false)
             (split LF (" Server status" +:+ nl +:+ "powered by example.com ")) ->
      formatServerStatus imgElement sampleStatus
        (Config.mk None (" Server status" +:+ nl +:+ "powered by example.com "))
      = Ok (VStr (trim (" Server status" +:+ nl +:+ "powered by example.com ")))).
Proof.
  apply (formatServerStatus_plain_template imgElement sampleStatus
           (Config.mk None (" Server status" +:+ nl +:+ "powered by example.com ")));
    reflexivity.
Defined.

(** X26.  Whatever the template and the values substituted, the text
    [formatServerStatus] gives for an online status never holds three line
    feeds in a row, and neither starts nor ends with whitespace. *)
Theorem formatServerStatus_output_shape
        (h_image : string -> string) (st : ServerStatus.t) (config : Config.t)
        (s : string) :
  ServerStatus.online st = true ->
  formatServerStatus h_image st config = Ok (VStr s) ->
  noLongRun s = true /\ trim s = s.
Proof.
  intros Eo. unfold formatServerStatus, renderLines. rewrite Eo. cbn [negb].
  destruct (mapR _ _) as [rendered|]; cbn [bind]; [|discriminate].
  intros [= <-]. unfold assemble. split.
  - apply noLongRun_trim. eapply collapse_noLongRun. apply le_n.
  - apply trim_idem.
Qed.

Lemma formatServerStatus_output_shape_witness :
  noLongRun ("Welcome" +:+ nl +:+ nl +:+ "Have fun") = true
  /\ trim ("Welcome" +:+ nl +:+ nl +:+ "Have fun") = "Welcome" +:+ nl +:+ nl +:+ "Have fun".
Proof.
  apply (formatServerStatus_output_shape imgElement sampleStatus (Config.mk None "{motd}"));
    reflexivity.
Defined.

(** X27.  The field names are a closed set, and they are matched as
    written: a placeholder whose name is not one of the twenty resolves to
    [null] for every status, and a template line whose only placeholder it
    is is dropped. *)
Theorem getValue_unknown_field
        (h_image : string -> string) (st : ServerStatus.t) (name : string) :
  name ∉ fieldNames ->
  (forall limit, getValue h_image st name limit = Ok VNull)
  /\ (forall a b,
         isName name = true -> countChar "{" a = 0 -> countChar "{" b = 0 ->
         renderLine h_image st (a +:+ "{" +:+ name +:+ "}" +:+ b) = Ok "").
Proof.
  intros Hn.
  assert (Hv : forall limit, getValue h_image st name limit = Ok VNull).
  { intros limit. unfold getValue.
    repeat match goal with
           | |- context [String.eqb name ?k] =>
               destruct (String.eqb_spec name k) as [E|_];
               [exfalso; apply Hn; rewrite E; unfold fieldNames; repeat constructor|]
           end.
    reflexivity. }
  split; [exact Hv|]. intros a b Hname Ha Hb.
  apply renderLine_dropped; rewrite (placeholders_single a name b Ha Hname Hb);
    [discriminate|].
  intros p ->%list_elem_of_singleton. exists VNull. split; [|reflexivity].
  unfold valueOf. cbn [Placeholder.name Placeholder.limitStr limitOf]. apply Hv.
Qed.

Lemma getValue_unknown_field_witness :
  (forall limit, getValue imgElement sampleStatus "Ping" limit = Ok VNull)
  /\ (forall a b,
         isName "Ping" = true -> countChar "{" a = 0 -> countChar "{" b = 0 ->
         renderLine imgElement sampleStatus (a +:+ "{" +:+ "Ping" +:+ "}" +:+ b) = Ok "").
Proof.
  apply (getValue_unknown_field imgElement sampleStatus "Ping").
  unfold fieldNames. intros H.
  repeat (apply elem_of_cons in H as [H|H]; [discriminate H|]).
  now apply elem_of_nil in H.
Defined.

(* ================================================================== *)
(** * [registerInfo]: what a command answers *)
(* ================================================================== *)

Section CommandFacts.

Lemma find_first {A} (p : A -> bool) (pre post : list A) (x : A) :
  Forall (fun y => p y = false) pre -> p x = true ->
  List.find p (pre ++ x :: post) = Some x.
Proof.
  induction 1 as [|y pre Hy _ IH]; intros Hx; cbn [app List.find].
  - now rewrite Hx.
  - rewrite Hy. now apply IH.
Qed.

Lemma find_none {A} (p : A -> bool) (l : list A) :
  Forall (fun y => p y = false) l -> List.find p l = None.
Proof. induction 1 as [|y l Hy _ IH]; [reflexivity|]. cbn. now rewrite Hy. Qed.

End CommandFacts.

(** X28.  The address a command queries: the one given with the command
    when it is not empty, whatever the configuration maps; otherwise, in a
    guild, the address of the first entry of [serverMaps] whose platform and
    channel are those of the session; and none when no entry matches or the
    session is outside a guild. *)
Theorem targetServer_choice (serverMaps : list ServerMap.t) (session : Session.t) :
  (forall s, s <> "" -> targetServer serverMaps session (Some s) = Some s)
  /\ targetServer serverMaps session (Some "") = targetServer serverMaps session None
  /\ (Session.guildId session = None -> targetServer serverMaps session None = None)
  /\ (forall g pre m post,
         Session.guildId session = Some g ->
         serverMaps = pre ++ m :: post ->
         Forall (fun m' => ServerMap.platform m' <> Session.platform session
                           \/ ServerMap.channelId m' <> g) pre ->
         ServerMap.platform m = Session.platform session ->
         ServerMap.channelId m = g ->
         targetServer serverMaps session None = Some (ServerMap.serverAddress m))
  /\ (forall g,
         Session.guildId session = Some g ->
         Forall (fun m' => ServerMap.platform m' <> Session.platform session
                           \/ ServerMap.channelId m' <> g) serverMaps ->
         targetServer serverMaps session None = None).
Proof.
  assert (Hother : forall g l,
             Forall (fun m' => ServerMap.platform m' <> Session.platform session
                               \/ ServerMap.channelId m' <> g) l ->
             Forall (fun m' => String.eqb (ServerMap.platform m') (Session.platform session)
                               && String.eqb (ServerMap.channelId m') g = false) l).
  { intros g l H. eapply Forall_impl; [exact H|]. intros m' [Hm | Hm]; cbn beta.
    - apply String.eqb_neq in Hm. now rewrite Hm.
    - apply String.eqb_neq in Hm. rewrite Hm. apply andb_false_r. }
  repeat split.
  - intros s Hs. unfold targetServer. apply isEmpty_false in Hs. now rewrite Hs.
  - intros Hg. unfold targetServer. rewrite Hg.
    rewrite find_none; [reflexivity|].
    apply Forall_forall. intros m' _. apply andb_false_r.
  - intros g pre m post Hg -> Hpre Hp Hc. unfold targetServer. rewrite Hg.
    rewrite (find_first _ pre post m); [reflexivity | now apply Hother |].
    apply andb_true_iff. split; now apply String.eqb_eq.
  - intros g Hg Hall. unfold targetServer. rewrite Hg.
    rewrite find_none; [reflexivity | now apply Hother].
Qed.

(** X29.  What a command answers: ['请提供服务器地址'] when there is no
    address to query (none given and none mapped, or an empty one), without
    any request; ['无效地址'] when the address is refused; and every answer
    is one of these two messages, ['查询失败'], or the rendering of an
    online record that [fetchServerStatus] resolved with. *)
Theorem commandAction_answers
        (h_image : string -> string) (w : World.t) (serverMaps : list ServerMap.t)
        (config : Config.t) (session : Session.t) (server : option string)
        (type : ServerType) :
  (targetServer serverMaps session server = None
   \/ targetServer serverMaps session server = Some "" ->
   commandAction h_image w serverMaps config session server type
   = Some (Ok (VStr MSG_NO_ADDRESS)))
  /\ (forall target,
         targetServer serverMaps session server = Some target -> target <> "" ->
         validateServerAddress target = None ->
         commandAction h_image w serverMaps config session server type
         = Some (Ok (VStr MSG_INVALID_ADDRESS)))
  /\ (forall v,
         commandAction h_image w serverMaps config session server type = Some (Ok v) ->
         v = VStr MSG_NO_ADDRESS \/ v = VStr MSG_INVALID_ADDRESS
         \/ v = VStr MSG_LOOKUP_FAILED
         \/ exists target st,
             targetServer serverMaps session server = Some target
             /\ fetchServerStatus w target type (Some config) = Some (Ok st)
             /\ ServerStatus.online st = true
             /\ formatServerStatus h_image st config = Ok v).
Proof.
  unfold commandAction. split; [|split].
  - intros [-> | ->]; reflexivity.
  - intros target -> Hne Hv. apply isEmpty_false in Hne. rewrite Hne.
    now rewrite fetchServerStatus_eq, Hv.
  - intros v.
    destruct (targetServer serverMaps session server) as [target|];
      [|intros [= <-]; now left].
    destruct (isEmpty target); [intros [= <-]; now left|].
    destruct (fetchServerStatus w target type (Some config)) as [[st|e]|] eqn:Ef;
      [|discriminate..].
    intros [= Hf]. destruct (ServerStatus.online st) eqn:Eo.
    + right. right. right. now exists target, st.
    + unfold formatServerStatus in Hf. rewrite Eo in Hf. cbn [negb] in Hf.
      injection Hf as <-.
      destruct (fetchServerStatus_inv _ _ _ _ _ Ef) as [[_ ->] | (_ & _ & Hc)].
      * right. now left.
      * destruct (conclude_inv _ _ _ _ _ Hc) as [[_ ->] | (Eo' & _)]; [|congruence].
        right. right. now left.
Qed.

(* ================================================================== *)
(** * The counts of a record the normaliser built *)
(* ================================================================== *)

Section CountFacts.

Lemma processListData_shape (items : value) : arrayOrMissing (processListData items).
Proof. destruct items; try (now left). right. eexists. reflexivity. Qed.

Lemma playerNames_shape (pl ns : value) : playerNames pl = Ok ns -> arrayOrMissing ns.
Proof.
  unfold playerNames. destruct (nullish pl); [intros [= <-]; now left|].
  destruct pl; try discriminate.
  destruct (mapR _ _) as [names|]; cbn [bind]; [|discriminate].
  intros [= <-]. right. now exists names.
Qed.

Lemma lengthString_shape (v : value) :
  arrayOrMissing v ->
  lengthString v = Ok VUndefined
  \/ exists l, v = VArr l
               /\ lengthString v = Ok (VStr (numberToString (Z.of_nat (length l)))).
Proof. intros [-> | [l ->]]; [now left | right; now exists l]. Qed.

End CountFacts.

(** X30.  In every record [normalizeApiResponse] returns, the player list,
    the plugins and the mods are each an array or missing, whatever the
    payload held there; so [{playercount}], [{plugincount}] and [{modcount}]
    never throw on such a record: each is the number of entries of its
    list, or nothing when the list is missing. *)
Theorem normalized_lists_counted
        (h_image : string -> string)
        (data : value) (address : string) (serverType : ServerType)
        (st : ServerStatus.t) :
  normalizeApiResponse data address serverType = Ok st ->
  forall name list,
    (name, list) ∈ [("playercount", Players.list (ServerStatus.players st));
                    ("plugincount", ServerStatus.plugins st);
                    ("modcount", ServerStatus.mods st)] ->
    (list = VUndefined /\ getValue h_image st name None = Ok VUndefined)
    \/ (exists l, list = VArr l
                  /\ getValue h_image st name None
                     = Ok (VStr (numberToString (Z.of_nat (length l))))).
Proof.
  intros H.
  assert (Hshape : arrayOrMissing (Players.list (ServerStatus.players st))
                   /\ arrayOrMissing (ServerStatus.plugins st)
                   /\ arrayOrMissing (ServerStatus.mods st)).
  { destruct (ServerStatus.online st) eqn:Eo.
    - destruct (normalize_online_inv _ _ _ _ H Eo)
        as (hp & m & pl & ns & _ & _ & _ & _ & Hns & _ & _ & _ & -> & -> & -> & _).
      repeat split; [now apply (playerNames_shape pl) | apply processListData_shape ..].
    - revert H. unfold normalizeApiResponse.
      destruct (nullish data); [discriminate|].
      destruct (classifiedOffline data) as [[|]|]; cbn [bind]; [| |discriminate].
      + intros [= <-]. repeat split; now left.
      + destruct (resolveHostPort _ _ _) as [hp|]; cbn [bind]; [|discriminate].
        destruct (motdText data) as [m|]; cbn [bind]; [|discriminate].
        destruct (playerList data) as [pl|]; cbn [bind]; [|discriminate].
        destruct (playerNames pl) as [ns|]; cbn [bind]; [|discriminate].
        intros [= <-]. discriminate. }
  destruct Hshape as (Hp & Hg & Hm).
  intros name list Hin.
  assert (Hl : arrayOrMissing list /\ getValue h_image st name None = lengthString list).
  { repeat (apply elem_of_cons in Hin as [[= -> ->] | Hin]; [now split|]).
    now apply elem_of_nil in Hin. }
  destruct Hl as [Hs ->].
  destruct Hs as [-> | [l ->]]; [left; now split | right; now exists l].
Qed.

Lemma normalized_lists_counted_witness :
  exists st,
    normalizeApiResponse
      (VObj [("plugins", VStr "hidden"); ("mods", VArr [VStr "jei"; VNull])])
      "mc.example.com" java = Ok st
    /\ getValue imgElement st "plugincount" None = Ok VUndefined
    /\ getValue imgElement st "modcount" None = Ok (VStr "2").
Proof.
  eexists. split; [reflexivity|].
  split.
  - destruct (normalized_lists_counted imgElement
                (VObj [("plugins", VStr "hidden"); ("mods", VArr [VStr "jei"; VNull])])
                "mc.example.com" java _ eq_refl "plugincount" VUndefined) as [[_ E] | (l & Hl & _)];
      [repeat constructor | exact E | discriminate Hl].
  - destruct (normalized_lists_counted imgElement
                (VObj [("plugins", VStr "hidden"); ("mods", VArr [VStr "jei"; VNull])])
                "mc.example.com" java _ eq_refl "modcount"
                (VArr [VObj [("name", VStr "jei")]; VNull])) as [[Hl _] | (l & Hl & E)];
      [repeat constructor | discriminate Hl |].
    injection Hl as <-. exact E.
Defined.
